(** * RupeeFlow receipt pipeline: a shallow embedding of
      [backend/receipt_processor.py] and of the expense routes of
      [backend/server.py], and the properties of the extractors, the
      categorizer, the orchestrator and the routes. *)

From Stdlib Require Import List Bool Arith NArith ZArith QArith Qround Qpower.
From Stdlib Require Import String Ascii DecimalString Lia Lqa.
Import ListNotations.

Local Open Scope N_scope.

(** ** Python strings

    A Python [str] is a sequence of Unicode code points. *)

Module Py.

Definition char := N.
Definition text := list char.

(** Decoding of a UTF-8 literal, so that the source's literals can be written
    as they are (["₹"] is the single code point U+20B9). *)
Definition cont_byte (a : ascii) : N := N.land (N_of_ascii a) 63.

Fixpoint utf8 (s : string) : text :=
  match s with
  | EmptyString => []
  | String a s1 =>
      let b := N_of_ascii a in
      if b <? 128 then b :: utf8 s1
      else if b <? 224 then
        match s1 with
        | String a1 s2 => (N.land b 31 * 64 + cont_byte a1) :: utf8 s2
        | _ => [b]
        end
      else if b <? 240 then
        match s1 with
        | String a1 (String a2 s3) =>
            (N.land b 15 * 4096 + cont_byte a1 * 64 + cont_byte a2) :: utf8 s3
        | _ => [b]
        end
      else
        match s1 with
        | String a1 (String a2 (String a3 s4)) =>
            (N.land b 7 * 262144 + cont_byte a1 * 4096 + cont_byte a2 * 64
             + cont_byte a3) :: utf8 s4
        | _ => [b]
        end
  end.

Definition chr (a : ascii) : char := N_of_ascii a.

(** The characters the patterns name. *)
Abbreviation newline := 10 (only parsing).
Abbreviation blank := 32 (only parsing).
Abbreviation comma := 44 (only parsing).
Abbreviation hyphen := 45 (only parsing).
Abbreviation point := 46 (only parsing).
Abbreviation slash := 47 (only parsing).
Abbreviation colon := 58 (only parsing).
Definition rupee : char := 8377.

Definition text_eqb (s t : text) : bool :=
  if list_eq_dec N.eq_dec s t then true else false.

(** [prefix in s]: [s.startswith(p)]. *)
Fixpoint starts_with (p s : text) : bool :=
  match p, s with
  | [], _ => true
  | a :: p1, b :: s1 => (a =? b) && starts_with p1 s1
  | _ :: _, [] => false
  end.

(** [p in s] on strings: substring containment. *)
Fixpoint contains (p s : text) : bool :=
  starts_with p s ||
  match s with
  | [] => false
  | _ :: s1 => contains p s1
  end.

(** The decimal digits of Unicode (category Nd, the characters [\d] matches
    and [int]/[float] read): runs of ten code points, listed by the code
    point of their zero (Unicode 14, as in CPython 3.11). *)
Definition nd_zeros : list N :=
  [ 48; 1632; 1776; 1984; 2406; 2534; 2662; 2790; 2918; 3046; 3174; 3302;
    3430; 3558; 3664; 3792; 3872; 4160; 4240; 6112; 6160; 6470; 6608; 6784;
    6800; 6992; 7088; 7232; 7248; 42528; 43216; 43264; 43472; 43504; 43600;
    44016; 65296; 66720; 68912; 69734; 69872; 69942; 70096; 70384; 70736;
    70864; 71248; 71360; 71472; 71904; 72016; 72784; 73040; 73120; 92768;
    92864; 93008; 120782; 120792; 120802; 120812; 120822; 123200; 123632;
    125264; 130032 ].

Fixpoint decimal_in (zs : list N) (c : char) : option N :=
  match zs with
  | [] => None
  | z :: zs1 =>
      if (z <=? c) && (c <? z + 10) then Some (c - z) else decimal_in zs1 c
  end.

(** [unicodedata.decimal(c)], [None] when [c] is not a decimal digit. *)
Definition decimal_value (c : char) : option N := decimal_in nd_zeros c.

Definition is_decimal (c : char) : bool :=
  match decimal_value c with Some _ => true | None => false end.

Definition is_ascii_digit (c : char) : bool := (48 <=? c) && (c <=? 57).

Definition all_decimal (w : text) : Prop := Forall (fun c => is_decimal c = true) w.

(** [c.isspace()], which is also the class [\s] of a [str] pattern. *)
Definition is_space (c : char) : bool :=
  ((9 <=? c) && (c <=? 13)) || ((28 <=? c) && (c <=? 32))
  || (c =? 133) || (c =? 160) || (c =? 5760)
  || ((8192 <=? c) && (c <=? 8202))
  || (c =? 8232) || (c =? 8233) || (c =? 8239) || (c =? 8287) || (c =? 12288).

Definition is_upper_ascii (c : char) : bool := (65 <=? c) && (c <=? 90).

(** [str.lower()].  Every keyword and literal of this program is made of
    Basic Latin characters, so only the code points whose lower-case form
    holds a Basic Latin letter matter: [A]-[Z], U+0130 (lowered to [i]
    followed by U+0307) and U+212A (the Kelvin sign, lowered to [k]).  The
    other cased letters lower to letters outside Basic Latin and are left as
    they are here: that changes no containment test against an ASCII
    keyword. *)
Definition lower_char (c : char) : text :=
  if is_upper_ascii c then [c + 32]
  else if c =? 304 then [105; 775]
  else if c =? 8490 then [107]
  else [c].

Definition lower (s : text) : text := flat_map lower_char s.

(** The folding under which [re.IGNORECASE] compares a character with a
    Basic Latin character of the pattern: besides the upper-case letters,
    U+0130 and U+0131 match [i], U+017F matches [s] and U+212A matches
    [k]. *)
Definition fold_case (c : char) : char :=
  if is_upper_ascii c then c + 32
  else if (c =? 304) || (c =? 305) then 105
  else if c =? 383 then 115
  else if c =? 8490 then 107
  else c.

(** [s.strip()]. *)
Fixpoint lstrip (s : text) : text :=
  match s with
  | c :: s1 => if is_space c then lstrip s1 else s
  | [] => []
  end.

Definition rstrip (s : text) : text := rev (lstrip (rev s)).
Definition strip (s : text) : text := rstrip (lstrip s).

(** [s.split(sep)] for a one-character separator. *)
Fixpoint split_on (sep : char) (s : text) : list text :=
  match s with
  | [] => [[]]
  | c :: s1 =>
      if c =? sep then [] :: split_on sep s1
      else match split_on sep s1 with
           | l :: ls => (c :: l) :: ls
           | [] => [[c]]
           end
  end.

(** [sep.join(parts)]. *)
Fixpoint join (sep : text) (parts : list text) : text :=
  match parts with
  | [] => []
  | [p] => p
  | p :: ps => p ++ sep ++ join sep ps
  end.

(** [s.replace(c, '')] for a one-character [c]. *)
Definition remove_char (c : char) (s : text) : text :=
  filter (fun x => negb (x =? c)) s.

(** The digits of a string read in base ten, [None] if a character is not a
    decimal digit. *)
Fixpoint digits_value (acc : N) (s : text) : option N :=
  match s with
  | [] => Some acc
  | c :: s1 =>
      match decimal_value c with
      | Some d => digits_value (10 * acc + d) s1
      | None => None
      end
  end.

(** [int(s)] on the strings this program passes to it (digits only; an
    empty string raises [ValueError]).  Python 3.11 also refuses more than
    4300 digits. *)
Definition int_max_str_digits : nat := 4300.

Definition py_int (s : text) : option N :=
  match s with
  | [] => None
  | _ => if (List.length s <=? int_max_str_digits)%nat then digits_value 0 s else None
  end.

(** [float(s)] on unsigned decimal literals, the only arguments this program
    builds (digits with at most one point).  The value is kept as the exact
    rational the literal denotes; Python rounds it to the nearest double,
    which is monotone and sends only zero to [0.0], so truthiness and the
    choice made by [max] are those of the exact values. *)
Fixpoint split_point (s : text) : text * option text :=
  match s with
  | [] => ([], None)
  | c :: s1 =>
      if c =? point then ([], Some s1)
      else let '(i, f) := split_point s1 in (c :: i, f)
  end.

Fixpoint pow10 (n : nat) : positive :=
  match n with
  | O => 1%positive
  | S k => (10 * pow10 k)%positive
  end.

Definition py_float (s : text) : option Q :=
  let '(ip, fp) := split_point s in
  let fp := match fp with Some f => f | None => [] end in
  match ip ++ fp with
  | [] => None
  | _ =>
      match digits_value 0 ip, digits_value 0 fp with
      | Some i, Some f =>
          let den := pow10 (List.length fp) in
          Some (Qmake (Z.of_N (i * Npos den + f)) den)
      | _, _ => None
      end
  end.

End Py.

(** ** Regular expressions

    The fragment of Python's [re] this program uses, with the engine's
    backtracking order: alternatives left to right, greedy repetition. *)

Module Re.
Import Py.

Inductive cset_item :=
| CChar (c : char)
| CRange (lo hi : char)
| CDigit
| CSpace.

Inductive regex :=
| Empty
| Lit (c : char)
| Cls (cs : list cset_item)
| Cat (r1 r2 : regex)
| Or (r1 r2 : regex)
| Repeat (lo : nat) (hi : option nat) (r : regex)
| Group (i : nat) (r : regex)
| AtEnd.

Definition item_match (it : cset_item) (c : char) : bool :=
  match it with
  | CChar a => c =? a
  | CRange lo hi => (lo <=? c) && (c <=? hi)
  | CDigit => is_decimal c
  | CSpace => is_space c
  end.

(** [ic] is the flag [re.IGNORECASE].  The sets of the patterns compiled
    with it hold no upper-case letter. *)
Definition lit_match (ic : bool) (l c : char) : bool :=
  (c =? l) || (ic && (fold_case c =? fold_case l)).

Definition set_match (ic : bool) (cs : list cset_item) (c : char) : bool :=
  existsb (fun it => item_match it c) cs
  || (ic && existsb (fun it => item_match it (fold_case c)) cs).

(** [$]: at the end of the string, or before a newline that ends it. *)
Definition at_end (s : text) : bool :=
  match s with
  | [] => true
  | [c] => c =? newline
  | _ => false
  end.

(** The groups set so far, most recent first. *)
Definition caps := list (nat * text).

Fixpoint group_of (g : caps) (i : nat) : option text :=
  match g with
  | [] => None
  | (j, w) :: g1 => if (i =? j)%nat then Some w else group_of g1 i
  end.

Section Matcher.
Context {A : Type}.
Variable ic : bool.

Definition cont := text -> caps -> option A.

(** Greedy repetition of [mr]: at least [lo] and at most [n] more
    rounds; it takes a further round first and falls back to the
    continuation when that fails. *)
Fixpoint rep (mr : text -> caps -> cont -> option A) (lo n : nat)
         (s : text) (g : caps) (k : cont) {struct n} : option A :=
  match n with
  | O => match lo with O => k s g | S _ => None end
  | S n1 =>
      match lo with
      | S lo1 => mr s g (fun s1 g1 => rep mr lo1 n1 s1 g1 k)
      | O =>
          match mr s g (fun s1 g1 => rep mr O n1 s1 g1 k) with
          | Some x => Some x
          | None => k s g
          end
      end
  end.

(** [m r s g k]: match [r] at the head of [s], then hand the rest of the
    input and the groups to [k]; [None] when every way of matching [r]
    makes [k] fail. *)
Fixpoint m (r : regex) (s : text) (g : caps) (k : cont) {struct r} : option A :=
  match r with
  | Empty => k s g
  | Lit l =>
      match s with
      | c :: s1 => if lit_match ic l c then k s1 g else None
      | [] => None
      end
  | Cls cs =>
      match s with
      | c :: s1 => if set_match ic cs c then k s1 g else None
      | [] => None
      end
  | Cat r1 r2 => m r1 s g (fun s1 g1 => m r2 s1 g1 k)
  | Or r1 r2 =>
      match m r1 s g k with
      | Some x => Some x
      | None => m r2 s g k
      end
  | Repeat lo hi r1 =>
      rep (m r1) lo
          (match hi with Some h => h | None => lo + List.length s end)%nat
          s g k
  | Group i r1 =>
      m r1 s g
        (fun s1 g1 => k s1 ((i, firstn (List.length s - List.length s1) s) :: g1))
  | AtEnd => if at_end s then k s g else None
  end.
End Matcher.

(** A match object: [m.start()], [m.end()] and the groups. *)
Record match_obj := MkMatch {
  m_start : nat;
  m_end : nat;
  m_caps : caps
}.

(** [m.group(i)], [None] for a group that took no part in the match. *)
Definition group (mo : match_obj) (i : nat) : option text := group_of (m_caps mo) i.

Definition match_here (ic : bool) (r : regex) (s : text) : option (text * caps) :=
  m ic r s [] (fun s1 g => Some (s1, g)).

(** [re.search]: the match at the leftmost position that has one. *)
Fixpoint search_from (ic : bool) (r : regex) (off : nat) (s : text) : option match_obj :=
  match match_here ic r s with
  | Some (rest, g) =>
      Some (MkMatch off (off + (List.length s - List.length rest)) g)
  | None =>
      match s with
      | [] => None
      | _ :: s1 => search_from ic r (S off) s1
      end
  end.

Definition search (ic : bool) (r : regex) (s : text) : option match_obj :=
  search_from ic r 0 s.

(** The successive non-overlapping matches, left to right, as [re.findall]
    and [re.sub] scan them; [off] is the position of [s] in the subject.
    After a match the scan resumes at its end (one character further when
    the match is empty). *)
Fixpoint scan (fuel : nat) (ic : bool) (r : regex) (off : nat) (s : text) : list match_obj :=
  match fuel with
  | O => []
  | S f =>
      match search_from ic r off s with
      | None => []
      | Some mo =>
          let next := (if (m_end mo =? m_start mo)%nat then S (m_end mo) else m_end mo) in
          mo :: scan f ic r next (skipn (next - off) s)
      end
  end.

Definition finditer (ic : bool) (r : regex) (s : text) : list match_obj :=
  scan (S (List.length s)) ic r 0 s.

(** [m.group(i)] as text, empty for a group that took no part in the
    match (the groups this program reads always take part). *)
Definition group_text (mo : match_obj) (i : nat) : text :=
  match group mo i with Some w => w | None => [] end.

(** [re.findall] for a pattern with one group: the texts of group 1. *)
Definition findall1 (ic : bool) (r : regex) (s : text) : list text :=
  map (fun mo => group_text mo 1) (finditer ic r s).

(** [re.sub(r, '', s)]: [s] without the matches of [r]. *)
Fixpoint cut (ms : list match_obj) (off : nat) (s : text) : text :=
  match ms with
  | [] => s
  | mo :: ms1 =>
      firstn (m_start mo - off) s
      ++ cut ms1 (m_end mo) (skipn (m_end mo - off) s)
  end.

Definition sub_empty (ic : bool) (r : regex) (s : text) : text :=
  cut (finditer ic r s) 0 s.

(** [len(m.groups())]: the number of groups of the pattern. *)
Fixpoint ngroups (r : regex) : nat :=
  match r with
  | Cat r1 r2 | Or r1 r2 => ngroups r1 + ngroups r2
  | Repeat _ _ r1 => ngroups r1
  | Group _ r1 => S (ngroups r1)
  | _ => O
  end.

(** The words a pattern can match, whatever the order the engine tries
    them in. *)
Fixpoint lang (ic : bool) (r : regex) (w : text) {struct r} : Prop :=
  match r with
  | Empty | AtEnd => w = []
  | Lit l => exists c, w = [c] /\ lit_match ic l c = true
  | Cls cs => exists c, w = [c] /\ set_match ic cs c = true
  | Cat r1 r2 => exists w1 w2, w = w1 ++ w2 /\ lang ic r1 w1 /\ lang ic r2 w2
  | Or r1 r2 => lang ic r1 w \/ lang ic r2 w
  | Repeat lo hi r1 =>
      exists ws, w = List.concat ws /\ Forall (lang ic r1) ws
                 /\ (lo <= List.length ws)%nat
                 /\ match hi with
                    | Some h => (List.length ws <= h)%nat
                    | None => True
                    end
  | Group _ r1 => lang ic r1 w
  end.

(** A matcher only succeeds by consuming a word of [P] and then succeeding
    in its continuation. *)
Definition sound_for {A : Type} (P : text -> Prop)
           (mr : text -> caps -> @cont A -> option A) : Prop :=
  forall s g k x, mr s g k = Some x ->
    exists w s1 g1, s = w ++ s1 /\ P w /\ k s1 g1 = Some x.

(** A continuation that cannot fail. *)
Definition total_cont {A : Type} (k : @cont A) : Prop :=
  forall s g, k s g <> None.

(** Patterns of the shape [... (t)]: group [i] closes the pattern. *)
Inductive ends_with (i : nat) (t : regex) : regex -> Prop :=
| ends_here : ends_with i t (Group i t)
| ends_cat p r : ends_with i t r -> ends_with i t (Cat p r).

(** Pattern syntax. *)
Definition digit : regex := Cls [CDigit].
Definition space : regex := Cls [CSpace].
Definition star (r : regex) : regex := Repeat 0 None r.
Definition plus (r : regex) : regex := Repeat 1 None r.
Definition opt (r : regex) : regex := Repeat 0 (Some 1%nat) r.
Definition times (lo hi : nat) (r : regex) : regex := Repeat lo (Some hi) r.

Fixpoint seq (rs : list regex) : regex :=
  match rs with
  | [] => Empty
  | [r] => r
  | r :: rs1 => Cat r (seq rs1)
  end.

Fixpoint alt (rs : list regex) : regex :=
  match rs with
  | [] => Empty
  | [r] => r
  | r :: rs1 => Or r (alt rs1)
  end.

(** A run of literal characters. *)
Definition word (s : string) : regex := seq (map Lit (utf8 s)).

End Re.

(** ** Dates

    [datetime.strptime] for the directives this program uses and
    [strftime], as CPython's [_strptime] and the C library do them. *)

Module Datetime.
Import Py Re.

Record date := MkDate { year : N; month : N; day : N }.

Definition is_leap (y : N) : bool :=
  ((y mod 4 =? 0) && negb (y mod 100 =? 0)) || (y mod 400 =? 0).

Definition days_in_month (y mo : N) : N :=
  if mo =? 2 then (if is_leap y then 29 else 28)
  else if (mo =? 4) || (mo =? 6) || (mo =? 9) || (mo =? 11) then 30
  else 31.

(** The constructor [datetime(y, mo, d)]; [None] is its [ValueError]. *)
Definition make_date (y mo d : N) : option date :=
  if (1 <=? y) && (y <=? 9999) && (1 <=? mo) && (mo <=? 12)
     && (1 <=? d) && (d <=? days_in_month y mo)
  then Some (MkDate y mo d) else None.

(** The regular expression of each directive; the groups are numbered
    1 for [%d], 2 for [%m], 3 for [%Y] and 4 for [%y]. *)
Definition rng (a b : ascii) : cset_item := CRange (chr a) (chr b).

Definition directive (a : ascii) : option regex :=
  match a with
  | "d"%char => (* 3[0-1]|[1-2]\d|0[1-9]|[1-9]| [1-9] *)
      Some (Group 1 (alt [ Cat (Lit (chr "3")) (Cls [rng "0" "1"]);
                           Cat (Cls [rng "1" "2"]) digit;
                           Cat (Lit (chr "0")) (Cls [rng "1" "9"]);
                           Cls [rng "1" "9"];
                           Cat (Lit (chr " ")) (Cls [rng "1" "9"]) ]))
  | "m"%char => (* 1[0-2]|0[1-9]|[1-9] *)
      Some (Group 2 (alt [ Cat (Lit (chr "1")) (Cls [rng "0" "2"]);
                           Cat (Lit (chr "0")) (Cls [rng "1" "9"]);
                           Cls [rng "1" "9"] ]))
  | "Y"%char => (* \d\d\d\d *)
      Some (Group 3 (seq [digit; digit; digit; digit]))
  | "y"%char => (* \d\d *)
      Some (Group 4 (seq [digit; digit]))
  | _ => None
  end.

(** The pattern of a format string: a directive after each [%], the other
    characters as themselves. *)
Fixpoint format_regex (fmt : string) : option regex :=
  match fmt with
  | EmptyString => Some Empty
  | String "%" (String d rest) =>
      match directive d, format_regex rest with
      | Some r, Some r1 => Some (Cat r r1)
      | _, _ => None
      end
  | String "%" EmptyString => None
  | String a rest =>
      match format_regex rest with
      | Some r1 => Some (Cat (Lit (chr a)) r1)
      | None => None
      end
  end.

Definition int_group (g : caps) (i : nat) : option N :=
  match group_of g i with
  | Some w => py_int w
  | None => None
  end.

(** [datetime.strptime(s, fmt)]: the whole of [s] must match; a two-digit
    year below 69 is in the 2000s, the others in the 1900s; a format without
    a year, month or day takes 1900, 1 and 1.  [None] is [ValueError]. *)
Definition strptime (s : text) (fmt : string) : option date :=
  match format_regex fmt with
  | None => None
  | Some r =>
      match match_here true r s with
      | Some ([], g) =>
          let y :=
            match int_group g 3, int_group g 4 with
            | Some y4, _ => y4
            | None, Some y2 => if y2 <=? 68 then y2 + 2000 else y2 + 1900
            | None, None => 1900
            end in
          let mo := match int_group g 2 with Some v => v | None => 1 end in
          let d := match int_group g 1 with Some v => v | None => 1 end in
          make_date y mo d
      | _ => None
      end
  end.

Definition show_N (n : N) : text := utf8 (NilZero.string_of_uint (N.to_uint n)).

Definition pad2 (n : N) : text :=
  if n <? 10 then chr "0" :: show_N n else show_N n.

(** [d.strftime("%Y-%m-%d")]; the C library of Linux prints [%Y] without
    padding (years below 1000 come out shorter than four digits). *)
Definition strftime_ymd (d : date) : text :=
  show_N (year d) ++ utf8 "-" ++ pad2 (month d) ++ utf8 "-" ++ pad2 (day d).

End Datetime.

(** ** Floating point

    The arithmetic of Python's [float] (IEEE 754 binary64, rounding to the
    nearest, ties to even) on rationals in the normal range, where neither
    overflow nor underflow occurs: the only range this program reaches with
    image dimensions. *)

Module Float.
Local Open Scope Q_scope.

(** The integer [e] with [2^e <= x < 2^(e+1)], for [x > 0]. *)
Definition ilog2 (x : Q) : Z :=
  let l := (Z.log2 (Qnum x) - Z.log2 (Zpos (Qden x)))%Z in
  if Qle_bool (2 ^ l) x then l else (l - 1)%Z.

Definition half_even (y : Q) : Z :=
  let f := Qfloor y in
  match Qcompare (y - inject_Z f) (1 # 2) with
  | Lt => f
  | Gt => (f + 1)%Z
  | Eq => if Z.even f then f else (f + 1)%Z
  end.

(** The double nearest to [x > 0]: 53 significant bits. *)
Definition fl_pos (x : Q) : Q :=
  let e := (ilog2 x - 52)%Z in
  inject_Z (half_even (x / 2 ^ e)) * 2 ^ e.

Definition fl (x : Q) : Q :=
  match Qcompare x 0 with
  | Eq => 0
  | Gt => fl_pos x
  | Lt => - fl_pos (- x)
  end.

Definition fmul (a b : Q) : Q := fl (a * b).
Definition fdiv (a b : Q) : Q := fl (a / b).

(** [int(x)]: truncation toward zero. *)
Definition trunc (x : Q) : Z :=
  if Qle_bool 0 x then Qfloor x else (- Qfloor (- x))%Z.

(** An integer as a float; exact below [2^53]. *)
Definition qz (z : Z) : Q := inject_Z z.

(** Half a unit in the last place, relative to the value. *)
Definition half_ulp : Q := 1 # 9007199254740992.

(** [round(x)]: to the nearest integer, ties to even. *)
Definition py_round (x : Q) : Z := half_even x.

End Float.

(** ** Values, dictionaries and exceptions *)

Module Value.
Import Py.

(** A line item: the dictionary [{'name', 'amount', 'quantity'}]. *)
Record item := MkItem { name : text; amount : Q; quantity : N }.

(** The Python values the pipeline puts in its result. *)
Inductive pyval :=
| VNone
| VBool (b : bool)
| VFloat (q : Q)
| VStr (s : text)
| VItems (l : list item).

(** A [dict] with string keys, in insertion order. *)
Definition dict := list (string * pyval).

Fixpoint get (d : dict) (k : string) : option pyval :=
  match d with
  | [] => None
  | (k1, v) :: d1 => if String.eqb k k1 then Some v else get d1 k
  end.

(** The two classes of exception [process_receipt] tells apart. *)
Inductive exn :=
| ValueError (msg : text)
| Exception (msg : text).

Definition str_exn (e : exn) : text :=
  match e with ValueError msg | Exception msg => msg end.

Inductive result (A : Type) :=
| Ok (a : A)
| Raise (e : exn).
Arguments Ok {A} a.
Arguments Raise {A} e.

Definition bind {A B : Type} (r : result A) (f : A -> result B) : result B :=
  match r with
  | Ok a => f a
  | Raise e => Raise e
  end.

End Value.

(** ** The receipt processor *)

Module ReceiptProcessor.
Import Py Re Datetime Float Value.

(** *** [extract_amount] *)

(** [\d{1,3}(?:,\d{3})*(?:\.\d{2})?] *)
Definition amount_token : regex :=
  seq [ times 1 3 digit;
        star (Cat (Lit comma) (times 3 3 digit));
        opt (Cat (Lit point) (times 2 2 digit)) ].

(** [[:\s]*₹?\s*(\d{1,3}(?:,\d{3})*(?:\.\d{2})?)] *)
Definition labelled_amount : regex :=
  seq [ star (Cls [CChar colon; CSpace]); opt (Lit rupee); star space;
        Group 1 amount_token ].

Definition specific_total : regex :=
  Cat (alt [ word "grand total"; word "grandtotal"; word "net amount";
             word "amount payable"; word "amount to pay";
             word "total amount"; word "bill total"; word "grand total" ])
      labelled_amount.

Definition bare_total : regex := Cat (word "total") labelled_amount.

Definition total_patterns : list regex := [ specific_total; bare_total ].

(** [₹?\s*(\d{1,3}(?:,\d{3})*(?:\.\d{2})?)] *)
Definition any_amount : regex :=
  seq [ opt (Lit rupee); star space; Group 1 amount_token ].

(** [float(a.replace(',', ''))] *)
Definition parse_amount (a : text) : option Q := py_float (remove_char comma a).

(** The loop over [total_patterns]: the first pattern found whose group
    converts is returned; a failed conversion goes on to the next
    pattern. *)
Fixpoint labelled_total (pats : list regex) (text : text) : option Q :=
  match pats with
  | [] => None
  | pat :: pats1 =>
      match search true pat text with
      | Some mo =>
          match parse_amount (group_text mo 1) with
          | Some a => Some a
          | None => labelled_total pats1 text
          end
      | None => labelled_total pats1 text
      end
  end.

Definition Qltb (a b : Q) : bool := negb (Qle_bool b a).

(** [max(l)]: the first of the largest elements. *)
Definition py_max (l : list Q) : option Q :=
  match l with
  | [] => None
  | a :: l1 => Some (fold_left (fun best x => if Qltb best x then x else best) l1 a)
  end.

(** The conversions that succeed, in order. *)
Fixpoint numeric_of (amounts : list text) : list Q :=
  match amounts with
  | [] => []
  | a :: rest =>
      match parse_amount a with
      | Some q => q :: numeric_of rest
      | None => numeric_of rest
      end
  end.

Definition extract_amount (text : text) : option Q :=
  match labelled_total total_patterns text with
  | Some a => Some a
  | None =>
      let amounts := findall1 false any_amount text in
      py_max (numeric_of amounts)
  end.

(** *** [extract_date] *)

Definition sep : regex := Cls [CChar hyphen; CChar slash].

Definition month_names : list string :=
  [ "Jan"; "Feb"; "Mar"; "Apr"; "May"; "Jun";
    "Jul"; "Aug"; "Sep"; "Oct"; "Nov"; "Dec" ]%string.

(** [(\d{1,2})[-/](\d{1,2})[-/](\d{2,4})] *)
Definition day_month_year : regex :=
  seq [ Group 1 (times 1 2 digit); sep; Group 2 (times 1 2 digit); sep;
        Group 3 (times 2 4 digit) ].

(** [(\d{1,2})\s(?:Jan|Feb|...|Dec)[a-z]*[\s,]*(\d{2,4})] *)
Definition day_name_year : regex :=
  seq [ Group 1 (times 1 2 digit); space; alt (map word month_names);
        star (Cls [CRange (chr "a") (chr "z")]); star (Cls [CSpace; CChar comma]);
        Group 2 (times 2 4 digit) ].

(** [(\d{4})[-/](\d{1,2})[-/](\d{1,2})] *)
Definition year_month_day : regex :=
  seq [ Group 1 (times 4 4 digit); sep; Group 2 (times 1 2 digit); sep;
        Group 3 (times 1 2 digit) ].

Definition date_patterns : list regex :=
  [ day_month_year; day_name_year; year_month_day ].

Definition slashed (a b c : text) : text := a ++ utf8 "/" ++ b ++ utf8 "/" ++ c.
Definition dashed (a b c : text) : text := a ++ utf8 "-" ++ b ++ utf8 "-" ++ c.

(** The body of the [try] for one match: [Some] is the date parsed, [None]
    the [ValueError] that makes the loop go on. *)
Definition parse_match (mo : match_obj) : option date :=
  let g1 := group_text mo 1 in
  let g2 := group_text mo 2 in
  let g3 := group_text mo 3 in
  if (List.length g3 =? 4)%nat then strptime (slashed g1 g2 g3) "%d/%m/%Y"
  else
    match strptime (dashed g1 g2 g3) "%Y-%m-%d" with
    | Some d => Some d
    | None => strptime (slashed g1 g2 g3) "%d/%m/%y"
    end.

(** The loop over [date_patterns].  A match of a pattern that does not have
    three groups returns nothing and the loop goes on. *)
Fixpoint first_date (pats : list regex) (text : text) : option Py.text :=
  match pats with
  | [] => None
  | pattern :: pats1 =>
      match search true pattern text with
      | Some mo =>
          if (ngroups pattern =? 3)%nat then
            match parse_match mo with
            | Some d => Some (strftime_ymd d)
            | None => first_date pats1 text
            end
          else first_date pats1 text
      | None => first_date pats1 text
      end
  end.

Definition extract_date (text : text) : option Py.text :=
  first_date date_patterns text.

(** *** [extract_merchant] *)

Definition admin_words : list string :=
  [ "bill"; "invoice"; "receipt"; "date"; "time"; "gst"; "tax" ]%string.

Definition has_letter (line : text) : bool :=
  match search false (Cls [CRange (chr "A") (chr "Z"); CRange (chr "a") (chr "z")]) line with
  | Some _ => true
  | None => false
  end.

Fixpoint first_merchant (lines : list text) : option text :=
  match lines with
  | [] => None
  | line :: rest =>
      match strip line with
      | [] => first_merchant rest
      | _ :: _ =>
          if existsb (fun w => contains (utf8 w) (lower line)) admin_words
          then first_merchant rest
          else if has_letter line then Some (strip line)
          else first_merchant rest
      end
  end.

Definition extract_merchant (text : text) : option Py.text :=
  first_merchant (firstn 5 (split_on newline text)).

(** *** [categorize_expense] *)

Record CategoryResult := MkCategory {
  category : string;
  confidence : string;
  reason : string
}.

(** One keyword loop of the cascade: the category it returns, the word its
    reason starts with, and its keywords in order. *)
Record rule := MkRule {
  rule_category : string;
  rule_label : string;
  rule_keywords : list string
}.

Definition accommodation_keywords : list string :=
  [ "hotel"; "resort"; "lodge"; "guest house"; "homestay"; "stay";
    "room rent"; "booking hotel"; "check-in"; "night"; "accommodation";
    "inn"; "motel"; "suite"; "reservation"; "hospitality"; "rooms";
    "nights"; "check in"; "check out"; "hotel bill"; "room service";
    "room charge"; "room rate"; "lodging"; "airbnb" ]%string.

Definition electricity_keywords : list string :=
  [ "electricity bill"; "power bill"; "electric bill"; "energy bill";
    "electricity"; "power"; "electric"; "energy charge"; "power supply";
    "bses"; "tata power"; "adani power"; "reliance energy";
    "torrent power"; "electricity board"; "power board"; "discom";
    "electric company"; "power distribution"; "electrical services";
    "power utilities"; "energy services"; "kwh"; "unit consumption";
    "meter reading"; "transmission charge"; "distribution charge"; "grid";
    "transformer" ]%string.

Definition food_keywords : list string :=
  [ "restaurant"; "cafe"; "coffee"; "tea"; "pizza"; "burger"; "biryani";
    "meal"; "dining"; "eat"; "kitchen"; "food"; "swiggy"; "zomato";
    "dominos"; "mcdonalds"; "kfc"; "subway"; "starbucks"; "lunch";
    "dinner"; "breakfast"; "snack"; "bakery"; "diner"; "bistro"; "eatery";
    "canteen"; "dhaba"; "tiffin"; "sweet"; "juice"; "lassi"; "chai";
    "beverage"; "ice cream"; "dessert" ]%string.

Definition transport_keywords : list string :=
  [ "cab"; "taxi"; "auto"; "bus"; "train"; "metro"; "flight"; "airline";
    "air ticket"; "uber"; "ola"; "journey"; "railway"; "airport"; "petrol";
    "diesel"; "fuel"; "parking"; "toll"; "transport"; "ride"; "trip";
    "indigo"; "spicejet"; "air india"; "railways"; "irctc"; "station";
    "platform" ]%string.

Definition shopping_keywords : list string :=
  [ "fashion"; "clothing"; "shirt"; "dress"; "shoes"; "bag"; "accessories";
    "myntra"; "flipkart"; "amazon"; "reliance trends"; "lifestyle";
    "westside"; "mall"; "shop"; "store"; "retail"; "apparel"; "garment";
    "jewelry"; "watch"; "sunglasses"; "belt"; "wallet"; "footwear";
    "handbag" ]%string.

Definition healthcare_keywords : list string :=
  [ "medical"; "hospital"; "pharmacy"; "medicine"; "doctor"; "clinic";
    "health"; "apollo"; "fortis"; "max"; "medanta"; "cipla"; "chemist";
    "prescription"; "dental"; "dentist"; "lab"; "pathology"; "diagnostic";
    "scan"; "x-ray"; "vaccination"; "injection"; "surgery"; "treatment";
    "consultation"; "therapy" ]%string.

Definition grocery_keywords : list string :=
  [ "grocery"; "supermarket"; "mart"; "vegetables"; "fruits"; "milk";
    "bread"; "big bazaar"; "dmart"; "reliance fresh"; "spencer"; "more";
    "star bazaar"; "household"; "cleaning"; "detergent"; "soap"; "shampoo";
    "toothpaste"; "tissue"; "toilet paper"; "kitchen"; "utensils";
    "provisions" ]%string.

Definition mobile_keywords : list string :=
  [ "mobile"; "internet"; "wifi"; "broadband"; "data"; "airtel"; "jio";
    "vodafone"; "bsnl"; "recharge"; "telecom"; "sim"; "phone"; "prepaid";
    "postpaid"; "network"; "cellular"; "smartphone" ]%string.

Definition entertainment_keywords : list string :=
  [ "movie"; "cinema"; "theatre"; "entertainment"; "games"; "sports";
    "pvr"; "inox"; "book my show"; "netflix"; "amazon prime"; "hotstar";
    "spotify"; "youtube"; "gaming"; "concert"; "show"; "event";
    "movie ticket" ]%string.

Definition office_keywords : list string :=
  [ "stationery"; "office supplies"; "pen"; "paper"; "printer"; "toner";
    "office"; "workspace"; "co-working" ]%string.

Definition utility_keywords : list string :=
  [ "water bill"; "gas bill"; "water supply bill"; "municipal water";
    "water corporation"; "gas corporation"; "municipal corporation bill";
    "water board"; "gas company"; "lpg bill"; "pipeline gas";
    "sewage bill"; "drainage bill"; "sanitation bill"; "waste management";
    "municipal tax"; "property tax bill"; "water tank cleaning" ]%string.

Definition travel_keywords : list string :=
  [ "vacation"; "holiday"; "tour"; "package"; "itinerary"; "sightseeing";
    "visa"; "passport"; "travel agent"; "travel insurance"; "makemytrip";
    "cleartrip"; "goibibo"; "yatra"; "booking.com"; "agoda"; "expedia";
    "travel booking" ]%string.

Definition education_keywords : list string :=
  [ "education"; "course"; "school"; "college"; "university"; "tuition";
    "coaching"; "training"; "workshop"; "seminar"; "certification"; "exam";
    "admission"; "byju"; "unacademy"; "vedantu"; "coursera"; "udemy";
    "educational"; "learning"; "study" ]%string.

Definition home_keywords : list string :=
  [ "home"; "furniture"; "appliance"; "repair"; "maintenance";
    "renovation"; "interior"; "decoration"; "painting"; "plumbing";
    "electrical work"; "carpenter"; "maid"; "cook"; "babysitter"; "family";
    "child care"; "ikea"; "pepperfry"; "urban ladder"; "godrej" ]%string.

Definition personal_care_keywords : list string :=
  [ "salon"; "spa"; "beauty"; "haircut"; "massage"; "facial"; "manicure";
    "pedicure"; "cosmetics"; "makeup"; "skincare"; "grooming"; "barber";
    "parlour"; "wellness"; "fitness"; "gym"; "yoga"; "beauty salon";
    "hair salon"; "nail salon" ]%string.

Definition gifts_keywords : list string :=
  [ "gift"; "festival"; "celebration"; "birthday"; "anniversary";
    "wedding"; "diwali"; "christmas"; "eid"; "holi"; "rakhi"; "valentine";
    "party"; "decoration"; "flowers"; "greeting card"; "present";
    "occasion"; "gift shop"; "flower shop"; "birthday gift";
    "anniversary gift" ]%string.

Definition emi_keywords : list string :=
  [ "emi"; "loan"; "interest"; "installment"; "credit"; "debt";
    "repayment"; "mortgage"; "finance"; "bank"; "hdfc"; "icici"; "sbi";
    "axis"; "kotak"; "bajaj finserv"; "lending"; "borrowing" ]%string.

Definition investment_keywords : list string :=
  [ "investment"; "sip"; "mutual fund"; "stock"; "share"; "trading";
    "portfolio"; "dividend"; "returns"; "zerodha"; "groww"; "upstox";
    "paytm money"; "kuvera"; "etmoney"; "systematic investment"; "equity";
    "bond"; "fd"; "rd"; "ppf"; "nps" ]%string.

Definition rules : list rule :=
  [ MkRule "Accommodation" "accommodation" accommodation_keywords;
    MkRule "Bills & Utilities" "electricity" electricity_keywords;
    MkRule "Food & Dining" "food" food_keywords;
    MkRule "Transportation" "transport" transport_keywords;
    MkRule "Shopping & Clothes" "shopping" shopping_keywords;
    MkRule "Healthcare" "healthcare" healthcare_keywords;
    MkRule "Groceries & Household" "grocery" grocery_keywords;
    MkRule "Mobile & Internet" "mobile/internet" mobile_keywords;
    MkRule "Entertainment" "entertainment" entertainment_keywords;
    MkRule "Office Expense" "office" office_keywords;
    MkRule "Bills & Utilities" "utility" utility_keywords;
    MkRule "Travel & Vacation" "travel" travel_keywords;
    MkRule "Education & Courses" "education" education_keywords;
    MkRule "Home & Family" "home/family" home_keywords;
    MkRule "Personal Care" "personal care" personal_care_keywords;
    MkRule "Gifts & Festivals" "gifts/festival" gifts_keywords;
    MkRule "EMI & Loans" "EMI/loan" emi_keywords;
    MkRule "Investments & SIP" "investment" investment_keywords ].

(** [keyword in text_lower or keyword in merchant_lower] *)
Definition found (keyword : string) (text_lower merchant_lower : text) : bool :=
  contains (utf8 keyword) text_lower || contains (utf8 keyword) merchant_lower.

(** The first keyword of the list that is found: where the [for] loop
    returns. *)
Fixpoint first_keyword (keywords : list string) (text_lower merchant_lower : text)
  : option string :=
  match keywords with
  | [] => None
  | keyword :: rest =>
      if found keyword text_lower merchant_lower then Some keyword
      else first_keyword rest text_lower merchant_lower
  end.

Definition place (keyword : string) (merchant_lower : text) : string :=
  if contains (utf8 keyword) merchant_lower then "merchant name"%string
  else "receipt text"%string.

Definition rule_reason (r : rule) (keyword : string) (merchant_lower : text) : string :=
  ("Found " ++ rule_label r ++ " keyword '" ++ keyword ++ "' in "
   ++ place keyword merchant_lower)%string.

Fixpoint first_rule (rs : list rule) (text_lower merchant_lower : text)
  : option CategoryResult :=
  match rs with
  | [] => None
  | r :: rs1 =>
      match first_keyword (rule_keywords r) text_lower merchant_lower with
      | Some keyword =>
          Some (MkCategory (rule_category r) "high"
                           (rule_reason r keyword merchant_lower))
      | None => first_rule rs1 text_lower merchant_lower
      end
  end.

Definition fallback_category : CategoryResult :=
  MkCategory "Other" "low"
    "Could not determine category from available information - no matching keywords found".

(** [merchant] is [None] or a string: the code lowers [merchant or ""]. *)
Definition categorize_expense (text : text) (merchant : option Py.text) : CategoryResult :=
  let text_lower := lower text in
  let merchant_lower := lower (match merchant with Some mr => mr | None => [] end) in
  match first_rule rules text_lower merchant_lower with
  | Some r => r
  | None => fallback_category
  end.

(** *** [extract_line_items] *)

(** [(total|subtotal|gst|tax|discount|amount payable|grand total|net amount)] *)
Definition summary_line : regex :=
  Group 1 (alt (map word [ "total"; "subtotal"; "gst"; "tax"; "discount";
                           "amount payable"; "grand total"; "net amount" ]%string)).

(** [[\d,]+(?:\.\d{2})] *)
Definition money : regex :=
  Cat (plus (Cls [CDigit; CChar comma])) (Cat (Lit point) (times 2 2 digit)).

(** [([\d,]+(?:\.\d{2}))\s*$] and [₹\s*([\d,]+(?:\.\d{2}))] *)
Definition trailing_amount : regex := seq [ Group 1 money; star space; AtEnd ].
Definition rupee_amount : regex := seq [ Lit rupee; star space; Group 1 money ].

(** [(?:(\d+)\s*[xX]|[xX]\s*(\d+))] *)
Definition x_mark : regex := Cls [CChar (chr "x"); CChar (chr "X")].
Definition qty_marker : regex :=
  Or (seq [ Group 1 (plus digit); star space; x_mark ])
     (seq [ x_mark; star space; Group 2 (plus digit) ]).

(** The body of the loop for one line: the item appended, if any. *)
Definition line_item (line : text) : option item :=
  match search true summary_line line with
  | Some _ => None
  | None =>
      let found_amount :=
        match search false trailing_amount line with
        | Some mo => Some mo
        | None => search false rupee_amount line
        end in
      match found_amount with
      | None => None
      | Some mo =>
          match parse_amount (group_text mo 1) with
          | None => None
          | Some amount =>
              let name_part := strip (firstn (m_start mo) line) in
              let '(qty, name_part) :=
                match search false qty_marker name_part with
                | Some qmatch =>
                    let q := match group qmatch 1 with
                             | Some (c :: w) => c :: w
                             | _ => group_text qmatch 2
                             end in
                    (match py_int q with Some n => n | None => 1 end,
                     strip (sub_empty false qty_marker name_part))
                | None => (1, name_part)
                end in
              match name_part with
              | [] => None
              | _ :: _ => Some (MkItem name_part amount qty)
              end
          end
      end
  end.

Fixpoint items_of (lines : list text) : list item :=
  match lines with
  | [] => []
  | line :: rest =>
      match line_item line with
      | Some it => it :: items_of rest
      | None => items_of rest
      end
  end.

Definition extract_line_items (text : text) : list item :=
  items_of (split_on newline text).

(** *** [generate_description] *)

Definition generate_description (merchant : text) (items : list item) (category : string)
  : text :=
  match merchant, items with
  | _ :: _, [it] => name it ++ utf8 " from " ++ merchant
  | _ :: _, _ :: _ =>
      if (List.length items <=? 3)%nat
      then join (utf8 ", ") (map name items) ++ utf8 " from " ++ merchant
      else utf8 "Multiple items from " ++ merchant
  | _ :: _, [] => utf8 "Purchase from " ++ merchant
  | [], [it] => name it
  | [], _ :: _ => utf8 "Multiple items - " ++ lower (utf8 category)
  | [], [] => utf8 "Expense - " ++ lower (utf8 category)
  end.

(** *** [validate_image] and [preprocess_image]

    What the imaging libraries report about the uploaded bytes: their
    length, the format Pillow reads (or the exception it raises) and the
    shape [(h, w)] of the array OpenCV decodes ([None] when it decodes
    nothing). *)
Record image_file := MkImage {
  nbytes : N;
  pil_format : result (option text);
  cv_shape : option (Z * Z)
}.

Definition supported_formats : list string :=
  [ "jpeg"; "jpg"; "png"; "bmp"; "tiff" ]%string.

Definition show_format (f : option text) : text :=
  match f with Some w => w | None => utf8 "None" end.

Definition validate_image (image : image_file) : result unit :=
  if nbytes image =? 0 then Raise (ValueError (utf8 "Empty image data"))
  else if 10 * 1024 * 1024 <? nbytes image
  then Raise (ValueError (utf8 "Image file too large (max 10MB)"))
  else
    let opened :=
      match pil_format image with
      | Raise e => Raise e
      | Ok fmt =>
          let format := match fmt with
                        | Some (c :: w) => Some (lower (c :: w))
                        | _ => None
                        end in
          if match format with
             | Some f => existsb (fun s => text_eqb f (utf8 s)) supported_formats
             | None => false
             end
          then Ok tt
          else Raise (ValueError (utf8 "Unsupported image format: " ++ show_format format))
      end in
    match opened with
    | Ok u => Ok u
    | Raise e => Raise (ValueError (utf8 "Invalid image file: " ++ str_exn e))
    end.

(** The image handed to the OCR engine, as far as this model follows it:
    its size and the two parameters of the adaptive threshold.  The colour
    conversion, equalisation, smoothing and closing keep the size. *)
Record processed := MkProcessed {
  out_height : Z;
  out_width : Z;
  block_size : Z;
  offset : Z
}.

(** [cv2.resize(img, (width, height))]: the result has the size asked for;
    OpenCV refuses an empty size. *)
Definition cv2_resize (width height : Z) : result (Z * Z) :=
  if ((width <=? 0) || (height <=? 0))%Z
  then Raise (Exception (utf8 "OpenCV: (-215:Assertion failed) in function 'resize'"))
  else Ok (height, width).

(** The block size as the specification words it,
    [max(3, round(min(height, width) * 0.02)) | 1], kept for comparison
    with the one [preprocess_image] computes. *)
Definition claimed_block_size (height width : Z) : Z :=
  Z.lor (Z.max 3 (py_round (fmul (qz (Z.min height width)) (fl (2 # 100))))) 1.

Definition preprocess_image (image : image_file) : result processed :=
  match validate_image image with
  | Raise e => Raise e
  | Ok _ =>
      let body :=
        match cv_shape image with
        | None => Raise (ValueError (utf8 "Unable to decode image bytes"))
        | Some (h, w) =>
            if ((h <? 100) || (w <? 100))%Z
            then Raise (ValueError (utf8 "Image too small (minimum 100x100 pixels)"))
            else
              let max_dimension := Z.max h w in
              let resized :=
                if (max_dimension <? 1000)%Z then
                  let scale := fdiv 1200 (qz max_dimension) in
                  cv2_resize (trunc (fmul (qz w) scale)) (trunc (fmul (qz h) scale))
                else if (4000 <? max_dimension)%Z then
                  let scale := fdiv 4000 (qz max_dimension) in
                  cv2_resize (trunc (fmul (qz w) scale)) (trunc (fmul (qz h) scale))
                else Ok (h, w) in
              match resized with
              | Raise e => Raise e
              | Ok (h1, w1) =>
                  let block_size :=
                    Z.max 3 (Z.lor (trunc (fmul (qz (Z.min h w)) (fl (2 # 100)))) 1) in
                  Ok (MkProcessed h1 w1 block_size 15)
              end
        end in
      match body with
      | Ok img => Ok img
      | Raise e => Raise (ValueError (utf8 "Image preprocessing failed: " ++ str_exn e))
      end
  end.

(** *** [extract_text]

    [ocr] is what the loop over the page-segmentation modes leaves in
    [best_text] for the preprocessed image (empty when no pass read
    anything), or the exception the OCR engine raised. *)
Definition extract_text (ocr : result text) : result text :=
  let body :=
    match ocr with
    | Raise e => Raise e
    | Ok [] => Raise (Exception (utf8 "No readable text found in image"))
    | Ok best_text => Ok best_text
    end in
  match body with
  | Ok t => Ok t
  | Raise e => Raise (Exception (utf8 "Text extraction failed: " ++ str_exn e))
  end.

(** *** [process_receipt] *)

Definition is_zero (a : Q) : bool := (Qnum a =? 0)%Z.

(** [not amount]: [None] and [0.0] are false values. *)
Definition falsy_amount (amount : option Q) : bool :=
  match amount with
  | None => true
  | Some a => is_zero a
  end.

(** [date or today] *)
Definition or_else (date : option text) (today : text) : text :=
  match date with
  | Some (c :: w) => c :: w
  | _ => today
  end.

Definition opt_str (s : option text) : pyval :=
  match s with Some w => VStr w | None => VNone end.

Definition opt_float (a : option Q) : pyval :=
  match a with Some q => VFloat q | None => VNone end.

Definition failure (error : text) (error_type : string) : dict :=
  [ ("success", VBool false); ("error", VStr error);
    ("error_type", VStr (utf8 error_type)) ]%string.

(** [text[:500] + "..." if len(text) > 500 else text] *)
Definition clipped (text : text) : Py.text :=
  if (500 <? List.length text)%nat then firstn 500 text ++ utf8 "..." else text.

(** The dictionary returned when no amount was found. *)
Definition missing_amount (text : text) : dict :=
  [ ("success", VBool false);
    ("error", VStr (utf8 "Could not find a valid amount in the receipt. Please ensure the receipt image is clear and contains readable text."));
    ("error_type", VStr (utf8 "validation"));
    ("raw_text", VStr (clipped text)) ]%string.

(** The [try] block: the dictionary it returns or the exception it
    raises.  [today] is [datetime.now().strftime("%Y-%m-%d")]. *)
Definition process_body (image : image_file) (ocr : result text) (today : text)
  : result dict :=
  bind (preprocess_image image) (fun processed_image =>
  bind (extract_text ocr) (fun text =>
    match text with
    | [] => Raise (ValueError (utf8 "No text could be extracted from the image"))
    | _ :: _ =>
        let amount := extract_amount text in
        let date := extract_date text in
        let merchant := extract_merchant text in
        let items := extract_line_items text in
        let merchant_or_empty := match merchant with Some mr => mr | None => [] end in
        let category_result := categorize_expense text (Some merchant_or_empty) in
        let category := category category_result in
        let description := generate_description merchant_or_empty items category in
        if falsy_amount amount then Ok (missing_amount text)
        else
          Ok [ ("amount", opt_float amount);
               ("date", VStr (or_else date today));
               ("merchant", opt_str merchant);
               ("category", VStr (utf8 category));
               ("category_confidence", VStr (utf8 (confidence category_result)));
               ("category_reason", VStr (utf8 (reason category_result)));
               ("description", VStr description);
               ("items", VItems items);
               ("raw_text", VStr text);
               ("needs_confirmation",
                VBool (String.eqb (confidence category_result) "low"));
               ("success", VBool true) ]%string
    end)).

Definition process_receipt (image : image_file) (ocr : result text) (today : text) : dict :=
  match process_body image ocr today with
  | Ok d => d
  | Raise (ValueError msg) => failure msg "validation"
  | Raise (Exception _) =>
      failure (utf8 "Failed to process receipt. Please ensure the image is clear and contains readable text.")
              "processing"
  end.

End ReceiptProcessor.

(** ** The OCR passes of [extract_text] *)

Module Tesseract.
Import Py Float Value ReceiptProcessor.

(** [str.splitlines()]: the line boundaries are [\n], [\r], [\r\n], [\v],
    [\f], U+001C to U+001E, U+0085, U+2028 and U+2029; a boundary at the
    end opens no further line.  [cur] is the line being read, its last
    character first, and [after_cr] tells that the previous character was a
    [\r], which a [\n] then completes. *)
Definition is_linebreak (c : char) : bool :=
  ((10 <=? c) && (c <=? 13)) || ((28 <=? c) && (c <=? 30))
  || (c =? 133) || (c =? 8232) || (c =? 8233).

Fixpoint splitlines_from (cur : text) (after_cr : bool) (s : text) : list text :=
  match s with
  | [] => match cur with [] => [] | _ => [rev cur] end
  | c :: s1 =>
      if after_cr && (c =? 10) then splitlines_from cur false s1
      else if is_linebreak c then rev cur :: splitlines_from [] (c =? 13) s1
      else splitlines_from (c :: cur) false s1
  end.

Definition splitlines (s : text) : list text := splitlines_from [] false s.

(** ['\n'.join([line.strip() for line in text.splitlines() if line.strip()])] *)
Definition nonblank (line : text) : bool :=
  match strip line with [] => false | _ => true end.

Definition clean_lines (text : text) : list Py.text :=
  map strip (filter nonblank (splitlines text)).

Definition clean (text : text) : Py.text := join [newline] (clean_lines text).

(** An element of [data['conf']]: the string ['-1'] of a box without a
    word, or a value [float] reads as [q]. *)
Inductive conf :=
| NoWord
| Conf (q : Q).

(** [[float(x) for x in data['conf'] if x != '-1']] *)
Definition confidences (data : list conf) : list Q :=
  flat_map (fun x => match x with NoWord => [] | Conf q => [q] end) data.

(** [sum(l)] of floats, added from left to right. *)
Definition float_sum (l : list Q) : Q :=
  fold_left (fun acc c => fl (acc + c)%Q) l 0%Q.

Definition average (l : list Q) : Q :=
  fdiv (float_sum l) (qz (Z.of_nat (List.length l))).

(** What the engine answers for a page-segmentation mode: the column
    [conf] of [image_to_data] and the text of [image_to_string], or the
    exception raised. *)
Record engine := MkEngine {
  image_to_data : N -> result (list conf);
  image_to_string : N -> result text
}.

Definition psm_modes : list N := [6; 3; 4].

(** The loop over the modes, from the values [best_text] and
    [max_confidence] have when it is entered. *)
Fixpoint psm_loop (e : engine) (modes : list N) (best_text : text) (max_confidence : Q)
  : result text :=
  match modes with
  | [] => Ok best_text
  | psm :: modes1 =>
      bind (image_to_data e psm) (fun data =>
        match confidences data with
        | [] => psm_loop e modes1 best_text max_confidence
        | c :: cs =>
            let avg_confidence := average (c :: cs) in
            if Qltb max_confidence avg_confidence then
              bind (image_to_string e psm) (fun text =>
                match clean text with
                | [] => psm_loop e modes1 best_text max_confidence
                | text1 => psm_loop e modes1 text1 avg_confidence
                end)
            else psm_loop e modes1 best_text max_confidence
        end)
  end.

(** [extract_text] with its loop: the text of the pass it keeps. *)
Definition read_text (e : engine) : result text :=
  extract_text (psm_loop e psm_modes [] 0%Q).

End Tesseract.

(** ** The expense endpoints of [backend/server.py]

    The routes that store and return expenses, with the collection
    [db.expenses] as explicit state. *)

Module Server.
Import Py Float Value ReceiptProcessor Tesseract.

(** *** Dictionaries *)

(** [k in d] *)
Definition has_key (d : dict) (k : string) : bool :=
  match get d k with Some _ => true | None => false end.

(** [d.get(k, default)] *)
Definition get_or (d : dict) (k : string) (default : pyval) : pyval :=
  match get d k with Some v => v | None => default end.

(** [d.pop(k, None)], for what it leaves in [d]. *)
Fixpoint pop (d : dict) (k : string) : dict :=
  match d with
  | [] => []
  | (k1, v) :: d1 => if String.eqb k k1 then pop d1 k else (k1, v) :: pop d1 k
  end.

(** [d[k] = v]: a key that is present keeps its place, a new one goes to
    the end. *)
Fixpoint set_item (d : dict) (k : string) (v : pyval) : dict :=
  match d with
  | [] => [(k, v)]
  | (k1, v1) :: d1 =>
      if String.eqb k k1 then (k1, v) :: d1 else (k1, v1) :: set_item d1 k v
  end.

(** [bool(v)] *)
Definition truthy (v : pyval) : bool :=
  match v with
  | VNone => false
  | VBool b => b
  | VFloat q => negb (is_zero q)
  | VStr s => match s with [] => false | _ => true end
  | VItems l => match l with [] => false | _ => true end
  end.

(** *** The helpers for MongoDB *)

Definition parse_from_mongo (obj : dict) : dict := pop obj "_id".

(** [uuid4] is the value [str(uuid.uuid4())] has when it is called. *)
Definition prepare_for_mongo (obj : dict) (uuid4 : text) : dict :=
  if has_key obj "id" then obj else set_item obj "id" (VStr uuid4).

(** *** The collection

    [db.expenses]: its documents in insertion order, and whether the
    server answers; every operation raises when it does not.  An
    [ObjectId] is kept as the string of its digits. *)
Record database := MkDatabase {
  expenses : list dict;
  reachable : bool
}.

Definition unreachable {A : Type} : result A :=
  Raise (Exception (utf8 "ServerSelectionTimeoutError")).

(** [insert_one(doc)]: the document is stored with an [_id], a fresh
    [object_id] when it has none. *)
Definition insert_one (db : database) (doc : dict) (object_id : text) : result database :=
  if reachable db then
    Ok (MkDatabase
          (expenses db
           ++ [if has_key doc "_id" then doc else ("_id", VStr object_id) :: doc]%string)
          true)
  else unreachable.

(** A query [{k1: s1, k2: s2, ...}] on string fields. *)
Definition field_is (doc : dict) (k : string) (s : text) : bool :=
  match get doc k with
  | Some (VStr w) => text_eqb w s
  | _ => false
  end.

Definition matches (query : list (string * text)) (doc : dict) : bool :=
  forallb (fun kv => field_is doc (fst kv) (snd kv)) query.

Definition find (db : database) (query : list (string * text)) : result (list dict) :=
  if reachable db then Ok (filter (matches query) (expenses db)) else unreachable.

Definition find_one (db : database) (query : list (string * text)) : result (option dict) :=
  if reachable db then Ok (List.find (matches query) (expenses db)) else unreachable.

Fixpoint remove_first (query : list (string * text)) (docs : list dict) : list dict * N :=
  match docs with
  | [] => ([], 0)
  | doc :: docs1 =>
      if matches query doc then (docs1, 1)
      else let '(rest, n) := remove_first query docs1 in (doc :: rest, n)
  end.

(** [delete_one(query)]: the collection left and [deleted_count]. *)
Definition delete_one (db : database) (query : list (string * text))
  : result (database * N) :=
  if reachable db then
    let '(rest, n) := remove_first query (expenses db) in
    Ok (MkDatabase rest true, n)
  else unreachable.

(** *** Responses *)

Inductive response (A : Type) :=
| HTTPException (status_code : N) (detail : text)
| Return (body : A).
Arguments HTTPException {A} status_code detail.
Arguments Return {A} body.

(** A value of the body of [upload_receipt]: a Python value or the nested
    dictionary [extracted_data]. *)
Inductive field :=
| FVal (v : pyval)
| FDict (d : dict).

Definition json := list (string * field).

Fixpoint field_of (body : json) (k : string) : option field :=
  match body with
  | [] => None
  | (k1, v) :: rest => if String.eqb k k1 then Some v else field_of rest k
  end.

(** *** [create_expense], [get_expenses], [delete_expense]

    [expense] is [expense.model_dump()], [current_user] the [id] of the
    authenticated user. *)
Definition create_expense (db : database) (expense : dict) (current_user : text)
           (uuid4 : nat -> text) (object_id : text)
  : response dict * database :=
  let expense_dict := set_item expense "user_id" (VStr current_user) in
  let expense_dict := set_item expense_dict "id" (VStr (uuid4 0%nat)) in
  match insert_one db (prepare_for_mongo expense_dict (uuid4 1%nat)) object_id with
  | Ok db1 => (Return expense_dict, db1)
  | Raise _ => (HTTPException 500 (utf8 "Failed to create expense"), db)
  end.

Definition get_expenses (db : database) (current_user : text) : response (list dict) :=
  match find db [("user_id", current_user)]%string with
  | Ok docs => Return (map parse_from_mongo docs)
  | Raise _ => HTTPException 500 (utf8 "Failed to get expenses")
  end.

Definition delete_expense (db : database) (expense_id : text) (current_user : text)
  : response dict * database :=
  let query := [("id", expense_id); ("user_id", current_user)]%string in
  match find_one db query with
  | Raise _ => (HTTPException 500 (utf8 "Failed to delete expense"), db)
  | Ok None => (HTTPException 404 (utf8 "Expense not found"), db)
  | Ok (Some _) =>
      match delete_one db query with
      | Raise _ => (HTTPException 500 (utf8 "Failed to delete expense"), db)
      | Ok (db1, deleted_count) =>
          if deleted_count =? 1 then
            (Return [("message"%string,
                      VStr (utf8 "Expense " ++ expense_id ++ utf8 " deleted successfully"))],
             db1)
          else (HTTPException 500 (utf8 "Failed to delete expense"), db1)
      end
  end.

(** *** [upload_receipt] *)

Record upload_file := MkUpload {
  content_type : option text;
  filename : text;
  contents : image_file
}.

(** What the call meets outside the program: whether [ReceiptProcessor()]
    finds its tools, the OCR engine, the day, the values of [uuid4()] in
    the order of the calls, whether the uploads directory can be made, and
    the [ObjectId] of an insertion. *)
Record world := MkWorld {
  processor : result unit;
  tesseract : engine;
  today : text;
  uuid4 : nat -> text;
  makedirs : result unit;
  object_id : text
}.

(** [float(v)] *)
Definition float_of (v : pyval) : result Q :=
  match v with
  | VFloat q => Ok q
  | VBool b => Ok (if b then 1 else 0)%Q
  | VStr s =>
      match py_float s with
      | Some q => Ok q
      | None => Raise (ValueError (utf8 "could not convert string to float"))
      end
  | _ => Raise (Exception (utf8 "float() argument must be a string or a real number"))
  end.

(** [v == s] for a string [s]. *)
Definition is_str (v : pyval) (s : string) : bool :=
  match v with VStr w => text_eqb w (utf8 s) | _ => false end.

Definition error_body (error : pyval) (error_type : pyval) : json :=
  [ ("success", FVal (VBool false)); ("error", FVal error);
    ("error_type", FVal error_type) ]%string.

(** The dictionary [expense_data]; [result] holds the keys read with
    [result[...]] when this is built. *)
Definition expense_data (result : dict) (amount : Q) (receipt_url : text)
           (current_user id now : text) : dict :=
  [ ("title", get_or result "description" VNone);
    ("amount", VFloat amount);
    ("date", get_or result "date" (VStr now));
    ("category", get_or result "category" (VStr (utf8 "Other")));
    ("description", get_or result "description" VNone);
    ("receipt_url", VStr receipt_url);
    ("user_id", VStr current_user);
    ("id", VStr id);
    ("merchant", get_or result "merchant" VNone);
    ("items", get_or result "items" (VItems []));
    ("raw_text", get_or result "raw_text" VNone);
    ("category_confidence", get_or result "category_confidence" VNone);
    ("category_reason", get_or result "category_reason" VNone);
    ("extracted_date", get_or result "date" VNone);
    ("needs_confirmation", get_or result "needs_confirmation" (VBool false)) ]%string.

(** The inner [try]: [expense_data["id"]] and the collection after the
    insertion, or the exception that is logged and dropped. *)
Definition auto_create (db : database) (w : world) (result : dict)
           (receipt_url current_user : text) : Value.result (pyval * database) :=
  bind (float_of (get_or result "amount" VNone)) (fun amount =>
    let data := expense_data result amount receipt_url current_user (uuid4 w 1%nat)
                             (today w) in
    bind (insert_one db (prepare_for_mongo data (uuid4 w 2%nat)) (object_id w))
         (fun db1 => Ok (get_or data "id" VNone, db1))).

(** The outer [try]: the body returned and the collection, or the
    exception raised. *)
Definition upload_body (db : database) (w : world) (file : upload_file)
           (current_user : text) : Value.result (json * database) :=
  if nbytes (contents file) =? 0 then Raise (ValueError (utf8 "Empty file uploaded"))
  else
    bind (processor w) (fun _ =>
      let result :=
        process_receipt (contents file) (psm_loop (tesseract w) psm_modes [] 0%Q)
                        (today w) in
      if negb (truthy (get_or result "success" (VBool false))) then
        Ok (error_body (get_or result "error" (VStr (utf8 "Unknown error occurred")))
                       (get_or result "error_type" (VStr (utf8 "unknown"))),
            db)
      else
        let filename := uuid4 w 0%nat ++ utf8 "_" ++ filename file in
        bind (makedirs w) (fun _ =>
          let receipt_url := utf8 "/uploads/" ++ filename in
          let extracted_data :=
            set_item (filter (fun kv => negb (String.eqb (fst kv) "success")) result)
                     "receipt_url" (VStr receipt_url) in
          let created :=
            if truthy (get_or result "amount" VNone)
               && truthy (get_or result "description" VNone)
            then match auto_create db w result receipt_url current_user with
                 | Ok created => Some created
                 | Raise _ => None
                 end
            else None in
          match created with
          | Some (expense_id, db1) =>
              Ok ([ ("success", FVal (VBool true));
                    ("extracted_data", FDict extracted_data);
                    ("expense_created", FVal (VBool true));
                    ("expense_id", FVal expense_id);
                    ("message",
                     FVal (VStr
                       (if is_str (get_or result "category_confidence" VNone) "high"
                        then utf8 "Receipt processed and expense created automatically!"
                        else utf8 "Receipt processed and expense created. Please review the categorization."))) ]%string,
                  db1)
          | None =>
              Ok ([ ("success", FVal (VBool true));
                    ("extracted_data", FDict extracted_data);
                    ("expense_created", FVal (VBool false));
                    ("message",
                     FVal (VStr (utf8 "Receipt processed successfully. Please review the extracted data."))) ]%string,
                  db)
          end)).

Definition upload_receipt (db : database) (w : world) (file : upload_file)
           (current_user : text) : response json * database :=
  if match content_type file with
     | Some (c :: ct) => starts_with (utf8 "image/") (c :: ct)
     | _ => false
     end
  then
    match upload_body db w file current_user with
    | Ok (body, db1) => (Return body, db1)
    | Raise (ValueError msg) =>
        (Return (error_body (VStr msg) (VStr (utf8 "validation"))), db)
    | Raise (Exception _) =>
        (Return (error_body
                   (VStr (utf8 "An unexpected error occurred while processing the receipt. Please try again."))
                   (VStr (utf8 "system"))),
         db)
    end
  else (HTTPException 400 (utf8 "Invalid file type. Please upload an image file."), db).

End Server.

(** * Properties *)

(** ** The regular-expression engine *)

Section EngineFacts.
Import Py Re.
Context {A : Type}.
Variable ic : bool.

Lemma rep_sound (P : text -> Prop) (mr : text -> caps -> @cont A -> option A) :
  sound_for P mr ->
  forall n lo s g k x,
    rep mr lo n s g k = Some x ->
    exists ws s1 g1,
      s = List.concat ws ++ s1 /\ Forall P ws
      /\ (lo <= List.length ws <= n)%nat /\ k s1 g1 = Some x.
Proof.
  intros Hmr n; induction n as [|n IH]; intros lo s g k x H; simpl in H.
  - destruct lo; [|discriminate].
    exists [], s, g; repeat split; auto.
  - destruct lo as [|lo].
    + destruct (mr s g (fun s1 g1 => rep mr 0 n s1 g1 k)) as [y|] eqn:E.
      * inversion H; subst y; clear H.
        apply Hmr in E as (w & s1 & g1 & -> & Pw & Hk).
        apply IH in Hk as (ws & s2 & g2 & -> & Pws & Hlen & Hk).
        exists (w :: ws), s2, g2; simpl; rewrite <- app_assoc.
        repeat split; auto; lia.
      * exists [], s, g; repeat split; auto; simpl; lia.
    + apply Hmr in H as (w & s1 & g1 & -> & Pw & Hk).
      apply IH in Hk as (ws & s2 & g2 & -> & Pws & Hlen & Hk).
      exists (w :: ws), s2, g2; simpl; rewrite <- app_assoc.
      repeat split; auto; lia.
Qed.

Lemma m_sound (r : regex) : sound_for (lang ic r) (@m A ic r).
Proof.
  induction r as [ | l | cs | r1 IH1 r2 IH2 | r1 IH1 r2 IH2
                 | lo hi r1 IH1 | i r1 IH1 | ];
    intros s g k x H; simpl in H.
  - exists [], s, g; simpl; auto.
  - destruct s as [|c s1]; [discriminate|].
    destruct (lit_match ic l c) eqn:E; [|discriminate].
    exists [c], s1, g; simpl; eauto.
  - destruct s as [|c s1]; [discriminate|].
    destruct (set_match ic cs c) eqn:E; [|discriminate].
    exists [c], s1, g; simpl; eauto.
  - apply IH1 in H as (w1 & s1 & g1 & -> & L1 & H).
    apply IH2 in H as (w2 & s2 & g2 & -> & L2 & H).
    exists (w1 ++ w2), s2, g2; rewrite <- app_assoc; simpl; eauto 8.
  - destruct (m ic r1 s g k) as [y|] eqn:E.
    + inversion H; subst y.
      apply IH1 in E as (w & s1 & g1 & -> & L & Hk).
      exists w, s1, g1; simpl; auto.
    + apply IH2 in H as (w & s1 & g1 & -> & L & Hk).
      exists w, s1, g1; simpl; auto.
  - apply (rep_sound _ _ IH1) in H as (ws & s1 & g1 & -> & Pws & Hlen & Hk).
    exists (List.concat ws), s1, g1; simpl; repeat split; auto.
    exists ws; repeat split; auto; try lia.
    destruct hi; [lia | exact I].
  - apply IH1 in H as (w & s1 & g1 & -> & L & Hk).
    exists w, s1, ((i, firstn (List.length (w ++ s1) - List.length s1) (w ++ s1)) :: g1).
    simpl; auto.
  - destruct (at_end s); [|discriminate].
    exists [], s, g; simpl; auto.
Qed.

Lemma m_group_sound (i : nat) (r : regex) s g (k : @cont A) x :
  m ic (Group i r) s g k = Some x ->
  exists w s1 g1, s = w ++ s1 /\ lang ic r w /\ k s1 ((i, w) :: g1) = Some x.
Proof.
  simpl; intros H.
  apply m_sound in H as (w & s1 & g1 & -> & L & Hk).
  exists w, s1, g1; repeat split; auto.
  rewrite length_app, Nat.add_sub in Hk.
  rewrite firstn_app, Nat.sub_diag, firstn_all in Hk; simpl in Hk.
  now rewrite app_nil_r in Hk.
Qed.

Lemma rep_must_step (mr : text -> caps -> @cont A -> option A) lo n s g k :
  rep mr (S lo) (S n) s g k = mr s g (fun s1 g1 => rep mr lo n s1 g1 k).
Proof. reflexivity. Qed.

(** A repetition that may stop at once succeeds where its continuation
    does. *)
Lemma rep_may_stop (mr : text -> caps -> @cont A -> option A) n s g k :
  k s g <> None -> rep mr 0 n s g k <> None.
Proof.
  intros Hk; destruct n as [|n]; simpl; auto.
  destruct (mr s g _); [discriminate | exact Hk].
Qed.
End EngineFacts.

(** ** Characters and numerals *)

Ltac split_tests :=
  repeat match goal with
    | |- context [N.eqb ?a ?b] => destruct (N.eqb_spec a b)
    | |- context [N.leb ?a ?b] => destruct (N.leb_spec a b)
    | |- context [N.ltb ?a ?b] => destruct (N.ltb_spec a b)
    | H : context [N.eqb ?a ?b] |- _ => destruct (N.eqb_spec a b)
    | H : context [N.leb ?a ?b] |- _ => destruct (N.leb_spec a b)
    | H : context [N.ltb ?a ?b] |- _ => destruct (N.ltb_spec a b)
    end;
  simpl in *; try discriminate; try lia.

Section CharFacts.
Import Py Re.

Lemma decimal_in_none zs c :
  Forall (fun z => c < z) zs -> decimal_in zs c = None.
Proof.
  induction 1 as [|z zs Hz _ IH]; simpl; auto.
  destruct (N.leb_spec z c); simpl; [lia | exact IH].
Qed.

Lemma decimal_in_lower zs c d :
  decimal_in zs c = Some d -> exists z, In z zs /\ z <= c.
Proof.
  induction zs as [|z zs IH]; simpl; [discriminate|].
  destruct (N.leb_spec z c) as [Hzc|Hzc]; simpl.
  - destruct (c <? z + 10).
    + intros _; exists z; auto.
    + intros E; destruct (IH E) as (z' & Hin & Hle); eauto.
  - intros E; destruct (IH E) as (z' & Hin & Hle); eauto.
Qed.

Lemma decimal_ge_48 c : is_decimal c = true -> 48 <= c.
Proof.
  unfold is_decimal, decimal_value.
  destruct (decimal_in nd_zeros c) as [d|] eqn:E; [intros _|discriminate].
  apply decimal_in_lower in E as (z & Hin & Hle).
  assert (Hall : Forall (fun z => 48 <= z) nd_zeros)
    by (unfold nd_zeros; repeat constructor; lia).
  rewrite Forall_forall in Hall; specialize (Hall z Hin); lia.
Qed.

Lemma decimal_in_cons z zs c :
  decimal_in (z :: zs) c
  = if (z <=? c) && (c <? z + 10) then Some (c - z) else decimal_in zs c.
Proof. reflexivity. Qed.

Lemma decimal_basic_latin c :
  is_decimal c = true -> c < 1632 -> c <= 57.
Proof.
  unfold is_decimal, decimal_value, nd_zeros; intros H Hc.
  rewrite decimal_in_cons in H.
  destruct ((48 <=? c) && (c <? 48 + 10)) eqn:E.
  - apply andb_true_iff in E as [_ E]; apply N.ltb_lt in E; lia.
  - rewrite decimal_in_none in H; [discriminate|].
    repeat constructor; lia.
Qed.

Lemma ascii_digit_decimal c : is_ascii_digit c = true -> is_decimal c = true.
Proof.
  unfold is_ascii_digit, is_decimal, decimal_value, nd_zeros; intros H.
  rewrite decimal_in_cons.
  apply andb_true_iff in H as [H1 H2].
  apply N.leb_le in H1; apply N.leb_le in H2.
  destruct (N.leb_spec 48 c); [|lia].
  destruct (N.ltb_spec c (48 + 10)); [reflexivity | lia].
Qed.

Lemma fold_case_low c : fold_case c < 65 -> fold_case c = c.
Proof. unfold fold_case, is_upper_ascii; split_tests. Qed.

Lemma fold_case_fixes_low l : l < 65 -> fold_case l = l.
Proof. unfold fold_case, is_upper_ascii; split_tests. Qed.

Lemma fold_case_decimal c :
  is_decimal (fold_case c) = true -> is_decimal c = true.
Proof.
  intros H.
  destruct (N.ltb_spec (fold_case c) 1632) as [Hlt|Hge].
  - pose proof (decimal_basic_latin _ H Hlt) as Hle.
    rewrite fold_case_low in H by lia; exact H.
  - revert H Hge; unfold fold_case, is_upper_ascii; split_tests; auto.
Qed.

Lemma digit_match flag c :
  set_match flag [CDigit] c = true -> is_decimal c = true.
Proof.
  unfold set_match; simpl; rewrite !orb_false_r.
  destruct (is_decimal c) eqn:E; auto; simpl.
  destruct flag; simpl; [|discriminate].
  intros H; apply fold_case_decimal in H; congruence.
Qed.

Lemma lit_match_low flag l c :
  l < 65 -> lit_match flag l c = true -> c = l.
Proof.
  unfold lit_match; intros Hl H.
  apply orb_true_iff in H as [H|H]; [now apply N.eqb_eq in H|].
  apply andb_true_iff in H as [_ H]; apply N.eqb_eq in H.
  rewrite (fold_case_fixes_low l Hl) in H.
  rewrite fold_case_low in H; lia.
Qed.

Lemma digits_value_some w :
  all_decimal w -> forall acc, exists v, digits_value acc w = Some v.
Proof.
  induction 1 as [|c w Hc _ IH]; intros acc; simpl; eauto.
  unfold is_decimal in Hc.
  destruct (decimal_value c); [apply IH | discriminate].
Qed.

Lemma split_point_digits w rest :
  all_decimal w ->
  split_point (w ++ rest) = (w ++ fst (split_point rest), snd (split_point rest)).
Proof.
  induction 1 as [|c w Hc _ IH]; simpl.
  - now destruct (split_point rest).
  - apply decimal_ge_48 in Hc as Hge.
    destruct (N.eqb_spec c 46); [lia|].
    rewrite IH; reflexivity.
Qed.

Lemma remove_comma_digits w : all_decimal w -> remove_char comma w = w.
Proof.
  unfold remove_char; induction 1 as [|c w Hc _ IH]; simpl; auto.
  apply decimal_ge_48 in Hc.
  destruct (N.eqb_spec c 44); [lia|]; simpl.
  now rewrite IH.
Qed.

(** [float] reads every literal of the form digits, or digits followed
    by a point and digits. *)
Lemma py_float_decimal (ip : text) (fp : option text) :
  all_decimal ip -> ip <> [] ->
  match fp with Some f => all_decimal f | None => True end ->
  exists q,
    py_float (ip ++ match fp with Some f => point :: f | None => [] end) = Some q.
Proof.
  intros Hip Hne Hfp; unfold py_float.
  rewrite split_point_digits by assumption.
  destruct (digits_value_some ip Hip 0) as (i & Hi).
  destruct fp as [f|]; simpl.
  - rewrite app_nil_r, Hi.
    destruct (digits_value_some f Hfp 0) as (v & Hv); rewrite Hv.
    destruct ip; [congruence | simpl; eauto].
  - rewrite !app_nil_r, Hi.
    destruct ip; [congruence | simpl; eauto].
Qed.
End CharFacts.

(** ** Matches and their groups *)

Section SearchFacts.
Import Py Re.
Variable flag : bool.

Lemma ends_with_group i t r :
  ends_with i t r ->
  forall s g0 rest g,
    m flag r s g0 (fun s1 g1 => Some (s1, g1)) = Some (rest, g) ->
    exists pre w, s = pre ++ w ++ rest /\ group_of g i = Some w /\ lang flag t w.
Proof.
  induction 1 as [|p r _ IH]; intros s g0 rest g H.
  - apply m_group_sound in H as (w & s1 & g1 & -> & L & E).
    inversion E; subst; clear E.
    exists [], w; simpl; rewrite Nat.eqb_refl; auto.
  - cbn [m] in H.
    apply m_sound in H as (w0 & s1 & g1 & -> & _ & H).
    apply IH in H as (pre & w & -> & Hg & L).
    exists (w0 ++ pre), w; rewrite <- app_assoc; auto.
Qed.

Lemma search_from_here r :
  forall s off mo,
    search_from flag r off s = Some mo ->
    exists pre s1 rest,
      s = pre ++ s1 /\ match_here flag r s1 = Some (rest, m_caps mo).
Proof.
  induction s as [|c s IH]; intros off mo H; simpl in H.
  - destruct (match_here flag r []) as [[rest g]|] eqn:E; [|discriminate].
    inversion H; subst; exists [], [], rest; auto.
  - destruct (match_here flag r (c :: s)) as [[rest g]|] eqn:E.
    + inversion H; subst; exists [], (c :: s), rest; auto.
    + apply IH in H as (pre & s1 & rest & -> & H).
      exists (c :: pre), s1, rest; auto.
Qed.

Lemma search_group i t r s off mo :
  ends_with i t r ->
  search_from flag r off s = Some mo ->
  exists pre w post, s = pre ++ w ++ post /\ group mo i = Some w /\ lang flag t w.
Proof.
  intros He H.
  apply search_from_here in H as (pre & s1 & rest & -> & H).
  apply (ends_with_group _ _ _ He) in H as (pre1 & w & -> & Hg & L).
  exists (pre ++ pre1), w, rest; rewrite <- app_assoc; auto.
Qed.

Lemma scan_forall (Q : match_obj -> Prop) r :
  (forall off s mo, search_from flag r off s = Some mo -> Q mo) ->
  forall fuel off s, Forall Q (scan fuel flag r off s).
Proof.
  intros HQ fuel; induction fuel as [|fuel IH]; intros off s; simpl.
  - constructor.
  - destruct (search_from flag r off s) as [mo|] eqn:E; constructor; eauto.
Qed.
End SearchFacts.

(** ** Amounts *)

Section AmountFacts.
Import Py Re ReceiptProcessor.
Variable flag : bool.

Lemma lang_digits lo hi w :
  lang flag (Repeat lo hi digit) w -> all_decimal w /\ (lo <= List.length w)%nat.
Proof.
  cbn [lang]; intros (ws & -> & Hall & Hlo & _).
  assert (H : all_decimal (List.concat ws)
              /\ List.length (List.concat ws) = List.length ws).
  { clear Hlo; induction Hall as [|x ws Hx _ [IH1 IH2]]; simpl.
    - split; [constructor | reflexivity].
    - destruct Hx as (c & -> & Hc); apply digit_match in Hc.
      simpl; split; [constructor; auto | congruence]. }
  destruct H as [H1 H2]; split; [exact H1 | lia].
Qed.

Lemma remove_char_app c u v :
  remove_char c (u ++ v) = remove_char c u ++ remove_char c v.
Proof. apply filter_app. Qed.

Lemma lang_thousands w :
  lang flag (star (Cat (Lit comma) (times 3 3 digit))) w ->
  all_decimal (remove_char comma w).
Proof.
  unfold star, times; cbn [lang]; intros (ws & -> & Hall & _).
  induction Hall as [|x ws Hx _ IH]; simpl; [constructor|].
  rewrite remove_char_app.
  destruct Hx as (w1 & w2 & -> & (c & -> & Hc) & Hd).
  apply lit_match_low in Hc; [subst c | lia].
  apply (lang_digits 3 (Some 3%nat)) in Hd as [Hd _].
  simpl; rewrite (remove_comma_digits _ Hd).
  apply Forall_app; auto.
Qed.

Lemma lang_fraction w :
  lang flag (opt (Cat (Lit point) (times 2 2 digit))) w ->
  w = [] \/ exists ds, w = point :: ds /\ all_decimal ds.
Proof.
  unfold opt, times; cbn [lang]; intros (ws & -> & Hall & _ & Hhi).
  destruct Hall as [|x ws Hx Hws]; [left; reflexivity|].
  destruct ws; [|simpl in Hhi; lia].
  destruct Hx as (w1 & w2 & -> & (c & -> & Hc) & Hd).
  apply lit_match_low in Hc; [subst c | lia].
  apply (lang_digits 2 (Some 2%nat)) in Hd as [Hd _].
  right; exists w2; simpl; rewrite app_nil_r; auto.
Qed.

(** Every text the amount token matches converts, and holds a digit. *)
Lemma amount_token_parses w :
  lang flag amount_token w -> exists q, parse_amount w = Some q.
Proof.
  unfold amount_token, seq; cbn [lang].
  intros (w1 & w23 & -> & H1 & w2 & w3 & -> & H2 & H3).
  apply lang_digits in H1 as [H1 Hn].
  apply lang_thousands in H2.
  apply lang_fraction in H3.
  unfold parse_amount; rewrite !remove_char_app, (remove_comma_digits _ H1).
  rewrite app_assoc.
  assert (Hip : all_decimal (w1 ++ remove_char comma w2)) by (apply Forall_app; auto).
  assert (Hne : w1 ++ remove_char comma w2 <> [])
    by (destruct w1; [simpl in Hn; lia | discriminate]).
  destruct H3 as [-> | (ds & -> & Hds)].
  - apply (py_float_decimal _ None Hip Hne I).
  - replace (remove_char comma (point :: ds)) with (point :: ds)
      by (simpl; now rewrite (remove_comma_digits _ Hds)).
    apply (py_float_decimal _ (Some ds) Hip Hne Hds).
Qed.

Lemma amount_token_digit w :
  lang flag amount_token w -> exists c, In c w /\ is_decimal c = true.
Proof.
  unfold amount_token, seq; cbn [lang].
  intros (w1 & w23 & -> & H1 & _).
  apply lang_digits in H1 as [H1 Hn].
  destruct w1 as [|c w1]; [simpl in Hn; lia|].
  exists c; split; [left; reflexivity | now inversion H1].
Qed.
End AmountFacts.

Section ExtractAmount.
Import Py Re ReceiptProcessor.

Lemma specific_total_ends : ends_with 1 amount_token specific_total.
Proof. unfold specific_total, labelled_amount, seq; repeat constructor. Qed.

Lemma bare_total_ends : ends_with 1 amount_token bare_total.
Proof. unfold bare_total, labelled_amount, seq; repeat constructor. Qed.

Lemma any_amount_ends : ends_with 1 amount_token any_amount.
Proof. unfold any_amount, seq; repeat constructor. Qed.

(** The group of a match of one of the three patterns converts. *)
Lemma found_amount_parses flag r s off mo :
  ends_with 1 amount_token r ->
  search_from flag r off s = Some mo ->
  exists q, parse_amount (group_text mo 1) = Some q.
Proof.
  intros He H.
  destruct (search_group flag 1 amount_token r s off mo He H)
    as (pre & w & post & _ & Hg & L).
  unfold group_text; rewrite Hg.
  exact (amount_token_parses flag w L).
Qed.

Lemma found_amount_digit flag r s off mo :
  ends_with 1 amount_token r ->
  search_from flag r off s = Some mo ->
  exists c, In c s /\ is_decimal c = true.
Proof.
  intros He H.
  destruct (search_group flag 1 amount_token r s off mo He H)
    as (pre & w & post & -> & _ & L).
  destruct (amount_token_digit flag w L) as (c & Hin & Hc).
  exists c; split; auto.
  apply in_or_app; right; apply in_or_app; left; exact Hin.
Qed.

Lemma digit_set_match flag c : is_decimal c = true -> set_match flag [CDigit] c = true.
Proof. intros H; unfold set_match; simpl; now rewrite H. Qed.

(** At a digit the token matches, whatever follows. *)
Lemma amount_token_at_digit {A : Type} flag c s g (k : @cont A) :
  is_decimal c = true -> total_cont k ->
  m flag amount_token (c :: s) g k <> None.
Proof.
  intros Hc Hk.
  unfold amount_token, seq, times, star, opt, digit; cbn [m].
  rewrite (rep_must_step _ 0 2); cbn beta iota.
  rewrite (digit_set_match flag c Hc).
  apply rep_may_stop, rep_may_stop, rep_may_stop, Hk.
Qed.

Lemma any_amount_at_digit c s :
  is_decimal c = true -> match_here false any_amount (c :: s) <> None.
Proof.
  intros Hc; unfold match_here, any_amount, seq, opt, star; cbn [m].
  apply rep_may_stop, rep_may_stop.
  apply amount_token_at_digit; [exact Hc | intros s1 g1; discriminate].
Qed.

Lemma any_amount_complete s :
  (exists c, In c s /\ is_decimal c = true) ->
  forall off, search_from false any_amount off s <> None.
Proof.
  induction s as [|c s IH]; intros (d & Hin & Hd) off; [destruct Hin|].
  cbn [search_from].
  destruct (match_here false any_amount (c :: s)) as [[rest g]|] eqn:E;
    [discriminate|].
  destruct Hin as [->|Hin].
  - exfalso; exact (any_amount_at_digit d s Hd E).
  - apply IH; eauto.
Qed.

Lemma Qltb_false a b : Qltb a b = false -> (b <= a)%Q.
Proof.
  unfold Qltb; intros H; apply negb_false_iff in H.
  now apply Qle_bool_iff.
Qed.

Lemma Qltb_true a b : Qltb a b = true -> (a <= b)%Q.
Proof.
  unfold Qltb; intros H; apply negb_true_iff in H.
  destruct (Qlt_le_dec a b) as [Hlt|Hle]; [now apply Qlt_le_weak|].
  apply Qle_bool_iff in Hle; congruence.
Qed.

Lemma fold_max l : forall a,
  let r := fold_left (fun best x => if Qltb best x then x else best) l a in
  (r = a \/ In r l) /\ (a <= r)%Q /\ (forall b, In b l -> (b <= r)%Q).
Proof.
  induction l as [|x l IH]; intros a; cbn [fold_left].
  - cbv zeta; repeat split; auto using Qle_refl; intros b [].
  - destruct (Qltb a x) eqn:E.
    + destruct (IH x) as (Hin & Hle & Hall); cbv zeta in *.
      repeat split.
      * right; destruct Hin as [->|Hin]; [left; reflexivity | right; exact Hin].
      * eapply Qle_trans; [apply Qltb_true; exact E | exact Hle].
      * intros b [<-|Hb]; auto.
    + destruct (IH a) as (Hin & Hle & Hall); cbv zeta in *.
      repeat split; auto.
      * destruct Hin as [->|Hin]; [left; reflexivity | right; right; exact Hin].
      * intros b [<-|Hb]; auto.
        eapply Qle_trans; [apply Qltb_false; exact E | exact Hle].
Qed.

Lemma py_max_largest l a :
  py_max l = Some a -> In a l /\ forall b, In b l -> (b <= a)%Q.
Proof.
  destruct l as [|x l]; [discriminate|]; cbn [py_max]; intros H.
  inversion H as [Ha]; clear H.
  destruct (fold_max l x) as (Hin & Hle & Hall); cbv zeta in *.
  split.
  - destruct Hin as [->|Hin]; [left; reflexivity | right; exact Hin].
  - intros b [<-|Hb]; auto.
Qed.

Lemma numeric_of_in amounts :
  Forall (fun t => exists q, parse_amount t = Some q) amounts ->
  (forall a, In a (numeric_of amounts) ->
             exists t, In t amounts /\ parse_amount t = Some a)
  /\ (forall t, In t amounts ->
                exists b, parse_amount t = Some b /\ In b (numeric_of amounts)).
Proof.
  induction 1 as [|t amounts (q & Hq) _ [IH1 IH2]]; cbn [numeric_of].
  - split; intros ? [].
  - rewrite Hq; split.
    + intros a [<-|Ha]; [exists t; split; [left|]; auto|].
      destruct (IH1 a Ha) as (t' & Hin & Hp); exists t'; split; [right|]; auto.
    + intros t' [<-|Ht]; [exists q; split; [|left]; auto|].
      destruct (IH2 t' Ht) as (b & Hp & Hin); exists b; split; [|right]; auto.
Qed.

Lemma tokens_parse text :
  Forall (fun t => exists q, parse_amount t = Some q)
         (findall1 false any_amount text).
Proof.
  unfold findall1, finditer; apply Forall_map.
  apply scan_forall; intros off s mo H.
  exact (found_amount_parses false any_amount s off mo any_amount_ends H).
Qed.
End ExtractAmount.

Section AmountClaims.
Import Py Re ReceiptProcessor.

(** [extract_amount] returns the number of the first match of the
    specific labels ("grand total", "net amount", "amount payable",
    "bill total", ...) when there is one, else the number of the first
    match of a bare "total"; the number of a labelled match always
    converts.  With no labelled match it returns the largest of the
    numbers [re.findall] reads anywhere in the text, and [None] exactly
    when there is no such number. *)
Theorem extract_amount_labelled_then_largest (text : Py.text) :
  match search true specific_total text, search true bare_total text with
  | Some mo, _ | None, Some mo =>
      exists a, parse_amount (group_text mo 1) = Some a
                /\ extract_amount text = Some a
  | None, None =>
      let tokens := findall1 false any_amount text in
      match extract_amount text with
      | Some a =>
          (exists t, In t tokens /\ parse_amount t = Some a)
          /\ (forall t, In t tokens ->
                        exists b, parse_amount t = Some b /\ (b <= a)%Q)
      | None => tokens = []
      end
  end.
Proof.
  unfold extract_amount, total_patterns; cbn [labelled_total].
  destruct (search true specific_total text) as [mo|] eqn:E1.
  - destruct (found_amount_parses _ _ _ _ _ specific_total_ends E1) as (q & Hq).
    rewrite Hq; eauto.
  - destruct (search true bare_total text) as [mo|] eqn:E2.
    + destruct (found_amount_parses _ _ _ _ _ bare_total_ends E2) as (q & Hq).
      rewrite Hq; eauto.
    + cbv zeta.
      pose proof (tokens_parse text) as Hall.
      destruct (numeric_of_in _ Hall) as [Hfrom Hto].
      destruct (py_max (numeric_of (findall1 false any_amount text)))
        as [a|] eqn:E.
      * apply py_max_largest in E as [Hin Hmax]; split.
        -- exact (Hfrom a Hin).
        -- intros t Ht; destruct (Hto t Ht) as (b & Hb & Hbin); eauto.
      * destruct (findall1 false any_amount text) as [|t ts]; [reflexivity|].
        destruct (Hto t (or_introl eq_refl)) as (b & _ & Hb).
        destruct (numeric_of (t :: ts)); [destruct Hb | discriminate].
Qed.

Lemma amount_needs_digit (text : Py.text) (a : Q) :
  extract_amount text = Some a -> exists c, In c text /\ is_decimal c = true.
Proof.
  unfold extract_amount, total_patterns; cbn [labelled_total]; intros H.
  destruct (search true specific_total text) as [mo|] eqn:E1;
    [exact (found_amount_digit _ _ _ _ _ specific_total_ends E1)|].
  destruct (search true bare_total text) as [mo|] eqn:E2;
    [exact (found_amount_digit _ _ _ _ _ bare_total_ends E2)|].
  unfold findall1, finditer in H; cbn [scan] in H.
  destruct (search_from false any_amount 0 text) as [mo|] eqn:E3;
    [exact (found_amount_digit _ _ _ _ _ any_amount_ends E3)|].
  discriminate.
Qed.

Lemma digit_gives_amount (text : Py.text) :
  (exists c, In c text /\ is_decimal c = true) ->
  exists a, extract_amount text = Some a.
Proof.
  unfold extract_amount, total_patterns; cbn [labelled_total]; intros Hd.
  destruct (search true specific_total text) as [mo|] eqn:E1.
  { destruct (found_amount_parses _ _ _ _ _ specific_total_ends E1) as (q & Hq).
    rewrite Hq; eauto. }
  destruct (search true bare_total text) as [mo|] eqn:E2.
  { destruct (found_amount_parses _ _ _ _ _ bare_total_ends E2) as (q & Hq).
    rewrite Hq; eauto. }
  unfold findall1, finditer; cbn [scan].
  destruct (search_from false any_amount 0 text) as [mo|] eqn:E3;
    [|exfalso; exact (any_amount_complete text Hd 0%nat E3)].
  destruct (found_amount_parses _ _ _ _ _ any_amount_ends E3) as (q & Hq).
  cbn [map numeric_of]; rewrite Hq; cbn [py_max]; eauto.
Qed.

(** C10, as amended.  [extract_amount] returns a number exactly when the
    text holds a decimal digit in the sense of [\d]: an ASCII digit or
    another decimal digit of Unicode. *)
Theorem extract_amount_iff_decimal_digit (text : Py.text) :
  (exists a, extract_amount text = Some a)
  <-> (exists c, In c text /\ is_decimal c = true).
Proof.
  split.
  - intros (a & H); exact (amount_needs_digit text a H).
  - exact (digit_gives_amount text).
Qed.

(** C10, counterexample.  A text of Devanagari digits holds no ASCII
    digit, yet [extract_amount] reads five hundred from it. *)
Lemma extract_amount_without_ascii_digit :
  extract_amount [2411; 2406; 2406] = Some (500 # 1)
  /\ existsb is_ascii_digit [2411; 2406; 2406] = false.
Proof. split; vm_compute; reflexivity. Qed.

(** For the ASCII digits in particular: one of them is enough for an
    amount. *)
Lemma extract_amount_of_ascii_digit (text : Py.text) (c : char) :
  In c text -> is_ascii_digit c = true -> exists a, extract_amount text = Some a.
Proof.
  intros Hin Hc; apply digit_gives_amount.
  exists c; split; [exact Hin | now apply ascii_digit_decimal].
Qed.
End AmountClaims.

(** ** Dates *)

Section DateClaims.
Import Py Re Datetime ReceiptProcessor.

(** C3.  ["15-01-2024"] is normalized to ["2024-01-15"], but the
    normalized date is not a fixed point: in ["2024-01-15"] the first
    pattern finds ["24-01-15"] and reads it as day, month and two-digit
    year. *)
Theorem extract_date_of_iso_date :
  extract_date (utf8 "15-01-2024") = Some (utf8 "2024-01-15")
  /\ extract_date (utf8 "2024-01-15") = Some (utf8 "2015-01-24").
Proof. split; vm_compute; reflexivity. Qed.

(** The match that shadows the ISO pattern. *)
Lemma day_month_year_in_iso_date :
  option_map (fun mo => (m_start mo, group_text mo 1, group_text mo 2, group_text mo 3))
             (search true day_month_year (utf8 "2024-01-15"))
  = Some (2%nat, utf8 "24", utf8 "01", utf8 "15").
Proof. vm_compute; reflexivity. Qed.

(** C4.  The month-name pattern finds ["15 Jan 2024"], with the day and
    the year in its two groups, and [extract_date] still returns
    [None]. *)
Theorem extract_date_of_month_name :
  option_map (fun mo => (group_text mo 1, group_text mo 2))
             (search true day_name_year (utf8 "15 Jan 2024"))
  = Some (utf8 "15", utf8 "2024")
  /\ ngroups day_name_year = 2%nat
  /\ extract_date (utf8 "15 Jan 2024") = None.
Proof. repeat split; vm_compute; reflexivity. Qed.

(** The month-name pattern has two groups, so a match of it never
    returns: the result is that of the two numeric patterns. *)
Lemma month_name_pattern_is_dead (text : Py.text) :
  extract_date text = first_date [day_month_year; year_month_day] text.
Proof.
  unfold extract_date, date_patterns; cbn [first_date].
  replace (ngroups day_name_year =? 3)%nat with false by reflexivity.
  destruct (search true day_month_year text) as [mo|]; [|now destruct (search true day_name_year text)].
  destruct (ngroups day_month_year =? 3)%nat; [|now destruct (search true day_name_year text)].
  destruct (parse_match mo); [reflexivity|].
  now destruct (search true day_name_year text).
Qed.

(** A match that is no calendar date is passed over and the later
    patterns are still tried. *)
Lemma invalid_date_is_skipped :
  extract_date (utf8 "31/02/2024 paid 2024-03-01") = Some (utf8 "2024-03-01").
Proof. vm_compute; reflexivity. Qed.

Lemma strftime_ymd_not_empty d : strftime_ymd d <> [].
Proof.
  unfold strftime_ymd; intros H.
  apply app_eq_nil in H as [_ H]; discriminate.
Qed.

Lemma first_date_not_empty pats text s :
  first_date pats text = Some s -> s <> [].
Proof.
  induction pats as [|p pats IH]; cbn [first_date]; [discriminate|].
  destruct (search true p text) as [mo|]; auto.
  destruct (ngroups p =? 3)%nat; auto.
  destruct (parse_match mo) as [d|]; auto.
  intros H; inversion H; apply strftime_ymd_not_empty.
Qed.
End DateClaims.

(** ** The categorizer *)

Section CategoryClaims.
Import Py Re ReceiptProcessor.
Local Open Scope string_scope.

Lemma first_keyword_some kws tl ml kw :
  first_keyword kws tl ml = Some kw -> In kw kws /\ found kw tl ml = true.
Proof.
  induction kws as [|k kws IH]; cbn [first_keyword]; [discriminate|].
  destruct (found k tl ml) eqn:E.
  - intros H; inversion H; subst; split; [left; reflexivity | exact E].
  - intros H; destruct (IH H); split; [right|]; assumption.
Qed.

Lemma first_keyword_none kws tl ml :
  first_keyword kws tl ml = None -> forall kw, In kw kws -> found kw tl ml = false.
Proof.
  induction kws as [|k kws IH]; cbn [first_keyword]; [intros _ kw []|].
  destruct (found k tl ml) eqn:E; [discriminate|].
  intros H kw [<-|Hin]; auto.
Qed.

Lemma first_rule_some rs tl ml res :
  first_rule rs tl ml = Some res ->
  exists r kw, In r rs /\ In kw (rule_keywords r) /\ found kw tl ml = true
               /\ res = MkCategory (rule_category r) "high" (rule_reason r kw ml).
Proof.
  induction rs as [|r rs IH]; cbn [first_rule]; [discriminate|].
  destruct (first_keyword (rule_keywords r) tl ml) as [kw|] eqn:E.
  - intros H; inversion H; subst.
    apply first_keyword_some in E as [Hin Hf].
    exists r, kw; repeat split; auto; left; reflexivity.
  - intros H; destruct (IH H) as (r' & kw & Hr & Hk & Hf & ->).
    exists r', kw; repeat split; auto; right; exact Hr.
Qed.

Lemma first_rule_none rs tl ml :
  first_rule rs tl ml = None ->
  forall r kw, In r rs -> In kw (rule_keywords r) -> found kw tl ml = false.
Proof.
  induction rs as [|r rs IH]; cbn [first_rule]; [intros _ ? ? []|].
  destruct (first_keyword (rule_keywords r) tl ml) as [kw|] eqn:E; [discriminate|].
  intros H r' kw [<-|Hr] Hk; [exact (first_keyword_none _ _ _ E kw Hk) | eauto].
Qed.

(** C1.  A text or merchant that holds "hotel" is categorized as
    Accommodation with confidence "high", whatever else it holds (the word
    "restaurant" included): the accommodation keywords are tried first and
    "hotel" is the first of them. *)
Theorem hotel_is_accommodation (text : Py.text) (merchant : option Py.text) :
  found "hotel" (lower text)
        (lower (match merchant with Some mr => mr | None => [] end)) = true ->
  categorize_expense text merchant
  = MkCategory "Accommodation" "high"
      ("Found accommodation keyword 'hotel' in "
       ++ place "hotel" (lower (match merchant with Some mr => mr | None => [] end))).
Proof.
  intros H; unfold categorize_expense, rules.
  cbn [first_rule rule_keywords]; unfold accommodation_keywords at 1.
  cbn [first_keyword]; rewrite H; reflexivity.
Qed.

(** C1 on a text with both words: "restaurant" is found in it, and the
    category is Accommodation. *)
Lemma hotel_restaurant_is_accommodation :
  found "restaurant" (lower (utf8 "Hotel Taj Restaurant")) [] = true
  /\ categorize_expense (utf8 "Hotel Taj Restaurant") None
     = MkCategory "Accommodation" "high"
         "Found accommodation keyword 'hotel' in receipt text".
Proof.
  split; [vm_compute; reflexivity|].
  rewrite (hotel_is_accommodation (utf8 "Hotel Taj Restaurant") None);
    vm_compute; reflexivity.
Defined.

(** C6.  [categorize_expense] always returns: "Other" with confidence
    "low" when no keyword of any rule is in the lowered text or
    merchant, and otherwise the category of a rule with confidence
    "high" and a reason that names a keyword of that rule which was
    found, and the merchant name or the receipt text as its place. *)
Theorem categorize_expense_total (text : Py.text) (merchant : option Py.text) :
  let text_lower := lower text in
  let merchant_lower := lower (match merchant with Some mr => mr | None => [] end) in
  ((forall r kw, In r rules -> In kw (rule_keywords r) ->
                 found kw text_lower merchant_lower = false)
   /\ categorize_expense text merchant
      = MkCategory "Other" "low"
          "Could not determine category from available information - no matching keywords found")
  \/ (exists r kw,
        In r rules /\ In kw (rule_keywords r)
        /\ found kw text_lower merchant_lower = true
        /\ categorize_expense text merchant
           = MkCategory (rule_category r) "high"
               ("Found " ++ rule_label r ++ " keyword '" ++ kw ++ "' in "
                ++ (if contains (utf8 kw) merchant_lower
                    then "merchant name" else "receipt text"))).
Proof.
  cbv zeta; unfold categorize_expense.
  destruct (first_rule rules (lower text) _) as [res|] eqn:E.
  - right; apply first_rule_some in E as (r & kw & Hr & Hk & Hf & ->).
    exists r, kw; repeat split; auto.
  - left; split; [exact (first_rule_none _ _ _ E) | reflexivity].
Qed.
End CategoryClaims.

(** ** The orchestrator *)

Section PipelineClaims.
Import Py Re Datetime Value ReceiptProcessor.
Local Open Scope string_scope.

Lemma extract_date_not_empty text s : extract_date text = Some s -> s <> [].
Proof. apply first_date_not_empty. Qed.

Lemma or_else_date text today :
  or_else (extract_date text) today
  = match extract_date text with Some s => s | None => today end.
Proof.
  destruct (extract_date text) as [s|] eqn:E; [|reflexivity].
  apply extract_date_not_empty in E; destruct s; [congruence | reflexivity].
Qed.

(** What [process_receipt] returns once the image was preprocessed and
    the OCR read a text. *)
Lemma process_receipt_on_text image processed ocr text today :
  preprocess_image image = Ok processed -> ocr = Ok text -> text <> [] ->
  process_receipt image ocr today
  = if falsy_amount (extract_amount text) then missing_amount text
    else
      let merchant := extract_merchant text in
      let items := extract_line_items text in
      let merchant_or_empty := match merchant with Some mr => mr | None => [] end in
      let category_result := categorize_expense text (Some merchant_or_empty) in
      [ ("amount", opt_float (extract_amount text));
        ("date", VStr (or_else (extract_date text) today));
        ("merchant", opt_str merchant);
        ("category", VStr (utf8 (category category_result)));
        ("category_confidence", VStr (utf8 (confidence category_result)));
        ("category_reason", VStr (utf8 (reason category_result)));
        ("description",
         VStr (generate_description merchant_or_empty items (category category_result)));
        ("items", VItems items);
        ("raw_text", VStr text);
        ("needs_confirmation", VBool (String.eqb (confidence category_result) "low"));
        ("success", VBool true) ].
Proof.
  intros Hp -> Hne; unfold process_receipt, process_body.
  rewrite Hp; destruct text as [|c text]; [congruence|].
  unfold extract_text; cbn [bind].
  destruct (falsy_amount (extract_amount (c :: text))); reflexivity.
Qed.

(** Every other run ends in a failure without [success = True]. *)
Lemma process_receipt_success image ocr today :
  get (process_receipt image ocr today) "success" = Some (VBool true) ->
  exists processed text,
    preprocess_image image = Ok processed /\ ocr = Ok text /\ text <> []
    /\ falsy_amount (extract_amount text) = false.
Proof.
  unfold process_receipt, process_body.
  destruct (preprocess_image image) as [processed|e] eqn:Hp; cbn [bind].
  - unfold extract_text.
    destruct ocr as [[|c text]|e]; cbn [bind].
    + intros H; discriminate H.
    + destruct (falsy_amount (extract_amount (c :: text))) eqn:Hf.
      * intros H; discriminate H.
      * intros _; exists processed, (c :: text); repeat split; auto; discriminate.
    + intros H; discriminate H.
  - destruct e; intros H; discriminate H.
Qed.

Lemma clipped_length text : (List.length (clipped text) <= 503)%nat.
Proof.
  unfold clipped; destruct (Nat.ltb_spec 500 (List.length text)).
  - rewrite length_app, length_firstn.
    change (List.length (utf8 "...")) with 3%nat; lia.
  - lia.
Qed.

(** C2.  A result with [success = True] holds the amount extracted from
    the OCR text, which is not [None], and a date: the extracted one, or
    the processing date when none was extracted.  When the OCR read a
    text and no amount was extracted from it, the result is the
    validation failure, with the first 500 characters of the text and
    an ellipsis, or the whole text when it is no longer than that. *)
Theorem process_receipt_amount_and_date image ocr today :
  let d := process_receipt image ocr today in
  (get d "success" = Some (VBool true) ->
   exists text a,
     ocr = Ok text /\ extract_amount text = Some a
     /\ get d "amount" = Some (VFloat a)
     /\ get d "date"
        = Some (VStr (match extract_date text with Some s => s | None => today end)))
  /\ (forall processed text,
        preprocess_image image = Ok processed -> ocr = Ok text -> text <> [] ->
        extract_amount text = None ->
        get d "success" = Some (VBool false)
        /\ get d "error_type" = Some (VStr (utf8 "validation"))
        /\ get d "raw_text"
           = Some (VStr (if (500 <? List.length text)%nat
                         then (firstn 500 text ++ utf8 "...")%list else text))
        /\ get d "amount" = None).
Proof.
  cbv zeta; split.
  - intros H.
    destruct (process_receipt_success _ _ _ H) as (processed & text & Hp & Ho & Hne & Hf).
    rewrite (process_receipt_on_text _ _ _ _ today Hp Ho Hne), Hf.
    destruct (extract_amount text) as [a|] eqn:Ha; [|discriminate Hf].
    exists text, a; repeat split; auto.
    cbv zeta; cbn [get String.eqb Ascii.eqb Bool.eqb].
    now rewrite or_else_date.
  - intros processed text Hp Ho Hne Ha.
    rewrite (process_receipt_on_text _ _ _ _ today Hp Ho Hne), Ha.
    repeat split.
Qed.

(** C2 on a receipt whose text has no date. *)
Lemma process_receipt_amount_and_date_example :
  exists text a,
    Ok (utf8 "GRAND TOTAL: ₹649.00") = Ok text
    /\ extract_amount text = Some a
    /\ get (process_receipt (MkImage 2000 (Ok (Some (utf8 "PNG"))) (Some (1200, 1600)%Z))
                            (Ok (utf8 "GRAND TOTAL: ₹649.00")) (utf8 "2026-11-03"))
           "amount" = Some (VFloat a)
    /\ get (process_receipt (MkImage 2000 (Ok (Some (utf8 "PNG"))) (Some (1200, 1600)%Z))
                            (Ok (utf8 "GRAND TOTAL: ₹649.00")) (utf8 "2026-11-03"))
           "date"
       = Some (VStr (match extract_date text with
                     | Some s => s
                     | None => utf8 "2026-11-03"
                     end)).
Proof.
  apply (proj1 (process_receipt_amount_and_date
                  (MkImage 2000 (Ok (Some (utf8 "PNG"))) (Some (1200, 1600)%Z))
                  (Ok (utf8 "GRAND TOTAL: ₹649.00")) (utf8 "2026-11-03"))).
  vm_compute; reflexivity.
Defined.

Lemma is_zero_iff a : is_zero a = true <-> (a == 0)%Q.
Proof.
  unfold is_zero, Qeq; simpl; rewrite Z.eqb_eq; lia.
Qed.

(** C9.  When the amount extracted is zero, [process_receipt] returns
    the dictionary of the missing amount, as it does when nothing was
    extracted. *)
Theorem zero_amount_is_missing image processed ocr text today a :
  preprocess_image image = Ok processed -> ocr = Ok text ->
  extract_amount text = Some a -> (a == 0)%Q ->
  process_receipt image ocr today = missing_amount text
  /\ get (process_receipt image ocr today) "success" = Some (VBool false)
  /\ get (process_receipt image ocr today) "error_type" = Some (VStr (utf8 "validation")).
Proof.
  intros Hp Ho Ha Hz.
  assert (Hne : text <> []) by (intros ->; vm_compute in Ha; discriminate).
  rewrite (process_receipt_on_text _ _ _ _ today Hp Ho Hne), Ha.
  cbn [falsy_amount]; apply is_zero_iff in Hz; rewrite Hz.
  repeat split.
Qed.

(** The same dictionary when nothing was extracted. *)
Lemma no_amount_is_missing image processed ocr text today :
  preprocess_image image = Ok processed -> ocr = Ok text -> text <> [] ->
  extract_amount text = None ->
  process_receipt image ocr today = missing_amount text.
Proof.
  intros Hp Ho Hne Ha.
  now rewrite (process_receipt_on_text _ _ _ _ today Hp Ho Hne), Ha.
Qed.

(** C9 on a receipt whose only total is zero. *)
Lemma zero_total_receipt :
  extract_amount (utf8 "Total: 0.00") = Some (0 # 100)
  /\ process_receipt (MkImage 2000 (Ok (Some (utf8 "PNG"))) (Some (1200, 1600)%Z))
                     (Ok (utf8 "Total: 0.00")) (utf8 "2026-11-03")
     = missing_amount (utf8 "Total: 0.00").
Proof.
  split; [vm_compute; reflexivity|].
  apply (zero_amount_is_missing
           (MkImage 2000 (Ok (Some (utf8 "PNG"))) (Some (1200, 1600)%Z))
           (MkProcessed 1200 1600 25 15) (Ok (utf8 "Total: 0.00")) (utf8 "Total: 0.00")
           (utf8 "2026-11-03") (0 # 100));
    vm_compute; reflexivity.
Defined.
End PipelineClaims.

(** ** Floating-point rounding *)

Section FloatFacts.
Import Float.
Local Open Scope Q_scope.

Lemma half_even_floor y : (Qfloor y <= half_even y <= Qfloor y + 1)%Z.
Proof.
  unfold half_even.
  destruct (Qcompare (y - inject_Z (Qfloor y)) (1 # 2)); [destruct (Z.even _)| |]; lia.
Qed.

Lemma half_even_ge (K : Z) y : inject_Z K <= y -> (K <= half_even y)%Z.
Proof.
  intros H; apply Qfloor_resp_le in H; rewrite Qfloor_Z in H.
  pose proof (half_even_floor y); lia.
Qed.

Lemma half_even_le (K : Z) y : y <= inject_Z K -> (half_even y <= K)%Z.
Proof.
  intros H.
  pose proof (Qfloor_resp_le _ _ H) as Hf; rewrite Qfloor_Z in Hf.
  destruct (Z.eq_dec (Qfloor y) K) as [E|E].
  - unfold half_even.
    destruct (Qcompare (y - inject_Z (Qfloor y)) (1 # 2)) eqn:C; [|lia|].
    + apply Qeq_alt in C; rewrite E in C; lra.
    + apply Qgt_alt in C; rewrite E in C; lra.
  - pose proof (half_even_floor y); lia.
Qed.

Lemma half_even_near y :
  y - (1 # 2) <= inject_Z (half_even y) <= y + (1 # 2).
Proof.
  pose proof (Qfloor_le y) as Hlo.
  pose proof (Qlt_floor y) as Hhi.
  rewrite inject_Z_plus in Hhi; change (inject_Z 1) with 1 in Hhi.
  unfold half_even.
  destruct (Qcompare (y - inject_Z (Qfloor y)) (1 # 2)) eqn:E.
  - apply Qeq_alt in E.
    destruct (Z.even (Qfloor y));
      [|rewrite inject_Z_plus; change (inject_Z 1) with 1]; lra.
  - apply Qlt_alt in E; lra.
  - apply Qgt_alt in E; rewrite inject_Z_plus; change (inject_Z 1) with 1; lra.
Qed.

Lemma two_neq_0 : ~ 2 == 0.
Proof. intros H; discriminate H. Qed.

Lemma pow2_pos (e : Z) : 0 < 2 ^ e.
Proof. apply Qpower_0_lt; reflexivity. Qed.

Lemma Qfrac_le (A B a b : Z) :
  (0 < B)%Z -> (0 < b)%Z -> (A * b <= a * B)%Z ->
  inject_Z A / inject_Z B <= inject_Z a / inject_Z b.
Proof.
  intros HB Hb H.
  assert (HB' : 0 < inject_Z B) by (rewrite <- (Zlt_Qlt 0); exact HB).
  assert (Hb' : 0 < inject_Z b) by (rewrite <- (Zlt_Qlt 0); exact Hb).
  apply Qle_shift_div_r; [exact HB'|].
  unfold Qdiv; rewrite <- Qmult_assoc, (Qmult_comm (/ _)), Qmult_assoc.
  apply Qle_shift_div_l; [exact Hb'|].
  rewrite <- !inject_Z_mult, <- Zle_Qle; exact H.
Qed.

Lemma ilog2_lower x : 0 < x -> 2 ^ ilog2 x <= x.
Proof.
  intros Hx; unfold ilog2.
  destruct (Qle_bool (2 ^ (Z.log2 (Qnum x) - Z.log2 (Z.pos (Qden x)))) x) eqn:E.
  - now apply Qle_bool_iff.
  - clear E; destruct x as [a b]; cbn [Qnum Qden].
    assert (Ha : (0 < a)%Z) by (unfold Qlt in Hx; simpl in Hx; lia).
    destruct (Z.log2_spec _ Ha) as [Hla _].
    destruct (Z.log2_spec (Z.pos b) (Pos2Z.is_pos _)) as [_ Hlb].
    pose proof (Z.log2_nonneg a) as Hla0.
    pose proof (Z.log2_nonneg (Z.pos b)) as Hlb0.
    set (la := Z.log2 a) in *.
    set (lb := Z.log2 (Z.pos b)) in *.
    replace (la - lb - 1)%Z with (la - (lb + 1))%Z by lia.
    rewrite Qpower_minus by exact two_neq_0.
    change 2 with (inject_Z 2).
    rewrite <- !Zpower_Qpower by lia.
    rewrite (Qmake_Qdiv a b).
    apply Qfrac_le.
    + apply Z.pow_pos_nonneg; lia.
    + lia.
    + replace (Z.succ lb) with (lb + 1)%Z in Hlb by lia.
      assert (0 < 2 ^ la)%Z by (apply Z.pow_pos_nonneg; lia).
      nia.
Qed.

Lemma ilog2_below x (n : Z) : 0 < x -> x < 2 ^ n -> (ilog2 x < n)%Z.
Proof.
  intros Hx Hn.
  apply (Qpower_lt_compat_l_inv 2); [|reflexivity].
  eapply Qle_lt_trans; [apply ilog2_lower; exact Hx | exact Hn].
Qed.

Lemma fl_positive x : 0 < x -> fl x = fl_pos x.
Proof.
  intros H; unfold fl.
  assert (E : Qcompare x 0 = Gt) by (apply Qgt_alt; exact H).
  now rewrite E.
Qed.

(** The grid of the doubles near [x]: multiples of [2^e]. *)
Lemma grid_point (J j e : Z) :
  (0 <= j)%Z -> (e + j <= 0)%Z ->
  inject_Z (J * 2 ^ (- j - e)) * 2 ^ e == inject_Z J / 2 ^ j.
Proof.
  intros Hj He.
  rewrite inject_Z_mult, Zpower_Qpower by lia.
  change (inject_Z 2) with 2.
  rewrite <- Qmult_assoc, <- Qpower_plus by exact two_neq_0.
  replace (- j - e + e)%Z with (- j)%Z by lia.
  rewrite Qpower_opp; reflexivity.
Qed.

Lemma fl_pos_upper x (J j : Z) :
  0 < x -> (0 <= j)%Z -> x <= inject_Z J / 2 ^ j -> x < 2 ^ (52 - j) ->
  fl_pos x <= inject_Z J / 2 ^ j.
Proof.
  intros Hx Hj Hle Hlt; unfold fl_pos.
  pose proof (ilog2_below x _ Hx Hlt) as He.
  set (e := (ilog2 x - 52)%Z) in *.
  assert (Hg := grid_point J j e Hj ltac:(lia)).
  rewrite <- Hg in *.
  apply Qmult_le_compat_r; [|apply Qlt_le_weak, pow2_pos].
  rewrite <- Zle_Qle; apply half_even_le.
  apply Qle_shift_div_r; [apply pow2_pos | exact Hle].
Qed.

Lemma fl_pos_lower x (J j : Z) :
  0 < x -> (0 <= j)%Z -> inject_Z J / 2 ^ j <= x -> x < 2 ^ (52 - j) ->
  inject_Z J / 2 ^ j <= fl_pos x.
Proof.
  intros Hx Hj Hle Hlt; unfold fl_pos.
  pose proof (ilog2_below x _ Hx Hlt) as He.
  set (e := (ilog2 x - 52)%Z) in *.
  assert (Hg := grid_point J j e Hj ltac:(lia)).
  rewrite <- Hg in *.
  apply Qmult_le_compat_r; [|apply Qlt_le_weak, pow2_pos].
  rewrite <- Zle_Qle; apply half_even_ge.
  apply Qle_shift_div_l; [apply pow2_pos | exact Hle].
Qed.

Lemma fl_pos_relative x :
  0 < x -> x * (1 - half_ulp) <= fl_pos x <= x * (1 + half_ulp).
Proof.
  intros Hx; unfold fl_pos.
  set (e := (ilog2 x - 52)%Z).
  pose proof (pow2_pos e) as HP.
  assert (Hne : ~ 2 ^ e == 0) by (intros E; rewrite E in HP; discriminate HP).
  set (y := x / 2 ^ e).
  assert (Hxy : x == y * 2 ^ e) by (unfold y; field; exact Hne).
  assert (Hy : 4503599627370496 <= y).
  { unfold y; apply Qle_shift_div_l; [exact HP|].
    change 4503599627370496 with (2 ^ 52).
    rewrite <- Qpower_plus by exact two_neq_0.
    replace (52 + e)%Z with (ilog2 x) by (unfold e; lia).
    apply ilog2_lower; exact Hx. }
  destruct (half_even_near y) as [Hlo Hhi].
  unfold half_ulp; split.
  - setoid_replace (x * (1 - (1 # 9007199254740992)))
      with (y * (1 - (1 # 9007199254740992)) * 2 ^ e) by (rewrite Hxy; ring).
    apply Qmult_le_compat_r; [lra | apply Qlt_le_weak, HP].
  - setoid_replace (x * (1 + (1 # 9007199254740992)))
      with (y * (1 + (1 # 9007199254740992)) * 2 ^ e) by (rewrite Hxy; ring).
    apply Qmult_le_compat_r; [lra | apply Qlt_le_weak, HP].
Qed.

Lemma Qfloor_between (k : Z) v :
  inject_Z k <= v -> v < inject_Z (k + 1) -> Qfloor v = k.
Proof.
  intros Hlo Hhi.
  apply Qfloor_resp_le in Hlo; rewrite Qfloor_Z in Hlo.
  pose proof (Qfloor_le v) as Hf.
  assert (H : inject_Z (Qfloor v) < inject_Z (k + 1)) by (eapply Qle_lt_trans; eauto).
  rewrite <- Zlt_Qlt in H; lia.
Qed.

Lemma trunc_nonneg v : 0 <= v -> trunc v = Qfloor v.
Proof.
  intros H; unfold trunc.
  apply Qle_bool_iff in H; now rewrite H.
Qed.

Lemma qz_le a b : (a <= b)%Z -> qz a <= qz b.
Proof. unfold qz; now rewrite <- Zle_Qle. Qed.

Lemma qz_lt a b : (a < b)%Z -> qz a < qz b.
Proof. unfold qz; now rewrite <- Zlt_Qlt. Qed.

Section Scaling.
Variables T m : Z.
Hypothesis HT : (1 <= T <= 4096)%Z.
Hypothesis Hm : (1 <= m)%Z.

Let scale := fdiv (qz T) (qz m).

Lemma scale_bounds :
  qz T / qz m * (1 - half_ulp) <= scale <= qz T / qz m * (1 + half_ulp).
Proof.
  assert (Hq : 0 < qz T / qz m).
  { apply Qlt_shift_div_l; [apply (qz_lt 0); lia|].
    rewrite Qmult_0_l; apply (qz_lt 0); lia. }
  unfold scale, fdiv; rewrite fl_positive by exact Hq.
  apply fl_pos_relative; exact Hq.
Qed.

Lemma scaled_bounds d :
  (1 <= d <= m)%Z ->
  0 < qz d * scale <= qz T + (1 # 1048576).
Proof.
  intros Hd; destruct scale_bounds as [Hlo Hhi].
  assert (HTq : 1 <= qz T <= 4096)
    by (split; [apply (qz_le 1) | apply (qz_le _ 4096)]; lia).
  assert (Hmq : 0 < qz m) by (apply (qz_lt 0); lia).
  assert (Hdq : 0 < qz d <= qz m)
    by (split; [apply (qz_lt 0) | apply qz_le]; lia).
  assert (Hq : 0 < qz T / qz m) by (apply Qlt_shift_div_l; lra).
  assert (Hs : 0 < scale) by (unfold half_ulp in Hlo; nra).
  split; [nra|].
  apply Qle_trans with (qz m * scale); [nra|].
  apply Qle_trans with (qz m * (qz T / qz m * (1 + half_ulp))); [nra|].
  setoid_replace (qz m * (qz T / qz m * (1 + half_ulp)))
    with (qz T * (1 + half_ulp)) by (field; lra).
  unfold half_ulp; lra.
Qed.

Lemma scaled_side_upper d :
  (1 <= d <= m)%Z -> (trunc (fmul (qz d) scale) <= T)%Z.
Proof.
  intros Hd; destruct (scaled_bounds d Hd) as [Hpos Hle].
  assert (HTq : 1 <= qz T <= 4096)
    by (split; [apply (qz_le 1) | apply (qz_le _ 4096)]; lia).
  unfold fmul; rewrite fl_positive by exact Hpos.
  assert (Hup : fl_pos (qz d * scale) <= inject_Z (T * 1048576 + 1) / 2 ^ 20).
  { apply fl_pos_upper; [exact Hpos | lia | |].
    - rewrite inject_Z_plus, inject_Z_mult.
      change (2 ^ 20) with 1048576; change (inject_Z 1048576) with 1048576.
      change (inject_Z 1) with 1; fold (qz T).
      apply Qle_shift_div_l; [reflexivity | lra].
    - change (2 ^ (52 - 20)) with 4294967296; lra. }
  assert (Hlow : 0 <= fl_pos (qz d * scale)).
  { apply Qle_trans with (inject_Z 0 / 2 ^ 0); [discriminate|].
    apply fl_pos_lower; [exact Hpos | lia | |].
    - apply Qlt_le_weak; exact Hpos.
    - change (2 ^ (52 - 0)) with 4503599627370496; lra. }
  rewrite trunc_nonneg by exact Hlow.
  assert (H : inject_Z (Qfloor (fl_pos (qz d * scale))) < inject_Z (T + 1)).
  { eapply Qle_lt_trans; [apply Qfloor_le|].
    eapply Qle_lt_trans; [exact Hup|].
    rewrite !inject_Z_plus, inject_Z_mult.
    change (2 ^ 20) with 1048576; change (inject_Z 1048576) with 1048576.
    change (inject_Z 1) with 1; fold (qz T).
    apply Qlt_shift_div_r; [reflexivity | lra]. }
  rewrite <- Zlt_Qlt in H; lia.
Qed.

Lemma scaled_longer_lower :
  (T - 1 <= trunc (fmul (qz m) scale))%Z.
Proof.
  destruct (scaled_bounds m ltac:(lia)) as [Hpos Hle].
  destruct scale_bounds as [Hlo _].
  assert (HTq : 1 <= qz T <= 4096)
    by (split; [apply (qz_le 1) | apply (qz_le _ 4096)]; lia).
  assert (Hmq : 0 < qz m) by (apply (qz_lt 0); lia).
  assert (Hge : qz T * (1 - half_ulp) <= qz m * scale).
  { setoid_replace (qz T * (1 - half_ulp))
      with (qz m * (qz T / qz m * (1 - half_ulp))) by (field; lra).
    nra. }
  unfold fmul; rewrite fl_positive by exact Hpos.
  assert (Hdown : inject_Z (T * 1048576 - 1) / 2 ^ 20 <= fl_pos (qz m * scale)).
  { apply fl_pos_lower; [exact Hpos | lia | |].
    - unfold Zminus; rewrite inject_Z_plus, inject_Z_mult.
      change (2 ^ 20) with 1048576; change (inject_Z 1048576) with 1048576.
      change (inject_Z (- (1))) with (- (1)); fold (qz T).
      apply Qle_shift_div_r; [reflexivity|].
      unfold half_ulp in Hge; lra.
    - change (2 ^ (52 - 20)) with 4294967296; lra. }
  assert (Hlow : inject_Z (T - 1) <= fl_pos (qz m * scale)).
  { eapply Qle_trans; [|exact Hdown].
    unfold Zminus; rewrite !inject_Z_plus, inject_Z_mult.
    change (2 ^ 20) with 1048576; change (inject_Z 1048576) with 1048576.
    change (inject_Z (- (1))) with (- (1)); fold (qz T).
    apply Qle_shift_div_l; [reflexivity | lra]. }
  rewrite trunc_nonneg.
  - apply Qfloor_resp_le in Hlow; now rewrite Qfloor_Z in Hlow.
  - eapply Qle_trans; [|exact Hlow].
    apply (qz_le 0); lia.
Qed.
End Scaling.

Lemma fl_two_hundredths : fl (2 # 100) = 5764607523034235 # 288230376151711744.
Proof. vm_compute; reflexivity. Qed.

(** [int(n * 0.02)] is [n // 50] for every size an image can have. *)
Lemma fiftieth (n : Z) :
  (1 <= n < 2 ^ 31)%Z -> trunc (fmul (qz n) (fl (2 # 100))) = (n / 50)%Z.
Proof.
  intros Hn; rewrite fl_two_hundredths.
  change (2 ^ 31)%Z with 2147483648%Z in Hn.
  pose proof (Z.div_mod n 50 ltac:(lia)) as Hdiv.
  pose proof (Z.mod_pos_bound n 50 ltac:(lia)) as Hr.
  set (k := (n / 50)%Z) in *; set (r := (n mod 50)%Z) in *.
  clearbody k r.
  assert (Hnq : qz n == 50 * qz k + qz r).
  { unfold qz; rewrite Hdiv at 1.
    now rewrite inject_Z_plus, inject_Z_mult. }
  assert (Hk : 0 <= qz k <= 42949672).
  { split; [apply (qz_le 0) | apply (qz_le _ 42949672)]; lia. }
  assert (Hrq : 0 <= qz r <= 49).
  { split; [apply (qz_le 0) | apply (qz_le _ 49)]; lia. }
  assert (Hn1 : 1 <= qz n) by (apply (qz_le 1); lia).
  unfold fmul.
  set (x := qz n * (5764607523034235 # 288230376151711744)).
  assert (Hx : x == qz n * (5764607523034235 # 288230376151711744)) by reflexivity.
  clearbody x.
  assert (Hpos : 0 < x) by lra.
  rewrite fl_positive by exact Hpos.
  assert (Hlo : inject_Z k <= fl_pos x).
  { apply Qle_trans with (inject_Z k / 2 ^ 0).
    - change (2 ^ 0) with 1; unfold Qdiv; rewrite Qmult_1_r; apply Qle_refl.
    - apply fl_pos_lower; [exact Hpos | lia | |].
      + change (2 ^ 0) with 1; fold (qz k).
        apply Qle_shift_div_r; [reflexivity | lra].
      + change (2 ^ (52 - 0)) with 4503599627370496; lra. }
  assert (Hhi : fl_pos x <= inject_Z ((k + 1) * 1048576 - 1) / 2 ^ 20).
  { apply fl_pos_upper; [exact Hpos | lia | |].
    - unfold Zminus; rewrite inject_Z_plus, inject_Z_mult, inject_Z_plus.
      change (2 ^ 20) with 1048576; change (inject_Z 1048576) with 1048576.
      change (inject_Z (- (1))) with (- (1)); change (inject_Z 1) with 1.
      fold (qz k).
      apply Qle_shift_div_l; [reflexivity | lra].
    - change (2 ^ (52 - 20)) with 4294967296; lra. }
  rewrite trunc_nonneg by (fold (qz k) in Hlo; lra).
  apply Qfloor_between; [exact Hlo|].
  eapply Qle_lt_trans; [exact Hhi|].
  unfold Zminus; rewrite !inject_Z_plus, inject_Z_mult, inject_Z_plus.
  change (2 ^ 20) with 1048576; change (inject_Z 1048576) with 1048576.
  change (inject_Z (- (1))) with (- (1)); change (inject_Z 1) with 1.
  apply Qlt_shift_div_r; [reflexivity | lra].
Qed.

End FloatFacts.

(** ** The image normalizer *)

Section PreprocessClaims.
Import Py Re Float Value ReceiptProcessor.
Local Open Scope Z_scope.

(** What a successful [preprocess_image] computed. *)
Lemma preprocess_image_ok image out :
  preprocess_image image = Ok out ->
  exists h w,
    cv_shape image = Some (h, w) /\ 100 <= h /\ 100 <= w
    /\ block_size out = Z.max 3 (Z.lor (trunc (fmul (qz (Z.min h w)) (fl (2 # 100)))) 1)
    /\ offset out = 15
    /\ (Z.max h w < 1000 ->
        out_height out = trunc (fmul (qz h) (fdiv 1200 (qz (Z.max h w))))
        /\ out_width out = trunc (fmul (qz w) (fdiv 1200 (qz (Z.max h w)))))
    /\ (4000 < Z.max h w ->
        out_height out = trunc (fmul (qz h) (fdiv 4000 (qz (Z.max h w))))
        /\ out_width out = trunc (fmul (qz w) (fdiv 4000 (qz (Z.max h w)))))
    /\ (1000 <= Z.max h w <= 4000 -> out_height out = h /\ out_width out = w).
Proof.
  unfold preprocess_image.
  destruct (validate_image image) as [u|e]; [|discriminate].
  destruct (cv_shape image) as [[h w]|]; [|discriminate].
  destruct ((h <? 100) || (w <? 100)) eqn:Hsmall; [discriminate|].
  apply orb_false_iff in Hsmall as [Hh Hw].
  apply Z.ltb_ge in Hh; apply Z.ltb_ge in Hw.
  intros H; exists h, w.
  destruct (Z.ltb_spec (Z.max h w) 1000) as [Hlt|Hge].
  - unfold cv2_resize in H.
    destruct (_ || _) in H; [discriminate|].
    inversion H; subst out; cbn [out_height out_width block_size offset].
    repeat split; auto; lia.
  - destruct (Z.ltb_spec 4000 (Z.max h w)) as [Hbig|Hmid].
    + unfold cv2_resize in H.
      destruct (_ || _) in H; [discriminate|].
      inversion H; subst out; cbn [out_height out_width block_size offset].
      repeat split; auto; lia.
    + inversion H; subst out; cbn [out_height out_width block_size offset].
      repeat split; auto; lia.
Qed.

(** The longer side after scaling to the target [T]. *)
Lemma scaled_longer_side (T h w : Z) :
  1 <= T <= 4096 -> 1 <= h -> 1 <= w ->
  T - 1 <= Z.max (trunc (fmul (qz h) (fdiv (qz T) (qz (Z.max h w)))))
                 (trunc (fmul (qz w) (fdiv (qz T) (qz (Z.max h w))))) <= T.
Proof.
  intros HT Hh Hw.
  assert (Hm : 1 <= Z.max h w) by lia.
  pose proof (scaled_side_upper T (Z.max h w) HT Hm h ltac:(lia)) as Uh.
  pose proof (scaled_side_upper T (Z.max h w) HT Hm w ltac:(lia)) as Uw.
  pose proof (scaled_longer_lower T (Z.max h w) HT Hm) as L.
  destruct (Z.max_spec h w) as [[_ E]|[_ E]]; rewrite E in *; lia.
Qed.

(** C7, as amended.  When [preprocess_image] produces an image, its
    longer side is 1199 or 1200 for an input whose longer side is below
    1000, 3999 or 4000 for an input whose longer side is above 4000, and
    the input's size is kept otherwise. *)
Theorem resized_longer_side image out h w :
  preprocess_image image = Ok out -> cv_shape image = Some (h, w) ->
  let longer := Z.max h w in
  let out_longer := Z.max (out_height out) (out_width out) in
  (longer < 1000 -> 1199 <= out_longer <= 1200)
  /\ (4000 < longer -> 3999 <= out_longer <= 4000)
  /\ (1000 <= longer <= 4000 -> out_height out = h /\ out_width out = w).
Proof.
  intros Hok Hshape; cbv zeta.
  destruct (preprocess_image_ok image out Hok)
    as (h' & w' & Hs & Hh & Hw & _ & _ & Hup & Hdown & Hsame).
  rewrite Hshape in Hs; inversion Hs; subst h' w'; clear Hs.
  repeat split.
  - destruct (Hup H) as [-> ->].
    apply (scaled_longer_side 1200 h w); lia.
  - destruct (Hup H) as [-> ->].
    apply (scaled_longer_side 1200 h w); lia.
  - destruct (Hdown H) as [-> ->].
    apply (scaled_longer_side 4000 h w); lia.
  - destruct (Hdown H) as [-> ->].
    apply (scaled_longer_side 4000 h w); lia.
  - now apply Hsame.
  - now apply Hsame.
Qed.

(** C7, counterexample.  An image of 4210 by 3000 pixels comes out 3999
    pixels wide. *)
Lemma longer_side_3999 :
  preprocess_image (MkImage 2000 (Ok (Some (utf8 "PNG"))) (Some (3000, 4210)))
  = Ok (MkProcessed 2850 3999 61 15).
Proof. vm_compute; reflexivity. Qed.

(** C7 on an image of 640 by 480 pixels. *)
Lemma resized_longer_side_example :
  preprocess_image (MkImage 2000 (Ok (Some (utf8 "PNG"))) (Some (480, 640)))
  = Ok (MkProcessed 900 1200 9 15)
  /\ 1199 <= Z.max (out_height (MkProcessed 900 1200 9 15))
                    (out_width (MkProcessed 900 1200 9 15)) <= 1200.
Proof.
  assert (Hok : preprocess_image (MkImage 2000 (Ok (Some (utf8 "PNG"))) (Some (480, 640)))
                = Ok (MkProcessed 900 1200 9 15)) by (vm_compute; reflexivity).
  split; [exact Hok|].
  apply (proj1 (resized_longer_side _ _ 480 640 Hok eq_refl)).
  reflexivity.
Defined.

(** C8, as amended.  The block size of the adaptive threshold is
    [max(3, int(min(h, w) * 0.02) | 1)] for the height and width of the
    decoded input, before any rescaling: the fiftieth part of the shorter
    side, truncated, made odd, and at least 3.  The offset is 15. *)
Theorem block_size_of_input_shape image out h w :
  preprocess_image image = Ok out -> cv_shape image = Some (h, w) ->
  block_size out = Z.max 3 (Z.lor (trunc (fmul (qz (Z.min h w)) (fl (2 # 100)))) 1)
  /\ (Z.min h w < 2 ^ 31 -> block_size out = Z.max 3 (Z.lor (Z.min h w / 50) 1))
  /\ Z.odd (block_size out) = true
  /\ 3 <= block_size out
  /\ offset out = 15.
Proof.
  intros Hok Hshape.
  destruct (preprocess_image_ok image out Hok)
    as (h' & w' & Hs & Hh & Hw & Hb & Ho & _).
  rewrite Hshape in Hs; inversion Hs; subst h' w'; clear Hs.
  repeat split; auto; try (rewrite Hb; apply Z.le_max_l).
  - intros Hlt; rewrite Hb, fiftieth by lia; reflexivity.
  - rewrite Hb.
    assert (Hodd : forall z, Z.odd (Z.lor z 1) = true).
    { intros z; rewrite <- Z.bit0_odd, Z.lor_spec, !Z.bit0_odd.
      apply orb_true_r. }
    destruct (Z.max_spec 3 (Z.lor (trunc (fmul (qz (Z.min h w)) (fl (2 # 100)))) 1))
      as [[_ ->]|[_ ->]]; [apply Hodd | reflexivity].
Qed.

(** C8, counterexample.  An image of 180 by 180 pixels is thresholded at
    1200 by 1200 with block size 3, where the specification's formula gives
    25 for the image thresholded (and 5 for the input). *)
Lemma block_size_of_small_image :
  preprocess_image (MkImage 2000 (Ok (Some (utf8 "PNG"))) (Some (180, 180)))
  = Ok (MkProcessed 1200 1200 3 15)
  /\ claimed_block_size 1200 1200 = 25
  /\ claimed_block_size 180 180 = 5.
Proof. repeat split; vm_compute; reflexivity. Qed.

(** C8 on that image. *)
Lemma block_size_of_input_shape_example :
  preprocess_image (MkImage 2000 (Ok (Some (utf8 "PNG"))) (Some (180, 180)))
  = Ok (MkProcessed 1200 1200 3 15)
  /\ block_size (MkProcessed 1200 1200 3 15) = Z.max 3 (Z.lor (Z.min 180 180 / 50) 1).
Proof.
  assert (Hok : preprocess_image (MkImage 2000 (Ok (Some (utf8 "PNG"))) (Some (180, 180)))
                = Ok (MkProcessed 1200 1200 3 15)) by (vm_compute; reflexivity).
  split; [exact Hok|].
  apply (proj1 (proj2 (block_size_of_input_shape _ _ 180 180 Hok eq_refl))).
  reflexivity.
Defined.
End PreprocessClaims.

(** ** Further properties of the extractors and the orchestrator *)

Section MoreProperties.
Import Py Re Float Value ReceiptProcessor.

(** X2.  A valid image with a side below 100 pixels fails preprocessing as too
    small, and [process_receipt] reports it as a validation failure. *)
Theorem small_image_fails image h w ocr today :
  validate_image image = Ok tt -> cv_shape image = Some (h, w) ->
  (h < 100 \/ w < 100)%Z ->
  process_receipt image ocr today
  = failure (utf8 "Image preprocessing failed: Image too small (minimum 100x100 pixels)")
            "validation".
Proof.
  intros Hv Hs Hsmall; unfold process_receipt, process_body, preprocess_image.
  assert (Hb : ((h <? 100) || (w <? 100))%Z = true).
  { apply orb_true_iff; destruct Hsmall; [left | right]; now apply Z.ltb_lt. }
  rewrite Hv, Hs, Hb; cbn [bind].
  vm_compute; reflexivity.
Qed.

(** X2 on an image of 5 by 5 pixels. *)
Lemma small_image_fails_example :
  process_receipt (MkImage 120 (Ok (Some (utf8 "PNG"))) (Some (5, 5)%Z))
                  (Ok (utf8 "Total 5.00")) (utf8 "2026-11-03")
  = failure (utf8 "Image preprocessing failed: Image too small (minimum 100x100 pixels)")
            "validation".
Proof.
  apply (small_image_fails _ 5%Z 5%Z); [reflexivity | reflexivity | left; reflexivity].
Defined.

(** X12.  The cascade is first match wins: the rule that answers is the first
    one, in the order of [rules], that has a keyword in the text or the
    merchant, and the keyword named is the first such keyword of that
    rule. *)
Theorem first_matching_rule_wins text merchant before r after kw :
  rules = before ++ r :: after ->
  (forall r' kw', In r' before -> In kw' (rule_keywords r') ->
                  found kw' (lower text)
                        (lower (match merchant with Some mr => mr | None => [] end))
                  = false) ->
  first_keyword (rule_keywords r) (lower text)
                (lower (match merchant with Some mr => mr | None => [] end))
  = Some kw ->
  categorize_expense text merchant
  = MkCategory (rule_category r) "high"
      (rule_reason r kw (lower (match merchant with Some mr => mr | None => [] end))).
Proof.
  unfold categorize_expense; intros -> Hbefore Hkw.
  induction before as [|r0 before IH]; cbn [app first_rule].
  - now rewrite Hkw.
  - assert (H0 : first_keyword (rule_keywords r0) (lower text)
                   (lower (match merchant with Some mr => mr | None => [] end)) = None).
    { destruct (first_keyword (rule_keywords r0) _ _) as [k0|] eqn:E; [|reflexivity].
      apply first_keyword_some in E as [Hin Hf].
      rewrite (Hbefore r0 k0 (or_introl eq_refl) Hin) in Hf; discriminate. }
    rewrite H0; apply IH.
    intros r' kw' Hr'; apply Hbefore; right; exact Hr'.
Qed.

(** X12 on the text 'Family Dinner', where 'inn' is found inside 'Dinner'. *)
Lemma dinner_is_accommodation :
  categorize_expense (utf8 "Family Dinner") None
  = MkCategory "Accommodation" "high"
      "Found accommodation keyword 'inn' in receipt text".
Proof.
  apply (first_matching_rule_wins (utf8 "Family Dinner") None []
           (MkRule "Accommodation" "accommodation" accommodation_keywords)
           (tl rules) "inn"%string);
    [reflexivity | intros ? ? [] | vm_compute; reflexivity].
Defined.

End MoreProperties.

(** ** Bounds of the amount *)

Section AmountBounds.
Import Py Re ReceiptProcessor.

Lemma decimal_in_small zs c d : decimal_in zs c = Some d -> d < 10.
Proof.
  induction zs as [|z zs IH]; simpl; [discriminate|].
  destruct (N.leb_spec z c); destruct (N.ltb_spec c (z + 10)); simpl; auto.
  intros [= <-]; lia.
Qed.

Lemma digits_value_bound w : forall acc v,
  digits_value acc w = Some v ->
  acc * Npos (pow10 (List.length w)) <= v < (acc + 1) * Npos (pow10 (List.length w)).
Proof.
  induction w as [|c w IH]; intros acc v; cbn [digits_value List.length pow10].
  - intros [= <-]; lia.
  - destruct (decimal_value c) as [d|] eqn:E; [|discriminate].
    apply decimal_in_small in E.
    intros H; apply IH in H.
    change (Npos (10 * pow10 (List.length w))) with (10 * Npos (pow10 (List.length w))).
    set (P := Npos (pow10 (List.length w))) in *; clearbody P.
    split.
    { apply N.le_trans with ((10 * acc + d) * P); [|tauto].
      replace (acc * (10 * P)) with ((10 * acc) * P) by lia.
      apply N.mul_le_mono_r; lia. }
    apply N.lt_le_trans with ((10 * acc + d + 1) * P); [tauto|].
    replace ((acc + 1) * (10 * P)) with ((10 * acc + 10) * P) by lia.
    apply N.mul_le_mono_r; lia.
Qed.

(** The value [float] reads from digits, or digits, a point and digits. *)
Lemma py_float_value (ip : text) (fp : option text) q :
  all_decimal ip ->
  match fp with Some f => all_decimal f | None => True end ->
  py_float (ip ++ match fp with Some f => point :: f | None => [] end) = Some q ->
  exists i f,
    digits_value 0 ip = Some i
    /\ f < Npos (pow10 (List.length (match fp with Some f => f | None => [] end)))
    /\ q = Qmake (Z.of_N (i * Npos (pow10 (List.length (match fp with Some f => f | None => [] end))) + f))
                 (pow10 (List.length (match fp with Some f => f | None => [] end))).
Proof.
  intros Hip Hfp; unfold py_float.
  rewrite split_point_digits by assumption.
  destruct (digits_value_some ip Hip 0) as (i & Hi).
  destruct fp as [f|]; simpl.
  - rewrite app_nil_r, Hi.
    destruct (digits_value_some f Hfp 0) as (v & Hv); rewrite Hv.
    destruct (ip ++ f); [discriminate|].
    intros [= <-]; exists i, v; repeat split; auto.
    apply digits_value_bound in Hv; lia.
  - rewrite !app_nil_r, Hi.
    destruct ip; [discriminate|].
    intros [= <-]; exists i, 0; repeat split; auto; lia.
Qed.

Lemma py_float_nonneg s q : py_float s = Some q -> (0 <= q)%Q.
Proof.
  unfold py_float.
  destruct (split_point s) as [ip fp].
  destruct (ip ++ _); [discriminate|].
  destruct (digits_value 0 ip); [|discriminate].
  destruct (digits_value 0 _); [|discriminate].
  intros [= <-]; unfold Qle; simpl; lia.
Qed.

Variable flag : bool.

Lemma lang_digits_at_most lo hi w :
  lang flag (Repeat lo (Some hi) digit) w -> (List.length w <= hi)%nat.
Proof.
  cbn [lang]; intros (ws & -> & Hall & _ & Hhi).
  assert (H : List.length (List.concat ws) = List.length ws).
  { clear Hhi; induction Hall as [|x ws Hx _ IH]; simpl; auto.
    destruct Hx as (c & -> & _); simpl; congruence. }
  lia.
Qed.

Lemma lang_thousands_comma w :
  lang flag (star (Cat (Lit comma) (times 3 3 digit))) w ->
  w = [] \/ In comma w.
Proof.
  unfold star, times; cbn [lang]; intros (ws & -> & Hall & _).
  destruct Hall as [|x ws Hx _]; [left; reflexivity | right].
  destruct Hx as (w1 & w2 & -> & (c & -> & Hc) & _).
  apply lit_match_low in Hc; [subst c | lia].
  simpl; auto.
Qed.

(** A token without a thousands separator is below 1000. *)
Lemma amount_token_bounds w a :
  lang flag amount_token w -> parse_amount w = Some a ->
  (0 <= a)%Q /\ (~ In comma w -> (a < 1000)%Q).
Proof.
  intros Hw Ha; split; [eapply py_float_nonneg; exact Ha|].
  intros Hno; revert Hw Ha Hno.
  unfold amount_token, seq; cbn [lang].
  intros (w1 & w23 & -> & H1 & w2 & w3 & -> & H2 & H3) Ha Hno.
  apply lang_digits_at_most in H1 as Hlen.
  apply lang_digits in H1 as [H1 _].
  apply lang_thousands_comma in H2 as [-> | Hc];
    [|exfalso; apply Hno; apply in_or_app; right; apply in_or_app; left; exact Hc].
  apply lang_fraction in H3.
  simpl in Ha; unfold parse_amount in Ha.
  rewrite remove_char_app, (remove_comma_digits _ H1) in Ha.
  assert (Hq : exists fp, match fp with Some f => all_decimal f | None => True end
                          /\ remove_char comma w3
                             = match fp with Some f => point :: f | None => [] end).
  { destruct H3 as [-> | (ds & -> & Hds)].
    - exists None; auto.
    - exists (Some ds); split; auto.
      simpl; now rewrite (remove_comma_digits _ Hds). }
  destruct Hq as (fp & Hfp & E); rewrite E in Ha.
  apply py_float_value in Ha as (i & f & Hi & Hf & ->); auto.
  apply digits_value_bound in Hi.
  assert (Hp : Npos (pow10 (List.length w1)) <= 1000).
  { destruct w1 as [|? [|? [|? [|? ?]]]]; simpl in Hlen; try lia; simpl; lia. }
  unfold Qlt; simpl.
  set (den := pow10 _) in *.
  nia.
Qed.
End AmountBounds.

Section Substrings.
Import Py Re ReceiptProcessor.
Variable flag : bool.

(** The matches [scan] lists are found in suffixes of its subject. *)
Lemma scan_suffixes (P : text -> Prop) (Q : match_obj -> Prop) r :
  (forall s n, P s -> P (skipn n s)) ->
  (forall off s mo, P s -> search_from flag r off s = Some mo -> Q mo) ->
  forall fuel off s, P s -> Forall Q (scan fuel flag r off s).
Proof.
  intros HP HQ fuel; induction fuel as [|fuel IH]; intros off s Hs; simpl.
  - constructor.
  - destruct (search_from flag r off s) as [mo|] eqn:E; constructor; eauto.
Qed.

(** Every text [findall] returns for a pattern that ends in its group is a
    part of the subject and a word of the group. *)
Lemma findall1_parts t r text w :
  ends_with 1 t r -> In w (findall1 flag r text) ->
  lang flag t w /\ exists pre post, text = pre ++ w ++ post.
Proof.
  intros Hr Hin; unfold findall1, finditer in Hin.
  apply in_map_iff in Hin as (mo & <- & Hmo).
  pose proof (scan_suffixes
                (fun s => exists p, text = p ++ s)
                (fun mo => lang flag t (group_text mo 1)
                           /\ exists pre post, text = pre ++ group_text mo 1 ++ post) r)
    as H.
  eapply Forall_forall in H; [exact H | | | | exact Hmo].
  - intros s n (p & ->); exists (p ++ firstn n s).
    now rewrite <- app_assoc, firstn_skipn.
  - intros off s mo0 (p & ->) Hs.
    destruct (search_group _ _ _ _ _ _ _ Hr Hs) as (pre & w & post & -> & Hg & Hl).
    unfold group_text; rewrite Hg; split; [exact Hl|].
    exists (p ++ pre), post; now rewrite <- app_assoc.
  - exists []; reflexivity.
Qed.
End Substrings.

Section AmountRange.
Import Py Re ReceiptProcessor.

Lemma labelled_total_token pats text a :
  Forall (ends_with 1 amount_token) pats ->
  labelled_total pats text = Some a ->
  exists w pre post,
    text = pre ++ w ++ post /\ lang true amount_token w /\ parse_amount w = Some a.
Proof.
  induction 1 as [|pat pats Hp _ IH]; simpl; [discriminate|].
  destruct (search true pat text) as [mo|] eqn:E; auto.
  destruct (parse_amount (group_text mo 1)) as [q|] eqn:Eq; auto.
  intros [= ->].
  destruct (search_group _ _ _ _ _ _ _ Hp E) as (pre & w & post & -> & Hg & Hl).
  unfold group_text in Eq; rewrite Hg in Eq; eauto 8.
Qed.

(** Whatever way [extract_amount] finds its result, it is the value of a
    part of the text that has the shape of an amount. *)
Lemma extract_amount_token text a :
  extract_amount text = Some a ->
  exists flag w pre post,
    text = pre ++ w ++ post /\ lang flag amount_token w /\ parse_amount w = Some a.
Proof.
  unfold extract_amount.
  destruct (labelled_total total_patterns text) as [q|] eqn:E.
  - intros [= ->]; exists true.
    apply labelled_total_token in E; auto.
    repeat constructor.
  - intros H; apply py_max_largest in H as [H _].
    apply (proj1 (numeric_of_in _ (tokens_parse text))) in H as (t & Ht & Hq).
    apply (findall1_parts false amount_token) in Ht as (Hl & pre & post & ->);
      [|apply any_amount_ends].
    exists false, t, pre, post; auto.
Qed.

(** X8.  An amount is never negative, and a text without a comma never
    gives 1000 or more: the pattern reads at most three digits before a
    thousands separator. *)
Theorem extract_amount_bounds (text : Py.text) (a : Q) :
  extract_amount text = Some a ->
  (0 <= a)%Q /\ (existsb (N.eqb comma) text = false -> (a < 1000)%Q).
Proof.
  intros H; apply extract_amount_token in H as (flag & w & pre & post & -> & Hl & Hq).
  destruct (amount_token_bounds flag w a Hl Hq) as [H0 H1]; split; [exact H0|].
  intros Hc; apply H1; intros Hin.
  assert (Hex : existsb (N.eqb comma) (pre ++ w ++ post) = true).
  { apply existsb_exists; exists comma; split; [|reflexivity].
    apply in_or_app; right; apply in_or_app; left; exact Hin. }
  congruence.
Qed.

(** X8 on the text 'Total: 1234.50', read as 123. *)
Lemma extract_amount_bounds_example :
  extract_amount (utf8 "Total: 1234.50") = Some (123 # 1)
  /\ (0 <= 123 # 1)%Q /\ (123 # 1 < 1000)%Q.
Proof.
  split; [vm_compute; reflexivity|].
  destruct (extract_amount_bounds (utf8 "Total: 1234.50") (123 # 1)) as [H0 H1];
    [vm_compute; reflexivity|].
  split; [exact H0 | apply H1; vm_compute; reflexivity].
Defined.
End AmountRange.

(** ** Calendar dates *)

Section DateFacts.
Import Py Re Datetime ReceiptProcessor.

Lemma make_date_valid y mo d dt :
  make_date y mo d = Some dt ->
  dt = MkDate y mo d
  /\ 1 <= y <= 9999 /\ 1 <= mo <= 12 /\ 1 <= d <= days_in_month y mo.
Proof.
  unfold make_date.
  destruct (N.leb_spec 1 y); [|discriminate].
  destruct (N.leb_spec y 9999); [|discriminate].
  destruct (N.leb_spec 1 mo); [|discriminate].
  destruct (N.leb_spec mo 12); [|discriminate].
  destruct (N.leb_spec 1 d); [|discriminate].
  destruct (N.leb_spec d (days_in_month y mo)); [|discriminate].
  simpl; intros [= <-]; repeat split; assumption.
Qed.

Lemma strptime_valid s fmt dt :
  strptime s fmt = Some dt ->
  1 <= year dt <= 9999 /\ 1 <= month dt <= 12
  /\ 1 <= day dt <= days_in_month (year dt) (month dt).
Proof.
  unfold strptime.
  destruct (format_regex fmt) as [r|]; [|discriminate].
  destruct (match_here true r s) as [[[|c rest] g]|]; try discriminate.
  intros H; apply make_date_valid in H as (-> & H); exact H.
Qed.

Lemma parse_match_valid mo dt :
  parse_match mo = Some dt ->
  1 <= year dt <= 9999 /\ 1 <= month dt <= 12
  /\ 1 <= day dt <= days_in_month (year dt) (month dt).
Proof.
  unfold parse_match.
  destruct (_ =? 4)%nat; [apply strptime_valid|].
  destruct (strptime (dashed _ _ _) _) eqn:E.
  - intros [= <-]; eapply strptime_valid; exact E.
  - apply strptime_valid.
Qed.

(** X9.  A date, when one is returned, is a date of the calendar printed as
    year, two-digit month and two-digit day. *)
Theorem extract_date_is_calendar_date (text : Py.text) (s : Py.text) :
  extract_date text = Some s ->
  exists y mo d,
    s = show_N y ++ utf8 "-" ++ pad2 mo ++ utf8 "-" ++ pad2 d
    /\ 1 <= y <= 9999 /\ 1 <= mo <= 12 /\ 1 <= d <= days_in_month y mo.
Proof.
  unfold extract_date; generalize date_patterns as pats.
  induction pats as [|pattern pats IH]; simpl; [discriminate|].
  destruct (search true pattern text) as [mo|]; auto.
  destruct (ngroups pattern =? 3)%nat; auto.
  destruct (parse_match mo) as [dt|] eqn:E; auto.
  intros [= <-]; apply parse_match_valid in E.
  exists (year dt), (month dt), (day dt); split; [reflexivity | exact E].
Qed.

(** X9 on the text 'Date: 29/02/2024'. *)
Lemma extract_date_is_calendar_date_example :
  exists y mo d,
    utf8 "2024-02-29" = show_N y ++ utf8 "-" ++ pad2 mo ++ utf8 "-" ++ pad2 d
    /\ 1 <= y <= 9999 /\ 1 <= mo <= 12 /\ 1 <= d <= days_in_month y mo.
Proof.
  apply (extract_date_is_calendar_date (utf8 "Date: 29/02/2024")).
  vm_compute; reflexivity.
Defined.
End DateFacts.

(** ** Line items and merchant *)

Section StripFacts.
Import Py.

Lemma lstrip_head s c t : lstrip s = c :: t -> is_space c = false.
Proof.
  induction s as [|a s IH]; simpl; [discriminate|].
  destruct (is_space a) eqn:E; auto.
  intros [= <- _]; exact E.
Qed.

Lemma lstrip_fixed c t : is_space c = false -> lstrip (c :: t) = c :: t.
Proof. intros H; simpl; now rewrite H. Qed.

Lemma lstrip_last u c :
  is_space c = false -> lstrip (u ++ [c]) = lstrip u ++ [c].
Proof.
  intros H; induction u as [|a u IH]; simpl.
  - now rewrite H.
  - destruct (is_space a); auto.
Qed.

Lemma rstrip_cons c t : is_space c = false -> rstrip (c :: t) = c :: rstrip t.
Proof.
  intros H; unfold rstrip; simpl.
  now rewrite (lstrip_last _ _ H), rev_app_distr.
Qed.

Lemma rstrip_idem s : rstrip (rstrip s) = rstrip s.
Proof.
  unfold rstrip; rewrite rev_involutive.
  destruct (lstrip (rev s)) as [|c t] eqn:E; [reflexivity|].
  now rewrite (lstrip_fixed _ _ (lstrip_head _ _ _ E)).
Qed.

(** What [strip] returns has no white space at either end. *)
Lemma strip_idem s : strip (strip s) = strip s.
Proof.
  unfold strip.
  destruct (lstrip s) as [|c t] eqn:E; [reflexivity|].
  apply lstrip_head in E.
  rewrite (rstrip_cons _ _ E), (lstrip_fixed _ _ E), <- (rstrip_cons _ _ E).
  apply rstrip_idem.
Qed.

End StripFacts.

Section LineItems.
Import Py Re Value ReceiptProcessor.

Lemma parse_amount_nonneg w a : parse_amount w = Some a -> (0 <= a)%Q.
Proof. apply py_float_nonneg. Qed.

(** What one line gives, when it gives an item. *)
Lemma line_item_some line it :
  line_item line = Some it ->
  search true summary_line line = None
  /\ name it <> [] /\ strip (name it) = name it /\ (0 <= amount it)%Q
  /\ exists n,
       match search false qty_marker (strip (firstn n line)) with
       | Some _ => True
       | None => quantity it = 1 /\ name it = strip (firstn n line)
       end.
Proof.
  unfold line_item.
  destruct (search true summary_line line); [discriminate|].
  intros H; split; [reflexivity|]; revert H.
  destruct (match search false trailing_amount line with
            | Some mo => Some mo
            | None => search false rupee_amount line
            end) as [mo|]; [|discriminate].
  destruct (parse_amount (group_text mo 1)) as [a|] eqn:Ea; [|discriminate].
  apply parse_amount_nonneg in Ea.
  destruct (search false qty_marker (strip (firstn (m_start mo) line))) as [qm|] eqn:Eq.
  - destruct (strip (sub_empty false qty_marker _)) as [|c w] eqn:En; [discriminate|].
    intros [= <-]; cbn [name amount quantity].
    repeat split; try discriminate; auto.
    + rewrite <- En; apply strip_idem.
    + exists (m_start mo); now rewrite Eq.
  - destruct (strip (firstn (m_start mo) line)) as [|c w] eqn:En; [discriminate|].
    intros [= <-]; cbn [name amount quantity].
    repeat split; try discriminate; auto.
    + rewrite <- En; apply strip_idem.
    + exists (m_start mo); rewrite En, Eq; split; reflexivity.
Qed.

Lemma items_of_in lines it :
  In it (items_of lines) -> exists line, In line lines /\ line_item line = Some it.
Proof.
  induction lines as [|line rest IH]; simpl; [tauto|].
  destruct (line_item line) as [it0|] eqn:E.
  - intros [<- | H]; [eauto | destruct (IH H) as (l & ? & ?); eauto].
  - intros H; destruct (IH H) as (l & ? & ?); eauto.
Qed.

Lemma items_of_length lines : (List.length (items_of lines) <= List.length lines)%nat.
Proof.
  induction lines as [|line rest IH]; simpl; [lia|].
  destruct (line_item line); simpl; lia.
Qed.

(** X13.  Every line item has a name that is not empty and has no white
    space at its ends, and an amount that is not negative; it comes from a
    line that is no summary line; there is at most one item per line. *)
Theorem line_items_well_formed (text : Py.text) :
  (List.length (extract_line_items text) <= List.length (split_on newline text))%nat
  /\ forall it, In it (extract_line_items text) ->
       name it <> [] /\ strip (name it) = name it /\ (0 <= amount it)%Q
       /\ exists line, In line (split_on newline text)
                       /\ search true summary_line line = None
                       /\ line_item line = Some it.
Proof.
  split; [apply items_of_length|].
  intros it H; apply items_of_in in H as (line & Hin & Hl).
  destruct (line_item_some _ _ Hl) as (H1 & H2 & H3 & H4 & _).
  repeat split; auto; eauto.
Qed.
End LineItems.

Section Completeness.
Import Py Re.
Context {A : Type}.
Variable flag : bool.

(** [search] finds a match as soon as the pattern matches at some
    position. *)
Lemma search_from_finds r s1 :
  match_here flag r s1 <> None ->
  forall pre off, search_from flag r off (pre ++ s1) <> None.
Proof.
  intros H pre; induction pre as [|c pre IH]; intros off.
  - simpl; destruct s1; simpl;
      destruct (match_here flag r _) as [[rest g]|]; congruence.
  - simpl; destruct (match_here flag r (c :: pre ++ s1)) as [[rest g]|];
      [discriminate | apply IH].
Qed.

Lemma alt_matches rs r s g (k : @cont A) :
  In r rs -> m flag r s g k <> None -> m flag (alt rs) s g k <> None.
Proof.
  induction rs as [|r0 rs IH]; [intros []|].
  intros Hin Hm; destruct rs as [|r1 rs].
  - destruct Hin as [-> | []]; exact Hm.
  - change (alt (r0 :: r1 :: rs)) with (Or r0 (alt (r1 :: rs))); cbn [m].
    destruct (m flag r0 s g k) eqn:E; [discriminate|].
    destruct Hin as [-> | Hin]; [congruence | now apply IH].
Qed.

(** A run of literals matches a text that folds to it. *)
Lemma literals_match kw : forall w post g (k : @cont A),
  List.length w = List.length kw ->
  (forall i, lit_match flag (nth i kw 0) (nth i w 0) = true) ->
  m flag (seq (map Lit kw)) (w ++ post) g k = k post g.
Proof.
  induction kw as [|l kw IH]; intros w post g k Hlen Hall.
  - destruct w; [reflexivity | discriminate].
  - destruct w as [|c w]; [discriminate|].
    injection Hlen as Hlen.
    assert (Hc : lit_match flag l c = true) by apply (Hall O).
    assert (Hrest : forall i, lit_match flag (nth i kw 0) (nth i w 0) = true)
      by (intros i; apply (Hall (S i))).
    destruct kw as [|l1 kw].
    + destruct w; [|discriminate].
      simpl; now rewrite Hc.
    + change (seq (map Lit (l :: l1 :: kw)))
        with (Cat (Lit l) (seq (map Lit (l1 :: kw)))).
      cbn [m app]; rewrite Hc.
      now apply IH.
Qed.
End Completeness.

Section SummaryLines.
Import Py Re Value ReceiptProcessor.

Lemma fold_case_idem c : fold_case (fold_case c) = fold_case c.
Proof. unfold fold_case, is_upper_ascii; split_tests. Qed.

Lemma folded_match kw w :
  map fold_case w = kw ->
  List.length w = List.length kw
  /\ forall i, lit_match true (nth i kw 0) (nth i w 0) = true.
Proof.
  intros <-; split; [now rewrite length_map|].
  intros i; unfold lit_match.
  destruct (Nat.lt_ge_cases i (List.length w)) as [Hi | Hi].
  - rewrite (nth_indep (map fold_case w) 0 (fold_case 0)) by (now rewrite length_map).
    rewrite map_nth, fold_case_idem, N.eqb_refl; apply orb_true_r.
  - rewrite !nth_overflow by (rewrite ?length_map; lia).
    reflexivity.
Qed.

(** X14.  A line that holds one of the summary words, in any letter case and
    anywhere (inside a longer word too), gives no item. *)
Theorem summary_line_is_no_item (kw : string) (pre w post : Py.text) :
  In kw [ "total"; "subtotal"; "gst"; "tax"; "discount";
          "amount payable"; "grand total"; "net amount" ]%string ->
  map fold_case w = utf8 kw ->
  line_item (pre ++ w ++ post) = None.
Proof.
  intros Hkw Hw; unfold line_item.
  destruct (search true summary_line (pre ++ w ++ post)) eqn:E; [reflexivity|].
  exfalso; revert E; apply search_from_finds.
  unfold match_here, summary_line; cbn [m].
  apply alt_matches with (r := word kw); [now apply in_map|].
  destruct (folded_match _ _ Hw) as [Hlen Hall].
  unfold word; rewrite literals_match by assumption.
  discriminate.
Qed.

(** X14 on the line 'Taxi to airport 450.00'. *)
Lemma summary_line_is_no_item_example :
  line_item (utf8 "Taxi to airport 450.00") = None.
Proof.
  apply (summary_line_is_no_item "tax" [] (utf8 "Tax") (utf8 "i to airport 450.00"));
    [simpl; tauto | reflexivity].
Defined.
End SummaryLines.

Section Quantity.
Import Py Re Value ReceiptProcessor.

Lemma lstrip_incl s c : In c (lstrip s) -> In c s.
Proof.
  induction s as [|a s IH]; simpl; auto.
  destruct (is_space a); simpl; auto.
Qed.

Lemma strip_incl s c : In c (strip s) -> In c s.
Proof.
  unfold strip, rstrip; intros H.
  apply in_rev, lstrip_incl, in_rev in H.
  now apply lstrip_incl.
Qed.

Lemma firstn_incl n (s : text) c : In c (firstn n s) -> In c s.
Proof. intros H; rewrite <- (firstn_skipn n s); apply in_or_app; now left. Qed.

Lemma x_mark_char c : set_match false [CChar (chr "x"); CChar (chr "X")] c = true ->
  c = chr "x" \/ c = chr "X".
Proof.
  change (chr "x") with 120; change (chr "X") with 88.
  unfold set_match; cbn [existsb item_match andb orb].
  destruct (N.eqb_spec c 120); destruct (N.eqb_spec c 88); simpl; auto; discriminate.
Qed.

(** The quantity marker is only found in a text that holds an [x]. *)
Lemma qty_marker_needs_x s mo :
  search false qty_marker s = Some mo -> In (chr "x") s \/ In (chr "X") s.
Proof.
  intros H; apply search_from_here in H as (pre & s1 & rest & -> & H).
  apply m_sound in H as (w & s2 & g1 & -> & Hl & _).
  assert (Hx : exists c, In c w /\ (c = chr "x" \/ c = chr "X")).
  { unfold qty_marker, seq, x_mark in Hl; cbn [lang] in Hl.
    destruct Hl as [(w1 & w2 & -> & _ & w3 & w4 & -> & _ & c & -> & Hc)
                   |(w1 & w2 & -> & (c & -> & Hc) & _)];
      apply x_mark_char in Hc; exists c; split; auto.
    - apply in_or_app; right; apply in_or_app; right; now left.
    - now left. }
  destruct Hx as (c & Hin & [-> | ->]); [left | right];
    apply in_or_app; right; apply in_or_app; left; exact Hin.
Qed.
End Quantity.

Section Merchant.
Import Py Re Value ReceiptProcessor.

(** X10.  The merchant is the first of the first five lines that is not
    blank, holds none of the administrative words and holds a letter,
    without the white space at its ends; there is none when no such line
    exists. *)
Theorem extract_merchant_first_candidate (text : Py.text) :
  let rejected line :=
    strip line = []
    \/ existsb (fun w => contains (utf8 w) (lower line)) admin_words = true
    \/ has_letter line = false in
  match extract_merchant text with
  | Some merchant =>
      merchant <> []
      /\ exists before line rest,
           firstn 5 (split_on newline text) = before ++ line :: rest
           /\ Forall rejected before
           /\ merchant = strip line
           /\ existsb (fun w => contains (utf8 w) (lower line)) admin_words = false
           /\ has_letter line = true
  | None => Forall rejected (firstn 5 (split_on newline text))
  end.
Proof.
  intros rejected; unfold extract_merchant.
  generalize (firstn 5 (split_on newline text)) as lines.
  induction lines as [|line lines IH]; cbn [first_merchant]; [constructor|].
  assert (Hstep : forall (R : rejected line),
            match first_merchant lines with
            | Some merchant =>
                merchant <> []
                /\ exists before line0 rest,
                     line :: lines = before ++ line0 :: rest
                     /\ Forall rejected before
                     /\ merchant = strip line0
                     /\ existsb (fun w => contains (utf8 w) (lower line0)) admin_words = false
                     /\ has_letter line0 = true
            | None => Forall rejected (line :: lines)
            end).
  { intros R; destruct (first_merchant lines) as [mr|].
    - destruct IH as (Hne & before & l0 & rest & -> & Hb & Hm & Ha & Hl).
      split; [exact Hne|].
      exists (line :: before), l0, rest; repeat split; auto.
    - constructor; auto. }
  destruct (strip line) as [|c w] eqn:Es; [apply Hstep; left; exact Es|].
  destruct (existsb (fun w => contains (utf8 w) (lower line)) admin_words) eqn:Ea;
    [apply Hstep; right; left; exact Ea|].
  destruct (has_letter line) eqn:El; [|apply Hstep; right; right; exact El].
  split; [discriminate|].
  exists [], line, lines; repeat split; auto.
Qed.
End Merchant.

(** ** What the amount patterns read *)

Section Greedy.
Import Py Re.
Context {A : Type}.
Variable flag : bool.

(** A repetition whose body cannot match takes no round. *)
Lemma rep_no_round (mr : text -> caps -> @cont A -> option A) n s g k :
  (forall k', mr s g k' = None) -> rep mr 0 n s g k = k s g.
Proof.
  intros H; destruct n as [|n]; cbn [rep]; [reflexivity|].
  now rewrite H.
Qed.

(** A greedy repetition of a set takes a whole run of its characters when
    the run is as long as it may get, or is followed by another character,
    and the rest of the pattern then matches. *)
Lemma rep_takes_run_of (mr : text -> caps -> @cont A -> option A) cs run :
  (forall c s g k, mr (c :: s) g k = if set_match flag cs c then k s g else None) ->
  (forall g k, mr [] g k = None) ->
  forall n tail g (k : @cont A) x,
  Forall (fun c => set_match flag cs c = true) run ->
  (List.length run <= n)%nat ->
  (List.length run = n
   \/ match tail with [] => True | c :: _ => set_match flag cs c = false end) ->
  k tail g = Some x ->
  rep mr 0 n (run ++ tail) g k = Some x.
Proof.
  intros Hcons Hnil.
  induction run as [|c run IH]; intros n tail g k x Hrun Hn Hstop Hk.
  - destruct n as [|n]; cbn [rep app]; [exact Hk|].
    destruct Hstop as [Hz | Hstop]; [discriminate|].
    destruct tail as [|c tail]; [now rewrite Hnil|].
    now rewrite Hcons, Hstop.
  - destruct n as [|n]; [simpl in Hn; lia|].
    inversion Hrun as [|? ? Hc Hrest]; subst.
    cbn [rep app]; rewrite Hcons, Hc.
    rewrite (IH n tail g k x Hrest); [reflexivity | simpl in Hn; lia | | exact Hk].
    destruct Hstop as [Hlen | Hstop]; [left; simpl in Hlen; lia | right; exact Hstop].
Qed.

Lemma rep_takes_run cs run n tail g (k : @cont A) x :
  Forall (fun c => set_match flag cs c = true) run ->
  (List.length run <= n)%nat ->
  (List.length run = n
   \/ match tail with [] => True | c :: _ => set_match flag cs c = false end) ->
  k tail g = Some x ->
  rep (m flag (Cls cs)) 0 n (run ++ tail) g k = Some x.
Proof. apply rep_takes_run_of; reflexivity. Qed.

Lemma search_from_at_head r off s rest g :
  match_here flag r s = Some (rest, g) ->
  search_from flag r off s
  = Some (MkMatch off (off + (List.length s - List.length rest)) g).
Proof. intros H; destruct s; simpl; now rewrite H. Qed.
End Greedy.

Section DigitCharacters.
Import Py Re.

(** The ASCII digit of value [d]. *)
Lemma ascii_digit_facts flag d :
  d < 10 ->
  decimal_value (48 + d) = Some d
  /\ set_match flag [CDigit] (48 + d) = true
  /\ set_match flag [CChar colon; CSpace] (48 + d) = false
  /\ set_match flag [CSpace] (48 + d) = false
  /\ lit_match flag rupee (48 + d) = false
  /\ lit_match flag comma (48 + d) = false
  /\ lit_match flag point (48 + d) = false.
Proof.
  intros H.
  assert (Hd : d = 0 \/ d = 1 \/ d = 2 \/ d = 3 \/ d = 4 \/ d = 5 \/ d = 6 \/ d = 7
               \/ d = 8 \/ d = 9) by lia.
  destruct flag;
    repeat (destruct Hd as [-> | Hd]; [vm_compute; repeat split; reflexivity|]);
    subst d; vm_compute; repeat split; reflexivity.
Qed.
End DigitCharacters.

Section UnseparatedTotals.
Import Py Re ReceiptProcessor.

Lemma m_cat {A} flag r1 r2 s g (k : @cont A) :
  m flag (Cat r1 r2) s g k = m flag r1 s g (fun s1 g1 => m flag r2 s1 g1 k).
Proof. reflexivity. Qed.

Lemma m_lit {A} flag l c s g (k : @cont A) :
  m flag (Lit l) (c :: s) g k = if lit_match flag l c then k s g else None.
Proof. reflexivity. Qed.

Lemma m_cls {A} flag cs c s g (k : @cont A) :
  m flag (Cls cs) (c :: s) g k = if set_match flag cs c then k s g else None.
Proof. reflexivity. Qed.

Lemma m_repeat {A} flag lo hi r s g (k : @cont A) :
  m flag (Repeat lo hi r) s g k
  = rep (m flag r) lo
        (match hi with Some h => h | None => lo + List.length s end)%nat s g k.
Proof. reflexivity. Qed.

Lemma m_group {A} flag i r s g (k : @cont A) :
  m flag (Group i r) s g k
  = m flag r s g
      (fun s1 g1 => k s1 ((i, firstn (List.length s - List.length s1) s) :: g1)).
Proof. reflexivity. Qed.

(** Four digits in a row: the token is the first three. *)
Lemma amount_token_of_four_digits {A} flag d1 d2 d3 d4 rest g (k : @cont A) x :
  d1 < 10 -> d2 < 10 -> d3 < 10 -> d4 < 10 ->
  k ((48 + d4) :: rest) g = Some x ->
  m flag amount_token ([48 + d1; 48 + d2; 48 + d3; 48 + d4] ++ rest) g k = Some x.
Proof.
  intros H1 H2 H3 H4 Hk.
  destruct (ascii_digit_facts flag d1 H1) as (_ & D1 & _).
  destruct (ascii_digit_facts flag d2 H2) as (_ & D2 & _).
  destruct (ascii_digit_facts flag d3 H3) as (_ & D3 & _).
  destruct (ascii_digit_facts flag d4 H4) as (_ & _ & _ & _ & _ & C4 & P4).
  unfold amount_token, seq, times, star, opt, digit.
  rewrite m_cat, m_repeat, rep_must_step.
  cbn [app]; rewrite m_cls, D1.
  apply (rep_takes_run flag [CDigit] [48 + d2; 48 + d3] 2%nat ((48 + d4) :: rest));
    [repeat constructor; assumption | simpl; lia | left; reflexivity|].
  rewrite m_cat, m_repeat, rep_no_round by (intros k'; now rewrite m_cat, m_lit, C4).
  rewrite m_repeat, rep_no_round by (intros k'; now rewrite m_cat, m_lit, P4).
  exact Hk.
Qed.

Lemma first_three (a b c d : char) (rest : Py.text) :
  firstn (List.length ([a; b; c; d] ++ rest) - List.length (d :: rest))
         ([a; b; c; d] ++ rest)
  = [a; b; c].
Proof.
  cbn [List.length app].
  replace (S (S (S (S (List.length rest)))) - S (List.length rest))%nat with 3%nat by lia.
  reflexivity.
Qed.

(** The separator, the optional rupee sign and the digits after a label. *)
Lemma labelled_amount_of_four_digits flag d1 d2 d3 d4 rest g :
  d1 < 10 -> d2 < 10 -> d3 < 10 -> d4 < 10 ->
  m flag labelled_amount
    (utf8 ": " ++ [48 + d1; 48 + d2; 48 + d3; 48 + d4] ++ rest) g
    (fun s1 g1 => Some (s1, g1))
  = Some ((48 + d4) :: rest, (1%nat, [48 + d1; 48 + d2; 48 + d3]) :: g).
Proof.
  intros H1 H2 H3 H4.
  destruct (ascii_digit_facts flag d1 H1) as (_ & _ & S1 & W1 & R1 & _).
  unfold labelled_amount, seq, star, opt, space.
  rewrite m_cat, m_repeat.
  apply (rep_takes_run flag [CChar colon; CSpace] (utf8 ": "));
    [repeat constructor; destruct flag; reflexivity
    | simpl; lia | right; exact S1 |].
  rewrite m_cat, m_repeat, rep_no_round by (intros k'; cbn [app]; now rewrite m_lit, R1).
  rewrite m_cat, m_repeat, rep_no_round by (intros k'; cbn [app]; now rewrite m_cls, W1).
  rewrite m_group.
  apply amount_token_of_four_digits; try assumption.
  now rewrite first_three.
Qed.

Lemma three_digits_value d1 d2 d3 :
  d1 < 10 -> d2 < 10 -> d3 < 10 ->
  parse_amount [48 + d1; 48 + d2; 48 + d3]
  = Some (Qmake (Z.of_N (100 * d1 + 10 * d2 + d3)) 1).
Proof.
  intros H1 H2 H3.
  destruct (ascii_digit_facts false d1 H1) as (V1 & _).
  destruct (ascii_digit_facts false d2 H2) as (V2 & _).
  destruct (ascii_digit_facts false d3 H3) as (V3 & _).
  unfold parse_amount, remove_char; cbn [filter].
  destruct (N.eqb_spec (48 + d1) comma); [lia|].
  destruct (N.eqb_spec (48 + d2) comma); [lia|].
  destruct (N.eqb_spec (48 + d3) comma); [lia|]; cbn [negb].
  unfold py_float; cbn [split_point].
  destruct (N.eqb_spec (48 + d1) point); [lia|].
  destruct (N.eqb_spec (48 + d2) point); [lia|].
  destruct (N.eqb_spec (48 + d3) point); [lia|].
  cbn [app digits_value List.length pow10]; rewrite V1, V2, V3.
  do 3 f_equal; lia.
Qed.

(** The first pattern of the list that matches at the head of the text,
    after a label in any letter case, answers with the first three
    digits. *)
Lemma label_then_four_digits (labels : regex) (label : Py.text) d1 d2 d3 d4 rest :
  d1 < 10 -> d2 < 10 -> d3 < 10 -> d4 < 10 ->
  (forall post g (k : @cont (Py.text * caps)) x,
      k post g = Some x -> m true labels (label ++ post) g k = Some x) ->
  exists mo,
    search true (Cat labels labelled_amount)
           (label ++ utf8 ": " ++ [48 + d1; 48 + d2; 48 + d3; 48 + d4] ++ rest)
    = Some mo
    /\ parse_amount (group_text mo 1)
       = Some (Qmake (Z.of_N (100 * d1 + 10 * d2 + d3)) 1).
Proof.
  intros H1 H2 H3 H4 Hlabel.
  eexists; split.
  - apply search_from_at_head; unfold match_here; rewrite m_cat.
    apply Hlabel; now apply labelled_amount_of_four_digits.
  - now apply three_digits_value.
Qed.

Lemma grand_total_label (label : Py.text) :
  map fold_case label = utf8 "grand total" ->
  forall post g (k : @cont (Py.text * caps)) x,
    k post g = Some x ->
    m true (alt [ word "grand total"; word "grandtotal"; word "net amount";
                  word "amount payable"; word "amount to pay";
                  word "total amount"; word "bill total"; word "grand total" ])
      (label ++ post) g k = Some x.
Proof.
  intros Hl post g k x Hk.
  destruct (folded_match _ _ Hl) as [Hlen Hall].
  cbn [alt m]; unfold word at 1.
  now rewrite literals_match, Hk by assumption.
Qed.

Lemma total_label (label : Py.text) :
  map fold_case label = utf8 "total" ->
  forall post g (k : @cont (Py.text * caps)) x,
    k post g = Some x -> m true (word "total") (label ++ post) g k = Some x.
Proof.
  intros Hl post g k x Hk.
  destruct (folded_match _ _ Hl) as [Hlen Hall].
  unfold word; now rewrite literals_match by assumption.
Qed.

(** C5.  A total written without thousands separators is not read as the
    number it is: after a label, in any letter case, [extract_amount]
    takes three digits of four or more and returns the number they make,
    whatever follows.  This holds for the specific label "grand total",
    and for the bare "total" when no specific label is found. *)
Theorem unseparated_total_reads_three_digits
        (label : Py.text) (d1 d2 d3 d4 : N) (rest : Py.text) :
  d1 < 10 -> d2 < 10 -> d3 < 10 -> d4 < 10 ->
  map fold_case label = utf8 "grand total"
  \/ map fold_case label = utf8 "total"
     /\ search true specific_total
               (label ++ utf8 ": " ++ [48 + d1; 48 + d2; 48 + d3; 48 + d4] ++ rest)
        = None ->
  extract_amount (label ++ utf8 ": " ++ [48 + d1; 48 + d2; 48 + d3; 48 + d4] ++ rest)
  = Some (Qmake (Z.of_N (100 * d1 + 10 * d2 + d3)) 1).
Proof.
  intros H1 H2 H3 H4 [Hl | [Hl Hnone]];
    unfold extract_amount, total_patterns; cbn [labelled_total].
  - destruct (label_then_four_digits _ label d1 d2 d3 d4 rest H1 H2 H3 H4
                (grand_total_label label Hl)) as (mo & Hs & Hp).
    unfold specific_total; now rewrite Hs, Hp.
  - rewrite Hnone.
    destruct (label_then_four_digits _ label d1 d2 d3 d4 rest H1 H2 H3 H4
                (total_label label Hl)) as (mo & Hs & Hp).
    unfold bare_total; now rewrite Hs, Hp.
Qed.

(** C5 on the text ["Total: 1234.50"]: the amount is 123. *)
Lemma total_1234_is_123 :
  extract_amount (utf8 "Total: 1234.50") = Some (123 # 1).
Proof.
  apply (unseparated_total_reads_three_digits (utf8 "Total") 1 2 3 4 (utf8 ".50"));
    try reflexivity.
  right; split; vm_compute; reflexivity.
Defined.

(** The total lines of the receipt the repository's own test draws: the
    bare "total" is found inside "SUBTOTAL", and the subtotal is
    returned. *)
Lemma subtotal_answers_for_total :
  extract_amount (utf8 "SUBTOTAL:               ₹550.00
TAX (18%):              ₹99.00
TOTAL:                  ₹649.00")
  = Some (55000 # 100).
Proof. vm_compute; reflexivity. Qed.

(** Without a label the scan cuts an unseparated number in two, and the
    largest piece is returned. *)
Lemma largest_of_the_pieces :
  findall1 false any_amount (utf8 "Paid 1234.50 by card") = [utf8 "123"; utf8 "4.50"]
  /\ extract_amount (utf8 "Paid 1234.50 by card") = Some (123 # 1).
Proof. split; vm_compute; reflexivity. Qed.
End UnseparatedTotals.

(** ** The item of a plain line *)

Section PlainLines.
Import Py Re Value ReceiptProcessor.

(** [search] passes over the positions where the pattern cannot start. *)
Lemma search_from_skips flag r pre : forall s off,
  (forall c s', In c pre -> match_here flag r (c :: s') = None) ->
  search_from flag r off (pre ++ s) = search_from flag r (off + List.length pre) s.
Proof.
  induction pre as [|c pre IH]; intros s off H.
  - now rewrite Nat.add_0_r.
  - cbn [app search_from List.length].
    rewrite (H c (pre ++ s) (or_introl eq_refl)).
    rewrite IH by (intros c' s' Hc; apply H; now right).
    now rewrite Nat.add_succ_r.
Qed.

Lemma firstn_length_app (u v : Py.text) : firstn (List.length u) (u ++ v) = u.
Proof. induction u as [|c u IH]; simpl; [reflexivity | now rewrite IH]. Qed.

Lemma firstn_before_rest (u v : Py.text) :
  firstn (List.length (u ++ v) - List.length v) (u ++ v) = u.
Proof.
  rewrite length_app, Nat.add_sub; apply firstn_length_app.
Qed.

Lemma firstn_before_space (c0 : char) ip (f1 f2 : char) sp :
  firstn (List.length (c0 :: ip ++ point :: f1 :: f2 :: sp) - List.length sp)
         (c0 :: ip ++ point :: f1 :: f2 :: sp)
  = c0 :: ip ++ [point; f1; f2].
Proof.
  replace (c0 :: ip ++ point :: f1 :: f2 :: sp)
    with ((c0 :: ip ++ [point; f1; f2]) ++ sp)
    by (cbn [app]; now rewrite <- app_assoc).
  apply firstn_before_rest.
Qed.

(** An amount cannot start at a character that is neither a digit nor a
    comma. *)
Lemma trailing_amount_start c s :
  is_decimal c = false -> c <> comma ->
  match_here false trailing_amount (c :: s) = None.
Proof.
  intros Hd Hc; unfold match_here, trailing_amount, seq, money, plus.
  rewrite m_cat, m_group, m_cat, m_repeat, rep_must_step, m_cls.
  unfold set_match; cbn [existsb item_match andb orb].
  rewrite Hd; destruct (N.eqb_spec c comma); [contradiction | reflexivity].
Qed.

(** At digits and commas, a point and two digits, then white space to the
    end, the amount is read whole. *)
Lemma trailing_amount_here ip f1 f2 sp :
  ip <> [] -> Forall (fun c => is_decimal c = true \/ c = comma) ip ->
  is_decimal f1 = true -> is_decimal f2 = true ->
  Forall (fun c => is_space c = true) sp ->
  match_here false trailing_amount ((ip ++ [point; f1; f2]) ++ sp)
  = Some ([], [(1%nat, ip ++ [point; f1; f2])]).
Proof.
  intros Hne Hip H1 H2 Hsp.
  assert (Hset : Forall (fun c => set_match false [CDigit; CChar comma] c = true) ip).
  { eapply Forall_impl; [|exact Hip]; intros c [Hc | ->]; unfold set_match;
      cbn [existsb item_match andb orb]; [now rewrite Hc | reflexivity]. }
  destruct ip as [|c0 ip]; [congruence|].
  inversion Hset as [|? ? Hc0 Hrest]; subst.
  unfold match_here, trailing_amount, seq, money, plus, times, star, space, digit.
  rewrite m_cat, m_group, m_cat, m_repeat, rep_must_step.
  rewrite <- !app_assoc; cbn [app]; rewrite m_cls, Hc0.
  apply (rep_takes_run false [CDigit; CChar comma] ip);
    [exact Hrest | cbn [List.length]; rewrite !length_app; lia
    | right; reflexivity |].
  rewrite m_cat; cbn [app]; rewrite m_lit.
  change (lit_match false point point) with true; cbn iota.
  rewrite m_repeat, rep_must_step, m_cls, (digit_set_match false f1 H1).
  rewrite rep_must_step, m_cls, (digit_set_match false f2 H2).
  cbn [rep].
  rewrite m_cat, m_repeat.
  pose proof (rep_takes_run (A := text * caps) false [CSpace] sp) as Hrun.
  specialize (Hrun (0 + List.length sp)%nat []); rewrite app_nil_r in Hrun.
  apply Hrun;
    [ eapply Forall_impl; [|exact Hsp]; intros c Hc; unfold set_match;
      cbn [existsb item_match andb orb]; now rewrite Hc
    | lia | right; exact I |].
  cbn [m at_end].
  do 4 f_equal.
  apply firstn_before_space.
Qed.
(** The number [parse_amount] reads from digits and commas, a point and two
    digits. *)
Lemma parse_amount_two_decimals ip f1 f2 :
  Forall (fun c => is_decimal c = true \/ c = comma) ip ->
  is_decimal f1 = true -> is_decimal f2 = true ->
  exists i f,
    digits_value 0 (remove_char comma ip) = Some i
    /\ digits_value 0 [f1; f2] = Some f
    /\ parse_amount (ip ++ [point; f1; f2])
       = Some (Qmake (Z.of_N (i * 100 + f)) 100).
Proof.
  intros Hip H1 H2.
  assert (Hd : all_decimal (remove_char comma ip)).
  { unfold remove_char; induction Hip as [|c ip Hc _ IH]; simpl; [constructor|].
    destruct (N.eqb_spec c comma) as [->|Hn]; simpl; [exact IH|].
    constructor; [destruct Hc; [assumption | contradiction] | exact IH]. }
  assert (Hf : all_decimal [f1; f2]) by (repeat constructor; assumption).
  destruct (digits_value_some _ Hd 0) as (i & Hi).
  destruct (digits_value_some _ Hf 0) as (f & Hv).
  exists i, f; split; [exact Hi | split; [exact Hv|]].
  unfold parse_amount; rewrite remove_char_app.
  replace (remove_char comma [point; f1; f2]) with (point :: [f1; f2]).
  2:{ change (remove_char comma [point; f1; f2])
        with (point :: remove_char comma [f1; f2]).
      now rewrite (remove_comma_digits _ Hf). }
  unfold py_float; rewrite split_point_digits by exact Hd.
  cbn [split_point fst snd]; change (point =? point) with true; cbn iota.
  cbn [fst snd]; rewrite app_nil_r, Hi, Hv.
  destruct (remove_char comma ip ++ [f1; f2]) eqn:E;
    [apply app_eq_nil in E as [_ E]; discriminate | reflexivity].
Qed.


End PlainLines.

(** ** Categories, descriptions and validation *)

Section Categories.
Import Py Re Value ReceiptProcessor.

Lemma categorize_expense_cases (text : Py.text) (merchant : option Py.text) :
  let r := categorize_expense text merchant in
  (category r = "Other" /\ confidence r = "low"
   \/ confidence r = "high"
      /\ In (category r)
            [ "Accommodation"; "Bills & Utilities"; "Food & Dining"; "Transportation";
              "Shopping & Clothes"; "Healthcare"; "Groceries & Household";
              "Mobile & Internet"; "Entertainment"; "Office Expense";
              "Travel & Vacation"; "Education & Courses"; "Home & Family";
              "Personal Care"; "Gifts & Festivals"; "EMI & Loans";
              "Investments & SIP" ])%string.
Proof.
  unfold categorize_expense; cbv zeta.
  destruct (first_rule rules _ _) as [res|] eqn:E; [right | left; split; reflexivity].
  apply first_rule_some in E as (r & kw & Hr & _ & _ & ->).
  split; [reflexivity|]; cbn [category].
  apply (in_map rule_category) in Hr.
  change (map rule_category rules)
    with [ "Accommodation"; "Bills & Utilities"; "Food & Dining"; "Transportation";
           "Shopping & Clothes"; "Healthcare"; "Groceries & Household";
           "Mobile & Internet"; "Entertainment"; "Office Expense"; "Bills & Utilities";
           "Travel & Vacation"; "Education & Courses"; "Home & Family";
           "Personal Care"; "Gifts & Festivals"; "EMI & Loans";
           "Investments & SIP" ]%string in Hr.
  cbn [In] in *; intuition.
Qed.

(** X11.  The category is "Other" with confidence "low", or one of
    seventeen names with confidence "high": no rule answers "medium", and
    the confidence is "low" exactly when the category is "Other". *)
Theorem category_is_known (text : Py.text) (merchant : option Py.text) :
  let r := categorize_expense text merchant in
  ((category r = "Other" /\ confidence r = "low"
    \/ confidence r = "high"
       /\ In (category r)
             [ "Accommodation"; "Bills & Utilities"; "Food & Dining"; "Transportation";
               "Shopping & Clothes"; "Healthcare"; "Groceries & Household";
               "Mobile & Internet"; "Entertainment"; "Office Expense";
               "Travel & Vacation"; "Education & Courses"; "Home & Family";
               "Personal Care"; "Gifts & Festivals"; "EMI & Loans";
               "Investments & SIP" ])
   /\ (confidence r = "low" <-> category r = "Other"))%string.
Proof.
  cbv zeta; pose proof (categorize_expense_cases text merchant) as H.
  cbv zeta in H; split; [exact H|].
  destruct H as [[Hc Hf] | [Hf Hc]]; rewrite Hf.
  - split; [intros _; exact Hc | reflexivity].
  - split; [discriminate|].
    intros E; rewrite E in Hc; cbn [In] in Hc.
    repeat (destruct Hc as [Hc | Hc]; [discriminate|]); destruct Hc.
Qed.
End Categories.

Section Description.
Import Py Re Value ReceiptProcessor.

Lemma join_names_not_empty (sep : Py.text) (it : item) (items : list item) :
  name it <> [] -> join sep (map name (it :: items)) <> [].
Proof.
  intros H; cbn [map join].
  destruct (map name items); [exact H|].
  destruct (name it); [congruence | discriminate].
Qed.

Lemma description_of_items (text merchant : Py.text) (category : string) :
  generate_description merchant (extract_line_items text) category <> [].
Proof.
  assert (Hnames : forall it, In it (extract_line_items text) -> name it <> []).
  { intros it H; apply items_of_in in H as (line & _ & Hl).
    now apply line_item_some in Hl as (_ & Hn & _). }
  unfold generate_description.
  destruct merchant as [|c m]; destruct (extract_line_items text) as [|it [|it2 rest]].
  - discriminate.
  - apply Hnames; now left.
  - discriminate.
  - discriminate.
  - intros E; apply app_eq_nil in E as [E _]; revert E; apply Hnames; now left.
  - destruct (_ <=? 3)%nat; [|discriminate].
    intros E; apply app_eq_nil in E as [E _]; revert E.
    apply join_names_not_empty, Hnames; now left.
Qed.

(** X16.  The description of what [extract_line_items] returns is never
    empty, whatever the merchant and the category. *)
Theorem description_is_not_empty (text merchant : Py.text) (category : string) :
  exists c w,
    generate_description merchant (extract_line_items text) category = c :: w.
Proof.
  pose proof (description_of_items text merchant category) as H.
  destruct (generate_description _ _ _) as [|c w]; [congruence | eauto].
Qed.
End Description.

Section Validation.
Import Py Re Value ReceiptProcessor.

Lemma text_eqb_eq s t : text_eqb s t = true <-> s = t.
Proof. unfold text_eqb; destruct (list_eq_dec N.eq_dec s t); split; congruence. Qed.

(** X1.  An image is accepted exactly when it has between one byte and
    10 MiB and Pillow reads one of the five formats, in any letter case;
    and every refusal is a [ValueError], also when it is Pillow that
    raised. *)
Theorem validate_image_accepts (image : image_file) :
  (validate_image image = Ok tt
   <-> 0 < nbytes image <= 10 * 1024 * 1024
       /\ exists f, pil_format image = Ok (Some f)
                    /\ In (lower f) (map utf8 supported_formats))
  /\ forall e, validate_image image = Raise e -> exists msg, e = ValueError msg.
Proof.
  unfold validate_image.
  destruct (N.eqb_spec (nbytes image) 0) as [H0 | H0].
  { split; [split; [discriminate | intros [? _]; lia] | intros e [= <-]; eauto]. }
  destruct (N.ltb_spec (10 * 1024 * 1024) (nbytes image)) as [H1 | H1].
  { split; [split; [discriminate | intros [? _]; lia] | intros e [= <-]; eauto]. }
  destruct (pil_format image) as [[[|c w]|] | e0].
  - split; [split; [discriminate|] | intros e [= <-]; eauto].
    intros (_ & f & [= <-] & Hin); exfalso.
    cbn in Hin; intuition discriminate.
  - destruct (existsb _ supported_formats) eqn:E.
    + split; [split; [intros _ | reflexivity] | discriminate].
      split; [lia|]; exists (c :: w); split; [reflexivity|].
      apply existsb_exists in E as (s & Hs & Heq).
      apply text_eqb_eq in Heq; rewrite Heq; now apply in_map.
    + split; [split; [discriminate|] | intros e [= <-]; eauto].
      intros (_ & f & [= <-] & Hin); apply in_map_iff in Hin as (s & Hs & Hin).
      assert (Ht : existsb (fun s => text_eqb (lower (c :: w)) (utf8 s)) supported_formats
                   = true).
      { apply existsb_exists; exists s; split; [exact Hin|].
        apply text_eqb_eq; now symmetry. }
      congruence.
  - split; [split; [discriminate|] | intros e [= <-]; eauto].
    intros (_ & f & [=] & _).
  - split; [split; [discriminate|] | intros e [= <-]; eauto].
    intros (_ & f & [=] & _).
Qed.
End Validation.

(** ** The outcomes of [process_receipt] *)

Section Outcomes.
Import Py Re Value ReceiptProcessor.

Lemma validate_image_raises image e :
  validate_image image = Raise e -> exists msg, e = ValueError msg.
Proof.
  unfold validate_image.
  destruct (nbytes image =? 0); [intros [= <-]; eauto|].
  destruct (_ <? nbytes image); [intros [= <-]; eauto|].
  destruct (pil_format image) as [fmt | e0]; [|intros [= <-]; eauto].
  destruct (match match fmt with Some (c :: w) => _ | _ => _ end with
            | Some f => _ | None => false end);
    [discriminate | intros [= <-]; eauto].
Qed.

Lemma preprocess_image_raises image e :
  preprocess_image image = Raise e -> exists msg, e = ValueError msg.
Proof.
  unfold preprocess_image.
  destruct (validate_image image) eqn:Ev; [|intros [= <-]; eapply validate_image_raises; eauto].
  match goal with
  | |- match ?b with Ok _ => _ | Raise _ => _ end = _ -> _ => destruct b
  end; [discriminate | intros [= <-]; eauto].
Qed.

(** The three ways [process_receipt] ends. *)
Lemma process_receipt_cases image ocr today :
  (exists msg, (exists e, preprocess_image image = Raise e)
               /\ process_receipt image ocr today = failure msg "validation")
  \/ ((exists p, preprocess_image image = Ok p)
      /\ (forall t, ocr = Ok t -> t = [])
      /\ process_receipt image ocr today
         = failure (utf8 "Failed to process receipt. Please ensure the image is clear and contains readable text.")
                   "processing")
  \/ (exists p text,
        preprocess_image image = Ok p /\ ocr = Ok text /\ text <> []
        /\ process_receipt image ocr today
           = if falsy_amount (extract_amount text) then missing_amount text
             else
               let merchant := extract_merchant text in
               let items := extract_line_items text in
               let merchant_or_empty := match merchant with Some mr => mr | None => [] end in
               let category_result := categorize_expense text (Some merchant_or_empty) in
               [ ("amount", opt_float (extract_amount text));
                 ("date", VStr (or_else (extract_date text) today));
                 ("merchant", opt_str merchant);
                 ("category", VStr (utf8 (category category_result)));
                 ("category_confidence", VStr (utf8 (confidence category_result)));
                 ("category_reason", VStr (utf8 (reason category_result)));
                 ("description",
                  VStr (generate_description merchant_or_empty items
                          (category category_result)));
                 ("items", VItems items);
                 ("raw_text", VStr text);
                 ("needs_confirmation",
                  VBool (String.eqb (confidence category_result) "low"));
                 ("success", VBool true) ]%string).
Proof.
  destruct (preprocess_image image) as [p|e] eqn:Ep.
  - destruct ocr as [[|c w]|e] eqn:Eo.
    + right; left; split; [eauto|]; split; [intros t [= <-]; reflexivity|].
      unfold process_receipt, process_body; rewrite Ep; reflexivity.
    + right; right; exists p, (c :: w); repeat split; [discriminate|].
      eapply process_receipt_on_text; eauto; discriminate.
    + right; left; split; [eauto|]; split; [discriminate|].
      unfold process_receipt, process_body; rewrite Ep; reflexivity.
  - left; destruct (preprocess_image_raises _ _ Ep) as (msg & ->).
    exists msg; split; [eauto|].
    unfold process_receipt, process_body; rewrite Ep; reflexivity.
Qed.

Lemma falsy_amount_false amount :
  falsy_amount amount = false -> exists a, amount = Some a /\ ~ (a == 0)%Q.
Proof.
  destruct amount as [a|]; [|discriminate]; simpl.
  intros H; exists a; split; [reflexivity|].
  intros Hz; apply is_zero_iff in Hz; congruence.
Qed.

(** X17.  [process_receipt] always returns a dictionary with a boolean
    [success].  With [True] it holds an amount that is not zero and no error;
    with [False] it holds a message and one of the two kinds "validation"
    and "processing", and no amount. *)
Theorem process_receipt_result_shape image ocr today :
  let d := process_receipt image ocr today in
  (get d "success" = Some (VBool true)
   /\ (exists a, get d "amount" = Some (VFloat a) /\ ~ (a == 0)%Q)
   /\ get d "error" = None /\ get d "error_type" = None)
  \/ (get d "success" = Some (VBool false)
      /\ (exists msg, get d "error" = Some (VStr msg))
      /\ (get d "error_type" = Some (VStr (utf8 "validation"))
          \/ get d "error_type" = Some (VStr (utf8 "processing")))
      /\ get d "amount" = None).
Proof.
  cbv zeta.
  destruct (process_receipt_cases image ocr today)
    as [(msg & _ & ->) | [(_ & _ & ->) | (p & text & _ & _ & _ & ->)]].
  - right; split; [reflexivity|]; split; [eexists; reflexivity|].
    split; [left; reflexivity | reflexivity].
  - right; split; [reflexivity|]; split; [eexists; reflexivity|].
    split; [right; reflexivity | reflexivity].
  - destruct (falsy_amount (extract_amount text)) eqn:E.
    + right; split; [reflexivity|]; split; [eexists; reflexivity|].
      split; [left; reflexivity | reflexivity].
    + left; apply falsy_amount_false in E as (a & -> & Ha).
      split; [reflexivity|]; split; [exists a; split; [reflexivity | exact Ha]|].
      split; reflexivity.
Qed.

(** X18.  The kind "processing" is the answer to a failure of the OCR step and
    to nothing else: the image passed validation and preprocessing, and the
    engine raised or read no text.  The message is then the fixed one, the
    engine's own message is not passed on. *)
Theorem processing_failure_is_ocr_failure image ocr today :
  let d := process_receipt image ocr today in
  (get d "error_type" = Some (VStr (utf8 "processing"))
   <-> (exists p, preprocess_image image = Ok p) /\ (forall t, ocr = Ok t -> t = []))
  /\ (get d "error_type" = Some (VStr (utf8 "processing")) ->
      get d "error"
      = Some (VStr (utf8 "Failed to process receipt. Please ensure the image is clear and contains readable text."))).
Proof.
  cbv zeta.
  destruct (process_receipt_cases image ocr today)
    as [(msg & (e & He) & ->) | [(Hp & Ho & ->) | (p & text & Hp & Ho & Hne & ->)]].
  - split; [split|]; [discriminate | | discriminate].
    intros [(p & Hp) _]; congruence.
  - split; [split|]; auto.
  - assert (Hno : ~ (forall t, ocr = Ok t -> t = [])) by (intros H; apply Hne, H, Ho).
    destruct (falsy_amount (extract_amount text)).
    + split; [split|]; [discriminate | tauto | discriminate].
    + split; [split|]; [discriminate | tauto | discriminate].
Qed.

Lemma known_category_text c :
  In c [ "Accommodation"; "Bills & Utilities"; "Food & Dining"; "Transportation";
         "Shopping & Clothes"; "Healthcare"; "Groceries & Household";
         "Mobile & Internet"; "Entertainment"; "Office Expense";
         "Travel & Vacation"; "Education & Courses"; "Home & Family";
         "Personal Care"; "Gifts & Festivals"; "EMI & Loans";
         "Investments & SIP" ]%string ->
  utf8 c <> utf8 "Other".
Proof.
  cbn [In]; intros H.
  repeat (destruct H as [<- | H]; [discriminate|]); destruct H.
Qed.

(** X19.  In a successful result [needs_confirmation] is [True] exactly when
    the category is "Other", and [False] exactly when the confidence is
    "high". *)
Theorem needs_confirmation_iff_other image ocr today :
  let d := process_receipt image ocr today in
  get d "success" = Some (VBool true) ->
  exists b,
    get d "needs_confirmation" = Some (VBool b)
    /\ (b = true <-> get d "category" = Some (VStr (utf8 "Other")))
    /\ (b = false <-> get d "category_confidence" = Some (VStr (utf8 "high"))).
Proof.
  cbv zeta; intros Hs.
  destruct (process_receipt_cases image ocr today)
    as [(msg & _ & E) | [(_ & _ & E) | (p & text & _ & _ & _ & E)]];
    rewrite E in Hs |- *; try discriminate.
  destruct (falsy_amount (extract_amount text)); [discriminate|].
  clear Hs E; cbv zeta.
  set (r := categorize_expense text _).
  exists (String.eqb (confidence r) "low"); split; [reflexivity|].
  change (get _ "category") with (Some (VStr (utf8 (category r)))).
  change (get _ "category_confidence") with (Some (VStr (utf8 (confidence r)))).
  destruct (categorize_expense_cases text
              (Some match extract_merchant text with Some mr => mr | None => [] end))
    as [[Hc Hf] | [Hf Hc]]; fold r in Hc, Hf; rewrite Hf.
  - rewrite Hc; split; split; auto; discriminate.
  - apply known_category_text in Hc.
    split; split; auto; try discriminate.
    intros H; exfalso; apply Hc; now injection H.
Qed.

(** X19 on a receipt that reads 'Total 120.00'. *)
Lemma needs_confirmation_iff_other_example :
  exists b,
    get (process_receipt (MkImage 2000 (Ok (Some (utf8 "PNG"))) (Some (1200, 1600)%Z))
                         (Ok (utf8 "Total 120.00")) (utf8 "2026-11-03"))
        "needs_confirmation" = Some (VBool b)
    /\ (b = true
        <-> get (process_receipt (MkImage 2000 (Ok (Some (utf8 "PNG"))) (Some (1200, 1600)%Z))
                                 (Ok (utf8 "Total 120.00")) (utf8 "2026-11-03"))
                "category" = Some (VStr (utf8 "Other")))
    /\ (b = false
        <-> get (process_receipt (MkImage 2000 (Ok (Some (utf8 "PNG"))) (Some (1200, 1600)%Z))
                                 (Ok (utf8 "Total 120.00")) (utf8 "2026-11-03"))
                "category_confidence" = Some (VStr (utf8 "high"))).
Proof.
  apply (needs_confirmation_iff_other
           (MkImage 2000 (Ok (Some (utf8 "PNG"))) (Some (1200, 1600)%Z))
           (Ok (utf8 "Total 120.00")) (utf8 "2026-11-03")).
  vm_compute; reflexivity.
Defined.
End Outcomes.

(** ** The shorter side of a resized image *)

Section ShorterSide.
Import Float.
Local Open Scope Q_scope.
Variables T m : Z.
Hypothesis HT : (1 <= T <= 4096)%Z.
Hypothesis Hm : (1 <= m)%Z.

(** The scaled side is at least one pixel when the exact product is a
    little above one, *)
Lemma scaled_side_positive d :
  (1 <= d <= m)%Z -> (m * 524289 <= T * d * 524288)%Z ->
  (1 <= trunc (fmul (qz d) (fdiv (qz T) (qz m))))%Z.
Proof.
  intros Hd Hr.
  destruct (scaled_bounds T m HT Hm d Hd) as [Hpos Hle].
  destruct (scale_bounds T m HT Hm) as [Hlo _].
  assert (HTq : 1 <= qz T <= 4096)
    by (split; [apply (qz_le 1) | apply (qz_le _ 4096)]; lia).
  assert (Hmq : 0 < qz m) by (apply (qz_lt 0); lia).
  assert (Hdq : 0 < qz d) by (apply (qz_lt 0); lia).
  assert (Hrq : qz m * 524289 <= qz T * qz d * 524288).
  { unfold qz; change 524289 with (inject_Z 524289); change 524288 with (inject_Z 524288).
    rewrite <- !inject_Z_mult, <- Zle_Qle; exact Hr. }
  assert (Hquot : 524289 # 524288 <= qz d * (qz T / qz m)).
  { setoid_replace (qz d * (qz T / qz m)) with (qz T * qz d / qz m) by (field; lra).
    apply Qle_shift_div_l; [exact Hmq | lra]. }
  assert (Hge : (524289 # 524288) * (1 - half_ulp) <= qz d * fdiv (qz T) (qz m)).
  { apply Qle_trans with (qz d * (qz T / qz m * (1 - half_ulp))); [|nra].
    unfold half_ulp in *; nra. }
  unfold fmul; rewrite fl_positive by exact Hpos.
  assert (Hdown : inject_Z 1048577 / 2 ^ 20 <= fl_pos (qz d * fdiv (qz T) (qz m))).
  { apply fl_pos_lower; [exact Hpos | lia | |].
    - change (2 ^ 20) with 1048576; change (inject_Z 1048577) with 1048577.
      apply Qle_shift_div_r; [reflexivity|].
      unfold half_ulp in Hge; lra.
    - change (2 ^ (52 - 20)) with 4294967296; lra. }
  assert (Hlow : inject_Z 1 <= fl_pos (qz d * fdiv (qz T) (qz m))).
  { eapply Qle_trans; [|exact Hdown].
    change (2 ^ 20) with 1048576; change (inject_Z 1048577) with 1048577.
    change (inject_Z 1) with 1.
    apply Qle_shift_div_l; [reflexivity | lra]. }
  rewrite trunc_nonneg.
  - apply Qfloor_resp_le in Hlow; now rewrite Qfloor_Z in Hlow.
  - eapply Qle_trans; [|exact Hlow]. discriminate.
Qed.

(** and it is empty when the exact product is a little below one. *)
Lemma scaled_side_empty d :
  (1 <= d <= m)%Z -> (T * d * 524289 <= m * 524288)%Z ->
  trunc (fmul (qz d) (fdiv (qz T) (qz m))) = 0%Z.
Proof.
  intros Hd Hr.
  destruct (scaled_bounds T m HT Hm d Hd) as [Hpos _].
  destruct (scale_bounds T m HT Hm) as [_ Hhi].
  assert (HTq : 1 <= qz T <= 4096)
    by (split; [apply (qz_le 1) | apply (qz_le _ 4096)]; lia).
  assert (Hmq : 0 < qz m) by (apply (qz_lt 0); lia).
  assert (Hdq : 0 < qz d) by (apply (qz_lt 0); lia).
  assert (Hrq : qz T * qz d * 524289 <= qz m * 524288).
  { unfold qz; change 524289 with (inject_Z 524289); change 524288 with (inject_Z 524288).
    rewrite <- !inject_Z_mult, <- Zle_Qle; exact Hr. }
  assert (Hquot : qz d * (qz T / qz m) <= 524288 # 524289).
  { setoid_replace (qz d * (qz T / qz m)) with (qz T * qz d / qz m) by (field; lra).
    apply Qle_shift_div_r; [exact Hmq | lra]. }
  assert (Hq0 : 0 < qz T / qz m) by (apply Qlt_shift_div_l; lra).
  assert (Hle : qz d * fdiv (qz T) (qz m) <= (524288 # 524289) * (1 + half_ulp)).
  { apply Qle_trans with (qz d * (qz T / qz m * (1 + half_ulp))); [nra|].
    unfold half_ulp in *; nra. }
  unfold fmul; rewrite fl_positive by exact Hpos.
  assert (Hup : fl_pos (qz d * fdiv (qz T) (qz m)) <= inject_Z 1048575 / 2 ^ 20).
  { apply fl_pos_upper; [exact Hpos | lia | |].
    - change (2 ^ 20) with 1048576; change (inject_Z 1048575) with 1048575.
      apply Qle_shift_div_l; [reflexivity|].
      unfold half_ulp in Hle; lra.
    - change (2 ^ (52 - 20)) with 4294967296; unfold half_ulp in Hle; lra. }
  assert (Hlow : 0 <= fl_pos (qz d * fdiv (qz T) (qz m))).
  { apply Qle_trans with (inject_Z 0 / 2 ^ 0); [discriminate|].
    apply fl_pos_lower; [exact Hpos | lia | |].
    - apply Qlt_le_weak; exact Hpos.
    - change (2 ^ (52 - 0)) with 4503599627370496; unfold half_ulp in Hle; lra. }
  rewrite trunc_nonneg by exact Hlow.
  apply Qfloor_between; [exact Hlow|].
  eapply Qle_lt_trans; [exact Hup|].
  change (2 ^ 20) with 1048576; change (inject_Z 1048575) with 1048575.
  change (inject_Z (0 + 1)) with 1.
  apply Qlt_shift_div_r; [reflexivity | lra].
Qed.
End ShorterSide.

Section PreprocessRange.
Import Py Re Float Value ReceiptProcessor.
Local Open Scope Z_scope.

Lemma cv2_resize_ok width height :
  1 <= width -> 1 <= height -> cv2_resize width height = Ok (height, width).
Proof.
  intros Hw Hh; unfold cv2_resize.
  destruct (Z.leb_spec width 0); [lia|].
  destruct (Z.leb_spec height 0); [lia | reflexivity].
Qed.

(** X3.  Preprocessing never fails on a valid image whose sides are between
    100 and 399,999 pixels: a resize keeps both sides at one pixel or more,
    and the longer one at the target or one pixel below. *)
Theorem preprocess_image_succeeds image h w :
  validate_image image = Ok tt -> cv_shape image = Some (h, w) ->
  100 <= h <= 399999 -> 100 <= w <= 399999 ->
  exists out,
    preprocess_image image = Ok out
    /\ 1 <= out_height out /\ 1 <= out_width out
    /\ 1000 <= Z.max (out_height out) (out_width out) <= 4000.
Proof.
  intros Hv Hs Hh Hw; unfold preprocess_image; rewrite Hv, Hs.
  destruct (Z.ltb_spec h 100); [lia|].
  destruct (Z.ltb_spec w 100); [lia|]; cbn [orb].
  assert (Hm : 1 <= Z.max h w) by lia.
  destruct (Z.ltb_spec (Z.max h w) 1000) as [Hlt | Hge].
  - pose proof (scaled_side_positive 1200 (Z.max h w) ltac:(lia) Hm h ltac:(lia) ltac:(lia)) as Ph.
    pose proof (scaled_side_positive 1200 (Z.max h w) ltac:(lia) Hm w ltac:(lia) ltac:(lia)) as Pw.
    pose proof (scaled_longer_side 1200 h w ltac:(lia) ltac:(lia) ltac:(lia)) as L.
    change (qz 1200) with (1200 : Q) in *.
    rewrite cv2_resize_ok by assumption.
    eexists; split; [reflexivity|]; cbn [out_height out_width]; lia.
  - destruct (Z.ltb_spec 4000 (Z.max h w)) as [Hbig | Hmid].
    + pose proof (scaled_side_positive 4000 (Z.max h w) ltac:(lia) Hm h ltac:(lia) ltac:(lia)) as Ph.
      pose proof (scaled_side_positive 4000 (Z.max h w) ltac:(lia) Hm w ltac:(lia) ltac:(lia)) as Pw.
      pose proof (scaled_longer_side 4000 h w ltac:(lia) ltac:(lia) ltac:(lia)) as L.
      change (qz 4000) with (4000 : Q) in *.
      rewrite cv2_resize_ok by assumption.
      eexists; split; [reflexivity|]; cbn [out_height out_width]; lia.
    + eexists; split; [reflexivity|]; cbn [out_height out_width]; lia.
Qed.

(** X3 on an image of 100 by 399,999 pixels. *)
Lemma preprocess_image_succeeds_example :
  exists out,
    preprocess_image (MkImage 2000 (Ok (Some (utf8 "JPEG"))) (Some (100, 399999))) = Ok out
    /\ 1 <= out_height out /\ 1 <= out_width out
    /\ 1000 <= Z.max (out_height out) (out_width out) <= 4000.
Proof.
  apply (preprocess_image_succeeds _ 100 399999); [reflexivity | reflexivity | lia | lia].
Defined.

(** X4.  A valid image so elongated that its shorter side would scale to
    less than one pixel is refused: the resize raises, and the failure is
    reported as a validation failure. *)
Theorem elongated_image_fails image h w ocr today :
  validate_image image = Ok tt -> cv_shape image = Some (h, w) ->
  100 <= Z.min h w -> 4000 * Z.min h w * 524289 <= Z.max h w * 524288 ->
  (exists msg, preprocess_image image = Raise (ValueError msg))
  /\ get (process_receipt image ocr today) "success" = Some (VBool false)
  /\ get (process_receipt image ocr today) "error_type" = Some (VStr (utf8 "validation")).
Proof.
  intros Hv Hs Hmin Hr.
  assert (Hp : exists msg, preprocess_image image = Raise (ValueError msg)).
  { unfold preprocess_image; rewrite Hv, Hs.
    destruct (Z.ltb_spec h 100); [lia|].
    destruct (Z.ltb_spec w 100); [lia|]; cbn [orb].
    assert (Hm : 1 <= Z.max h w) by lia.
    destruct (Z.ltb_spec (Z.max h w) 1000) as [Hlt | Hge]; [lia|].
    destruct (Z.ltb_spec 4000 (Z.max h w)) as [Hbig | Hmid]; [|lia].
    pose proof (scaled_side_empty 4000 (Z.max h w) ltac:(lia) Hm (Z.min h w)
                  ltac:(lia) Hr) as E.
    change (qz 4000) with (4000 : Q) in E.
    unfold cv2_resize.
    destruct (Z.min_spec h w) as [[_ Em] | [_ Em]]; rewrite Em in E; rewrite E.
    - change (0 <=? 0) with true; rewrite orb_true_r; eexists; reflexivity.
    - change (0 <=? 0) with true; cbn [orb]; eexists; reflexivity. }
  split; [exact Hp|].
  destruct Hp as (msg & Hp).
  unfold process_receipt, process_body; rewrite Hp; cbn [bind].
  split; reflexivity.
Qed.

(** X4 on an image of 100 by 400,001 pixels. *)
Lemma elongated_image_fails_example :
  (exists msg,
     preprocess_image (MkImage 2000 (Ok (Some (utf8 "PNG"))) (Some (100, 400001)))
     = Raise (ValueError msg))
  /\ get (process_receipt (MkImage 2000 (Ok (Some (utf8 "PNG"))) (Some (100, 400001)))
                          (Ok (utf8 "Total 5.00")) (utf8 "2026-11-03"))
         "success" = Some (VBool false)
  /\ get (process_receipt (MkImage 2000 (Ok (Some (utf8 "PNG"))) (Some (100, 400001)))
                          (Ok (utf8 "Total 5.00")) (utf8 "2026-11-03"))
         "error_type" = Some (VStr (utf8 "validation")).
Proof.
  apply (elongated_image_fails _ 100 400001); [reflexivity | reflexivity | | ];
    vm_compute; discriminate.
Defined.
End PreprocessRange.

(** ** The OCR passes *)

Section Lines.
Import Py.

Lemma split_on_whole sep l : ~ In sep l -> split_on sep l = [l].
Proof.
  induction l as [|c l IH]; intros H; simpl; [reflexivity|].
  destruct (N.eqb_spec c sep) as [-> | _]; [exfalso; apply H; now left|].
  rewrite IH; [reflexivity | intros Hin; apply H; now right].
Qed.

Lemma split_on_app sep l rest :
  ~ In sep l -> split_on sep (l ++ sep :: rest) = l :: split_on sep rest.
Proof.
  induction l as [|c l IH]; intros H; simpl.
  - now rewrite N.eqb_refl.
  - destruct (N.eqb_spec c sep) as [-> | _]; [exfalso; apply H; now left|].
    rewrite IH; [reflexivity | intros Hin; apply H; now right].
Qed.

(** [sep.join(ls).split(sep)] gives [ls] back when no part holds [sep]. *)
Lemma split_on_join sep ls :
  ls <> [] -> Forall (fun l => ~ In sep l) ls -> split_on sep (join [sep] ls) = ls.
Proof.
  intros Hne Hall; induction Hall as [|l ls Hl Hls IH]; [congruence|].
  destruct ls as [|l1 ls].
  - simpl; now apply split_on_whole.
  - change (join [sep] (l :: l1 :: ls)) with (l ++ sep :: join [sep] (l1 :: ls)).
    rewrite split_on_app by exact Hl.
    rewrite IH; [reflexivity | discriminate].
Qed.
End Lines.

Section CleanText.
Import Py Tesseract.

Lemma splitlines_from_no_break s : forall cur after_cr,
  Forall (fun c => is_linebreak c = false) cur ->
  Forall (Forall (fun c => is_linebreak c = false)) (splitlines_from cur after_cr s).
Proof.
  induction s as [|c s IH]; intros cur after_cr Hcur; simpl.
  - destruct cur; constructor; [|constructor].
    apply Forall_rev in Hcur; exact Hcur.
  - destruct (after_cr && (c =? 10)); [now apply IH|].
    destruct (is_linebreak c) eqn:E.
    + constructor; [now apply Forall_rev | apply IH; constructor].
    + apply IH; constructor; assumption.
Qed.

Lemma clean_lines_spec text :
  Forall (fun l => l <> [] /\ strip l = l /\ ~ In newline l) (clean_lines text).
Proof.
  unfold clean_lines; apply Forall_forall; intros l Hl.
  apply in_map_iff in Hl as (l0 & <- & Hin).
  apply filter_In in Hin as [Hin Hnb].
  split; [|split].
  - unfold nonblank in Hnb; destruct (strip l0); [discriminate | discriminate].
  - apply strip_idem.
  - intros Hc; apply strip_incl in Hc.
    pose proof (splitlines_from_no_break text [] false (Forall_nil _)) as H.
    eapply Forall_forall in H; [|exact Hin].
    eapply Forall_forall in H; [|exact Hc].
    discriminate.
Qed.

(** The lines of a cleaned text, as [split('\n')] gives them, are the
    lines kept: none is blank and none has white space at its ends. *)
Lemma clean_split text :
  clean text <> [] ->
  split_on newline (clean text) = clean_lines text
  /\ Forall (fun l => l <> [] /\ strip l = l) (split_on newline (clean text)).
Proof.
  intros Hne; pose proof (clean_lines_spec text) as H.
  assert (E : split_on newline (clean text) = clean_lines text).
  { unfold clean; apply split_on_join.
    - intros E; apply Hne; unfold clean; now rewrite E.
    - eapply Forall_impl; [|exact H]; intros l (_ & _ & Hc); exact Hc. }
  split; [exact E|].
  rewrite E; eapply Forall_impl; [|exact H]; intros l (H1 & H2 & _); auto.
Qed.
End CleanText.

Section BestPass.
Import Py Float Value ReceiptProcessor Tesseract.
Variable e : engine.

Lemma Qltb_lt a b : Qltb a b = true <-> (a < b)%Q.
Proof.
  unfold Qltb; rewrite negb_true_iff.
  destruct (Qle_bool b a) eqn:E.
  - apply Qle_bool_iff in E; split; [discriminate | intros H; exfalso].
    apply (Qlt_irrefl a), (Qlt_le_trans _ b); assumption.
  - split; [intros _ | reflexivity].
    apply Qnot_le_lt; intros H; apply Qle_bool_iff in H; congruence.
Qed.

Lemma Qltb_ge a b : Qltb a b = false <-> (b <= a)%Q.
Proof.
  unfold Qltb; rewrite negb_false_iff; apply Qle_bool_iff.
Qed.

(** No pass among [modes] that has confidences and a text is above
    [a]. *)
Let no_better (modes : list N) (a : Q) : Prop :=
  forall psm data s,
    In psm modes -> image_to_data e psm = Ok data -> confidences data <> [] ->
    image_to_string e psm = Ok s -> clean s <> [] ->
    (average (confidences data) <= a)%Q.

Lemma no_better_cons psm modes a :
  (forall data s,
      image_to_data e psm = Ok data -> confidences data <> [] ->
      image_to_string e psm = Ok s -> clean s <> [] ->
      (average (confidences data) <= a)%Q) ->
  no_better modes a -> no_better (psm :: modes) a.
Proof.
  intros H0 H psm' data s [<- | Hin]; [apply H0 | now apply H].
Qed.

(** The loop returns the text it entered with, or the cleaned text of a
    later pass that is above the confidence it entered with; no pass is
    above the one kept. *)
Lemma psm_loop_keeps_best modes : forall best max t,
  psm_loop e modes best max = Ok t ->
  (t = best /\ no_better modes max)
  \/ (exists psm data s,
        In psm modes /\ image_to_data e psm = Ok data
        /\ image_to_string e psm = Ok s /\ t = clean s /\ t <> []
        /\ (max < average (confidences data))%Q
        /\ no_better modes (average (confidences data))).
Proof.
  induction modes as [|psm modes IH]; intros best max t; cbn [psm_loop].
  - intros [= <-]; left; split; [reflexivity | intros ? ? ? []].
  - destruct (image_to_data e psm) as [data|ex] eqn:Ed; cbn [bind]; [|discriminate].
    destruct (confidences data) as [|c cs] eqn:Ec.
    { intros H; apply IH in H as [[-> Hnb] | (p & d & s & Hin & Hd & Hs & -> & Hne & Hlt & Hnb)].
      - left; split; [reflexivity|].
        apply no_better_cons; [|exact Hnb].
        intros d s Hd Hc; congruence.
      - right; exists p, d, s; repeat split; auto; [now right|].
        apply no_better_cons; [|exact Hnb].
        intros d' s' Hd' Hc; congruence. }
    rewrite <- Ec.
    destruct (Qltb max (average (confidences data))) eqn:El.
    + apply Qltb_lt in El.
      destruct (image_to_string e psm) as [text|ex] eqn:Es; cbn [bind]; [|discriminate].
      destruct (clean text) as [|c1 t1] eqn:Et.
      { intros H; apply IH in H
          as [[-> Hnb] | (p & d & s & Hin & Hd & Hs & -> & Hne & Hlt & Hnb)].
        - left; split; [reflexivity|].
          apply no_better_cons; [|exact Hnb].
          intros d s Hd Hc Hs Ht; congruence.
        - right; exists p, d, s; repeat split; auto; [now right|].
          apply no_better_cons; [|exact Hnb].
          intros d' s' Hd' Hc Hs' Ht; congruence. }
      intros H; apply IH in H
        as [[-> Hnb] | (p & d & s & Hin & Hd & Hs & -> & Hne & Hlt & Hnb)].
      * right; exists psm, data, text; rewrite Et.
        repeat split; auto; [now left | discriminate|].
        apply no_better_cons; [|exact Hnb].
        intros d s Hd _ _ _; replace d with data by congruence; apply Qle_refl.
      * right; exists p, d, s; repeat split; auto; [now right | |].
        -- eapply Qlt_trans; eassumption.
        -- apply no_better_cons; [|exact Hnb].
           intros d' s' Hd' _ _ _; replace d' with data by congruence.
           now apply Qlt_le_weak.
    + apply Qltb_ge in El.
      intros H; apply IH in H
        as [[-> Hnb] | (p & d & s & Hin & Hd & Hs & -> & Hne & Hlt & Hnb)].
      * left; split; [reflexivity|].
        apply no_better_cons; [|exact Hnb].
        intros d s Hd _ _ _; replace d with data by congruence; exact El.
      * right; exists p, d, s; repeat split; auto; [now right|].
        apply no_better_cons; [|exact Hnb].
        intros d' s' Hd' _ _ _; replace d' with data by congruence.
        eapply Qle_trans; [exact El | now apply Qlt_le_weak].
Qed.
End BestPass.

Section ReadText.
Import Py Float Value ReceiptProcessor Tesseract.

Lemma read_text_ok e t :
  read_text e = Ok t -> psm_loop e psm_modes [] 0%Q = Ok t /\ t <> [].
Proof.
  unfold read_text, extract_text.
  destruct (psm_loop e psm_modes [] 0%Q) as [[|c w]|ex]; try discriminate.
  intros [= <-]; split; [reflexivity | discriminate].
Qed.

(** X5.  The text [extract_text] returns is the cleaned text of one of the
    three passes; that pass has an average confidence above zero, and no
    pass that has confidences and a text has a higher one. *)
Theorem read_text_is_best_pass (e : engine) (t : Py.text) :
  read_text e = Ok t ->
  exists psm data s,
    In psm psm_modes /\ image_to_data e psm = Ok data
    /\ image_to_string e psm = Ok s /\ t = clean s /\ t <> []
    /\ (0 < average (confidences data))%Q
    /\ forall psm' data' s',
         In psm' psm_modes -> image_to_data e psm' = Ok data' ->
         confidences data' <> [] ->
         image_to_string e psm' = Ok s' -> clean s' <> [] ->
         (average (confidences data') <= average (confidences data))%Q.
Proof.
  intros H; apply read_text_ok in H as [H Hne].
  apply psm_loop_keeps_best in H
    as [[-> _] | (p & d & s & Hin & Hd & Hs & -> & _ & Hlt & Hnb)]; [congruence|].
  exists p, d, s; repeat split; auto.
Qed.

(** X5 on an engine whose second pass is the most confident. *)
Lemma read_text_is_best_pass_example :
  exists psm data s,
    In psm psm_modes
    /\ image_to_data
         (MkEngine (fun psm => if psm =? 6 then Ok [Conf 40; NoWord; Conf 50]
                               else if psm =? 3 then Ok [Conf 91; Conf 96]
                               else Ok [NoWord])
                   (fun psm => if psm =? 6 then Ok (utf8 "T0tal 12O.OO")
                               else Ok (utf8 "  Total 120.00  

"))) psm = Ok data
    /\ image_to_string
         (MkEngine (fun psm => if psm =? 6 then Ok [Conf 40; NoWord; Conf 50]
                               else if psm =? 3 then Ok [Conf 91; Conf 96]
                               else Ok [NoWord])
                   (fun psm => if psm =? 6 then Ok (utf8 "T0tal 12O.OO")
                               else Ok (utf8 "  Total 120.00  

"))) psm = Ok s
    /\ utf8 "Total 120.00" = clean s /\ utf8 "Total 120.00" <> []
    /\ (0 < average (confidences data))%Q
    /\ forall psm' data' s',
         In psm' psm_modes ->
         image_to_data
           (MkEngine (fun psm => if psm =? 6 then Ok [Conf 40; NoWord; Conf 50]
                                 else if psm =? 3 then Ok [Conf 91; Conf 96]
                                 else Ok [NoWord])
                     (fun psm => if psm =? 6 then Ok (utf8 "T0tal 12O.OO")
                                 else Ok (utf8 "  Total 120.00  

"))) psm' = Ok data' ->
         confidences data' <> [] ->
         image_to_string
           (MkEngine (fun psm => if psm =? 6 then Ok [Conf 40; NoWord; Conf 50]
                                 else if psm =? 3 then Ok [Conf 91; Conf 96]
                                 else Ok [NoWord])
                     (fun psm => if psm =? 6 then Ok (utf8 "T0tal 12O.OO")
                                 else Ok (utf8 "  Total 120.00  

"))) psm' = Ok s' ->
         clean s' <> [] ->
         (average (confidences data') <= average (confidences data))%Q.
Proof.
  apply read_text_is_best_pass; vm_compute; reflexivity.
Defined.

(** X6.  What [extract_text] returns is not empty, and each of its lines, as
    the extractors split it, is not blank and has no white space at its
    ends. *)
Theorem read_text_lines_are_clean (e : engine) (t : Py.text) :
  read_text e = Ok t ->
  exists c w, t = c :: w
              /\ Forall (fun l => l <> [] /\ strip l = l) (split_on newline t).
Proof.
  intros H; apply read_text_ok in H as [H Hne].
  apply psm_loop_keeps_best in H
    as [[-> _] | (p & d & s & _ & _ & _ & -> & _ & _ & _)]; [congruence|].
  destruct (clean_split s Hne) as [_ Hl].
  destruct (clean s) as [|c w]; [congruence|].
  exists c, w; split; [reflexivity | exact Hl].
Qed.

(** X6 on a text with CR LF line ends and padded lines. *)
Lemma read_text_lines_are_clean_example :
  exists c w,
    utf8 "Cafe Mocha
Total 120.00" = c :: w
    /\ Forall (fun l => l <> [] /\ strip l = l)
              (split_on newline (utf8 "Cafe Mocha
Total 120.00")).
Proof.
  apply (read_text_lines_are_clean
           (MkEngine (fun _ => Ok [Conf 90; NoWord; Conf 85])
                     (fun _ => Ok (utf8 "  Cafe Mocha " ++ [13; 10; 13; 10]
                                   ++ utf8 " Total 120.00 ")))).
  vm_compute; reflexivity.
Defined.

Lemma psm_loop_unsure e modes : forall best max,
  (0 <= max)%Q ->
  (forall psm, In psm modes ->
     exists data, image_to_data e psm = Ok data
                  /\ (confidences data = []
                      \/ (average (confidences data) <= 0)%Q)) ->
  psm_loop e modes best max = Ok best.
Proof.
  induction modes as [|psm modes IH]; intros best max Hmax Hall; cbn [psm_loop];
    [reflexivity|].
  destruct (Hall psm (or_introl eq_refl)) as (data & -> & Hd); cbn [bind].
  assert (Hrest : psm_loop e modes best max = Ok best).
  { apply IH; [exact Hmax | intros p Hp; apply Hall; now right]. }
  destruct (confidences data) as [|c cs] eqn:Ec; [exact Hrest|].
  destruct Hd as [Hd | Hd]; [discriminate|].
  assert (El : Qltb max (average (c :: cs)) = false).
  { apply Qltb_ge; eapply Qle_trans; eassumption. }
  rewrite El; exact Hrest.
Qed.

(** X7.  When no pass has an average confidence above zero, nothing is read:
    [extract_text] raises, whatever text the engine would give, and
    [process_receipt] answers with a processing failure. *)
Theorem unsure_passes_read_nothing (e : engine) image processed today :
  (forall psm, In psm psm_modes ->
     exists data, image_to_data e psm = Ok data
                  /\ (confidences data = []
                      \/ (average (confidences data) <= 0)%Q)) ->
  preprocess_image image = Ok processed ->
  read_text e
  = Raise (Exception (utf8 "Text extraction failed: No readable text found in image"))
  /\ get (process_receipt image (psm_loop e psm_modes [] 0%Q) today) "error_type"
     = Some (VStr (utf8 "processing")).
Proof.
  intros Hall Hp.
  assert (H : psm_loop e psm_modes [] 0%Q = Ok []).
  { apply psm_loop_unsure; [apply Qle_refl | exact Hall]. }
  unfold read_text, process_receipt, process_body; rewrite H, Hp.
  split; vm_compute; reflexivity.
Qed.

(** X7 on an engine that reports confidence 0 for its words. *)
Lemma unsure_passes_read_nothing_example :
  read_text (MkEngine (fun _ => Ok [Conf 0; NoWord; Conf 0])
                      (fun _ => Ok (utf8 "Total 120.00")))
  = Raise (Exception (utf8 "Text extraction failed: No readable text found in image"))
  /\ get (process_receipt (MkImage 2000 (Ok (Some (utf8 "PNG"))) (Some (1200, 1600)%Z))
            (psm_loop (MkEngine (fun _ => Ok [Conf 0; NoWord; Conf 0])
                                (fun _ => Ok (utf8 "Total 120.00")))
                      psm_modes [] 0%Q)
            (utf8 "2026-11-03")) "error_type"
     = Some (VStr (utf8 "processing")).
Proof.
  apply (unsure_passes_read_nothing _ _ (MkProcessed 1200 1600 25 15)).
  - intros psm _; exists [Conf 0; NoWord; Conf 0]; split; [reflexivity|].
    right; vm_compute; discriminate.
  - vm_compute; reflexivity.
Defined.
End ReadText.

(** ** The expense endpoints *)

Section Dictionaries.
Import Py Value Server.

Lemma eqb_sym_false (k k1 : string) : String.eqb k k1 = false -> String.eqb k1 k = false.
Proof. rewrite !String.eqb_neq; congruence. Qed.

Lemma get_pop d k k' :
  get (pop d k) k' = if String.eqb k' k then None else get d k'.
Proof.
  induction d as [|[k1 v] d IH]; simpl; [now destruct (String.eqb k' k)|].
  destruct (String.eqb k k1) eqn:E.
  - apply String.eqb_eq in E; subst k1; rewrite IH.
    destruct (String.eqb k' k); reflexivity.
  - simpl; rewrite IH.
    destruct (String.eqb k' k1) eqn:E1; [|reflexivity].
    apply String.eqb_eq in E1; subst k1.
    now rewrite (eqb_sym_false _ _ E).
Qed.

Lemma pop_absent d k : get d k = None -> pop d k = d.
Proof.
  induction d as [|[k1 v] d IH]; simpl; [reflexivity|].
  destruct (String.eqb k k1); [discriminate|].
  intros H; now rewrite IH.
Qed.

Lemma get_set_item d k v k' :
  get (set_item d k v) k' = if String.eqb k' k then Some v else get d k'.
Proof.
  induction d as [|[k1 v1] d IH]; simpl; [reflexivity|].
  destruct (String.eqb k k1) eqn:E; simpl.
  - apply String.eqb_eq in E; subst k1.
    destruct (String.eqb k' k); reflexivity.
  - rewrite IH.
    destruct (String.eqb k' k1) eqn:E1; [|reflexivity].
    apply String.eqb_eq in E1; subst k1.
    now rewrite (eqb_sym_false _ _ E).
Qed.

Lemma get_without d k k' :
  get (filter (fun kv => negb (String.eqb (fst kv) k)) d) k'
  = if String.eqb k' k then None else get d k'.
Proof.
  induction d as [|[k1 v] d IH]; simpl; [now destruct (String.eqb k' k)|].
  destruct (String.eqb k1 k) eqn:E; simpl.
  - apply String.eqb_eq in E; subst k1; rewrite IH.
    destruct (String.eqb k' k); reflexivity.
  - rewrite IH.
    destruct (String.eqb k' k1) eqn:E1; [|reflexivity].
    apply String.eqb_eq in E1; subst k1.
    now rewrite E.
Qed.

Lemma text_eqb_refl s : text_eqb s s = true.
Proof. now apply text_eqb_eq. Qed.

Lemma text_eqb_neq s t : s <> t -> text_eqb s t = false.
Proof.
  intros H; destruct (text_eqb s t) eqn:E; [|reflexivity].
  apply text_eqb_eq in E; contradiction.
Qed.

(** X20.  [parse_from_mongo] removes the key [_id] and nothing else, and
    gives back the document that was stored. *)
Theorem parse_from_mongo_drops_id (obj : dict) :
  (forall k, get (parse_from_mongo obj) k
             = if String.eqb k "_id" then None else get obj k)
  /\ (get obj "_id" = None ->
      forall object_id, parse_from_mongo (("_id"%string, object_id) :: obj) = obj).
Proof.
  split; [intros k; apply get_pop|].
  intros H oid; unfold parse_from_mongo; simpl; now apply pop_absent.
Qed.

(** X21.  [prepare_for_mongo] keeps an [id] that is there and sets a new one
    otherwise; the other keys keep their values, and a second call changes
    nothing. *)
Theorem prepare_for_mongo_sets_id (obj : dict) (uuid4 other : text) :
  (forall k, get (prepare_for_mongo obj uuid4) k
             = if String.eqb k "id" then Some (get_or obj "id" (VStr uuid4))
               else get obj k)
  /\ prepare_for_mongo (prepare_for_mongo obj uuid4) other
     = prepare_for_mongo obj uuid4.
Proof.
  assert (Hget : forall k, get (prepare_for_mongo obj uuid4) k
                           = if String.eqb k "id" then Some (get_or obj "id" (VStr uuid4))
                             else get obj k).
  { intros k; unfold prepare_for_mongo, has_key, get_or.
    destruct (get obj "id") as [v|] eqn:E.
    - destruct (String.eqb k "id") eqn:Ek; [|reflexivity].
      apply String.eqb_eq in Ek; now subst k.
    - apply get_set_item. }
  split; [exact Hget|].
  unfold prepare_for_mongo at 1; unfold has_key.
  now rewrite Hget.
Qed.
End Dictionaries.

Section Expenses.
Import Py Value Server.

Lemma remove_first_split query docs :
  match List.find (matches query) docs with
  | Some doc =>
      exists before after,
        docs = before ++ doc :: after
        /\ matches query doc = true
        /\ Forall (fun d => matches query d = false) before
        /\ remove_first query docs = (before ++ after, 1)
  | None =>
      Forall (fun d => matches query d = false) docs
      /\ remove_first query docs = (docs, 0)
  end.
Proof.
  induction docs as [|doc docs IH]; simpl; [split; [constructor | reflexivity]|].
  destruct (matches query doc) eqn:E.
  - exists [], docs; repeat split; auto.
  - destruct (List.find (matches query) docs) as [d|].
    + destruct IH as (before & after & -> & Hm & Hb & ->).
      exists (doc :: before), after; repeat split; auto.
    + destruct IH as [Hall ->]; split; [constructor; auto | reflexivity].
Qed.

(** X24.  [delete_expense] removes the first expense that has the identifier
    and belongs to the user, and leaves the rest of the collection as it is;
    when the user has no such expense, also when another user has one, the
    answer is 404 and nothing is removed. *)
Theorem delete_expense_removes_own (db : database) (expense_id current_user : text) :
  let own d := field_is d "id" expense_id && field_is d "user_id" current_user in
  match delete_expense db expense_id current_user with
  | (Return body, db1) =>
      exists before doc rest,
        expenses db = before ++ doc :: rest
        /\ own doc = true /\ Forall (fun d => own d = false) before
        /\ expenses db1 = before ++ rest
  | (HTTPException status_code _, db1) =>
      db1 = db
      /\ (status_code = 404 /\ Forall (fun d => own d = false) (expenses db)
          \/ status_code = 500 /\ reachable db = false)
  end.
Proof.
  intros own.
  assert (Hown : forall d,
             matches [("id"%string, expense_id); ("user_id"%string, current_user)] d
             = own d).
  { intros d; unfold matches, own; simpl; now rewrite andb_true_r. }
  unfold delete_expense, find_one, delete_one.
  destruct (reachable db) eqn:Er; [|split; [reflexivity | right; auto]].
  pose proof (remove_first_split
                [("id"%string, expense_id); ("user_id"%string, current_user)]
                (expenses db)) as H.
  destruct (List.find _ (expenses db)) as [doc|].
  - destruct H as (before & rest & E & Hm & Hb & ->).
    rewrite Hown in Hm.
    assert (Hb' : Forall (fun d => own d = false) before).
    { eapply Forall_impl; [|exact Hb]; intros d Hd; cbv beta in *; rewrite <- Hown; exact Hd. }
    cbn [N.eqb Pos.eqb].
    exists before, doc, rest; split; [exact E|].
    split; [exact Hm|]; split; [exact Hb' | reflexivity].
  - destruct H as [Hall _].
    assert (Hall' : Forall (fun d => own d = false) (expenses db)).
    { eapply Forall_impl; [|exact Hall]; intros d Hd; cbv beta in *; rewrite <- Hown; exact Hd. }
    split; [reflexivity | left; split; [reflexivity | exact Hall']].
Qed.

(** X23.  [get_expenses] returns the expenses of the user who asks, in the
    order they were stored, and no others; none carries the key [_id]; it
    fails only when the database does not answer. *)
Theorem get_expenses_are_own (db : database) (current_user : text) :
  match get_expenses db current_user with
  | Return docs =>
      docs = map parse_from_mongo
                 (filter (fun d => field_is d "user_id" current_user) (expenses db))
      /\ Forall (fun d => get d "user_id" = Some (VStr current_user)
                          /\ get d "_id" = None) docs
  | HTTPException status_code _ => status_code = 500 /\ reachable db = false
  end.
Proof.
  unfold get_expenses, find.
  destruct (reachable db); [|split; reflexivity].
  assert (E : filter (matches [("user_id"%string, current_user)]) (expenses db)
              = filter (fun d => field_is d "user_id" current_user) (expenses db)).
  { apply filter_ext; intros d; unfold matches; simpl; apply andb_true_r. }
  rewrite E; split; [reflexivity|].
  apply Forall_forall; intros d Hd.
  apply in_map_iff in Hd as (d0 & <- & Hd0).
  apply filter_In in Hd0 as [_ Hf].
  unfold parse_from_mongo; rewrite !get_pop; simpl; split; [|reflexivity].
  unfold field_is in Hf.
  destruct (get d0 "user_id") as [[| | |w|]|]; try discriminate.
  apply text_eqb_eq in Hf; now subst w.
Qed.


End Expenses.

Section Upload.
Import Py Float Value ReceiptProcessor Tesseract Server.

(** What [process_receipt] returns, as [upload_receipt] reads it. *)
Lemma process_receipt_read image ocr today :
  (exists msg kind,
     (kind = "validation" \/ kind = "processing")%string
     /\ get (process_receipt image ocr today) "success" = Some (VBool false)
     /\ get (process_receipt image ocr today) "error" = Some (VStr msg)
     /\ get (process_receipt image ocr today) "error_type" = Some (VStr (utf8 kind)))
  \/ (exists a date merchant category confidence reason c description items raw needs,
        nbytes image <> 0 /\ is_zero a = false
        /\ process_receipt image ocr today
           = [ ("amount", VFloat a); ("date", VStr date); ("merchant", merchant);
               ("category", VStr category);
               ("category_confidence", VStr confidence);
               ("category_reason", VStr reason);
               ("description", VStr (c :: description));
               ("items", VItems items); ("raw_text", VStr raw);
               ("needs_confirmation", VBool needs);
               ("success", VBool true) ]%string).
Proof.
  destruct (process_receipt_cases image ocr today)
    as [(msg & _ & ->) | [(_ & _ & ->) | (p & text & Hp & _ & _ & ->)]].
  - left; exists msg, "validation"%string; repeat split; auto.
  - left; eexists; exists "processing"%string; repeat split; auto.
  - destruct (falsy_amount (extract_amount text)) eqn:E.
    + left; eexists; exists "validation"%string; repeat split; auto.
    + right; cbv zeta.
      destruct (extract_amount text) as [a|]; [|discriminate].
      pose proof (description_of_items text
                    match extract_merchant text with Some mr => mr | None => [] end
                    (category (categorize_expense text
                       (Some match extract_merchant text with Some mr => mr | None => [] end))))
        as Hd.
      destruct (generate_description _ _ _) as [|c description]; [congruence|].
      do 11 eexists; split; [|split; [exact E | reflexivity]].
      intros Hn; unfold preprocess_image, validate_image in Hp.
      rewrite Hn in Hp; discriminate.
Qed.

Lemma accepted_type file :
  (if match content_type file with
      | Some (c :: ct) => starts_with (utf8 "image/") (c :: ct)
      | _ => false
      end then true else false) = true ->
  exists ct, content_type file = Some ct /\ starts_with (utf8 "image/") ct = true.
Proof.
  destruct (content_type file) as [[|c ct]|]; try discriminate.
  destruct (starts_with _ (c :: ct)) eqn:E; [eauto | discriminate].
Qed.

(** The answer to a receipt that was processed. *)
Lemma upload_on_success db w file current_user ct :
  content_type file = Some ct -> starts_with (utf8 "image/") ct = true ->
  processor w = Ok tt -> makedirs w = Ok tt ->
  let result := process_receipt (contents file)
                                (psm_loop (tesseract w) psm_modes [] 0%Q) (today w) in
  get result "success" = Some (VBool true) ->
  exists a,
    get result "amount" = Some (VFloat a) /\ is_zero a = false
    /\ let receipt_url := utf8 "/uploads/" ++ uuid4 w 0%nat ++ utf8 "_" ++ filename file in
       let extracted_data :=
         set_item (filter (fun kv => negb (String.eqb (fst kv) "success")) result)
                  "receipt_url" (VStr receipt_url) in
       upload_receipt db w file current_user
       = if reachable db then
           (Return [ ("success", FVal (VBool true));
                     ("extracted_data", FDict extracted_data);
                     ("expense_created", FVal (VBool true));
                     ("expense_id", FVal (VStr (uuid4 w 1%nat)));
                     ("message",
                      FVal (VStr
                        (if is_str (get_or result "category_confidence" VNone) "high"
                         then utf8 "Receipt processed and expense created automatically!"
                         else utf8 "Receipt processed and expense created. Please review the categorization."))) ]%string,
            MkDatabase
              (expenses db
               ++ [("_id"%string, VStr (object_id w))
                   :: expense_data result a receipt_url current_user (uuid4 w 1%nat)
                                   (today w)])
              true)
         else
           (Return [ ("success", FVal (VBool true));
                     ("extracted_data", FDict extracted_data);
                     ("expense_created", FVal (VBool false));
                     ("message",
                      FVal (VStr (utf8 "Receipt processed successfully. Please review the extracted data."))) ]%string,
            db).
Proof.
  intros Hct Himg Hproc Hdirs result Hs.
  destruct (process_receipt_read (contents file)
              (psm_loop (tesseract w) psm_modes [] 0%Q) (today w))
    as [(msg & kind & _ & Hs' & _) | H]; [fold result in Hs'; congruence|].
  destruct H as (a & date & merchant & category & confidence & reason & c & description
                 & items & raw & needs & Hn & Ha & Hrec).
  fold result in Hrec.
  exists a; split; [now rewrite Hrec|]; split; [exact Ha|].
  cbv zeta; unfold upload_receipt; rewrite Hct.
  destruct ct as [|c0 ct]; [discriminate|]; rewrite Himg.
  unfold upload_body.
  apply N.eqb_neq in Hn; rewrite Hn, Hproc; cbn [bind].
  fold result; rewrite Hrec, Hdirs; clearbody result; clear Hrec result Hs.
  cbn [get_or get String.eqb Ascii.eqb Bool.eqb truthy negb andb bind].
  rewrite Ha; cbn [negb andb].
  unfold auto_create, insert_one.
  cbn [get_or get String.eqb Ascii.eqb Bool.eqb float_of bind].
  destruct (reachable db); [|reflexivity].
  reflexivity.
Qed.

(** X25.  What [upload_receipt] answers, case by case.  A file whose content
    type is missing or does not start with "image/" gets 400 "Invalid file
    type. Please upload an image file.".  An image always gets a body, and
    nothing is stored unless the receipt is processed: an empty upload is
    answered "Empty file uploaded" (validation); an error raised while the
    processor is made or the directory created is answered with its own
    message (validation) when it is a [ValueError], and with the fixed
    message of kind "system" otherwise; a receipt [process_receipt] refuses
    is answered with the message and the kind of its result, which are
    always there (so the defaults "Unknown error occurred" and "unknown"
    are never sent) and the kind is "validation" or "processing"; a receipt
    that is processed is answered with [success] true and its extracted
    data, and at most one expense is added. *)
Theorem upload_receipt_answers db w file current_user :
  let result := process_receipt (contents file)
                                (psm_loop (tesseract w) psm_modes [] 0%Q) (today w) in
  let answer := upload_receipt db w file current_user in
  let refused msg kind :=
    answer = (Return (error_body (VStr msg) (VStr (utf8 kind))), db) in
  let system :=
    utf8 "An unexpected error occurred while processing the receipt. Please try again." in
  if match content_type file with
     | Some ct => starts_with (utf8 "image/") ct
     | None => false
     end
  then
    if nbytes (contents file) =? 0
    then refused (utf8 "Empty file uploaded") "validation"%string
    else
      match processor w with
      | Raise (ValueError msg) => refused msg "validation"%string
      | Raise (Exception _) => refused system "system"%string
      | Ok _ =>
          match get result "success" with
          | Some (VBool true) =>
              match makedirs w with
              | Raise (ValueError msg) => refused msg "validation"%string
              | Raise (Exception _) => refused system "system"%string
              | Ok _ =>
                  exists body db1,
                    answer = (Return body, db1)
                    /\ field_of body "success" = Some (FVal (VBool true))
                    /\ (exists data, field_of body "extracted_data" = Some (FDict data))
                    /\ (db1 = db
                        \/ exists doc, db1 = MkDatabase (expenses db ++ [doc]) true)
              end
          | _ =>
              exists msg kind,
                (kind = "validation" \/ kind = "processing")%string
                /\ get result "error" = Some (VStr msg)
                /\ get result "error_type" = Some (VStr (utf8 kind))
                /\ refused msg kind
          end
      end
  else answer
       = (HTTPException 400 (utf8 "Invalid file type. Please upload an image file."), db).
Proof.
  intros result answer refused system; subst answer refused; cbv beta.
  assert (Et : match content_type file with
               | Some ct => starts_with (utf8 "image/") ct
               | None => false
               end
               = match content_type file with
                 | Some (c :: ct) => starts_with (utf8 "image/") (c :: ct)
                 | _ => false
                 end)
    by (destruct (content_type file) as [[|c ct]|]; reflexivity).
  rewrite Et; clear Et.
  destruct (match content_type file with
            | Some (c :: ct) => starts_with (utf8 "image/") (c :: ct)
            | _ => false
            end) eqn:Ect.
  2:{ unfold upload_receipt; now rewrite Ect. }
  destruct (accepted_type file) as (ct & Hct & Himg); [now rewrite Ect|].
  destruct (nbytes (contents file) =? 0) eqn:Hz.
  { unfold upload_receipt, upload_body; now rewrite Ect, Hz. }
  destruct (processor w) as [[]|[msg|msg]] eqn:Hproc.
  2,3: unfold upload_receipt, upload_body; now rewrite Ect, Hz, Hproc.
  destruct (process_receipt_read (contents file)
              (psm_loop (tesseract w) psm_modes [] 0%Q) (today w))
    as [(msg & kind & Hk & Hs & He & Ht) | H].
  { fold result in Hs, He, Ht; rewrite Hs.
    exists msg, kind; split; [exact Hk|]; split; [exact He|]; split; [exact Ht|].
    unfold upload_receipt, upload_body; rewrite Ect, Hz, Hproc; cbn [bind].
    fold result; unfold get_or; rewrite Hs, He, Ht; reflexivity. }
  assert (Hs : get result "success" = Some (VBool true)).
  { destruct H as (a & date & merchant & category & confidence & reason & c & description
                   & items & raw & needs & _ & _ & Hrec).
    fold result in Hrec; now rewrite Hrec. }
  rewrite Hs.
  destruct (makedirs w) as [[]|[msg|msg]] eqn:Hdirs.
  - destruct (upload_on_success db w file current_user ct Hct Himg Hproc Hdirs Hs)
      as (a & _ & _ & E).
    cbv zeta in E; fold result in E; rewrite E.
    destruct (reachable db) eqn:Hr; do 2 eexists; (split; [reflexivity|]);
      (split; [reflexivity|]); (split; [eexists; reflexivity|]).
    + right; eexists; reflexivity.
    + left; reflexivity.
  - clear Hs.
    destruct H as (a & date & merchant & category & confidence & reason & c & description
                   & items & raw & needs & _ & _ & Hrec).
    fold result in Hrec.
    unfold upload_receipt, upload_body; rewrite Ect, Hz, Hproc; cbn [bind].
    fold result; rewrite Hrec, Hdirs.
    cbn [get_or get String.eqb Ascii.eqb Bool.eqb truthy negb andb bind].
    reflexivity.
  - clear Hs.
    destruct H as (a & date & merchant & category & confidence & reason & c & description
                   & items & raw & needs & _ & _ & Hrec).
    fold result in Hrec.
    unfold upload_receipt, upload_body; rewrite Ect, Hz, Hproc; cbn [bind].
    fold result; rewrite Hrec, Hdirs.
    cbn [get_or get String.eqb Ascii.eqb Bool.eqb truthy negb andb bind].
    reflexivity.
Qed.

(** X26.  An empty buffer is refused before anything is read from it:
    [process_receipt] answers "Empty image data", and [upload_receipt], which
    tests the upload first, answers its own "Empty file uploaded" without
    making a processor; both are validation failures and nothing is
    stored. *)
Theorem empty_upload_is_refused db w file current_user ct fmt shape ocr day :
  process_receipt (MkImage 0 fmt shape) ocr day
  = failure (utf8 "Empty image data") "validation"
  /\ (content_type file = Some ct -> starts_with (utf8 "image/") ct = true ->
      nbytes (contents file) = 0 ->
      upload_receipt db w file current_user
      = (Return (error_body (VStr (utf8 "Empty file uploaded"))
                            (VStr (utf8 "validation"))),
         db)).
Proof.
  split; [reflexivity|].
  intros Hct Himg Hn; unfold upload_receipt, upload_body; rewrite Hct.
  destruct ct as [|c ct]; [discriminate|].
  now rewrite Himg, Hn.
Qed.


(** X28.  The extracted data of the answer are the result of
    [process_receipt] without its key [success], with the address of the
    stored image added. *)
Theorem upload_extracted_data db w file current_user ct :
  content_type file = Some ct -> starts_with (utf8 "image/") ct = true ->
  processor w = Ok tt -> makedirs w = Ok tt ->
  let result := process_receipt (contents file)
                                (psm_loop (tesseract w) psm_modes [] 0%Q) (today w) in
  get result "success" = Some (VBool true) ->
  exists body db1 data,
    upload_receipt db w file current_user = (Return body, db1)
    /\ field_of body "extracted_data" = Some (FDict data)
    /\ forall k,
         get data k
         = if String.eqb k "receipt_url"
           then Some (VStr (utf8 "/uploads/" ++ uuid4 w 0%nat ++ utf8 "_" ++ filename file))
           else if String.eqb k "success" then None
           else get result k.
Proof.
  intros Hct Himg Hproc Hdirs result Hs.
  destruct (upload_on_success db w file current_user ct Hct Himg Hproc Hdirs Hs)
    as (a & _ & _ & E).
  cbv zeta in E; fold result in E.
  destruct (reachable db); do 3 eexists; (split; [exact E|]);
    (split; [reflexivity|]); intros k; now rewrite get_set_item, get_without.
Qed.

(** X29.  When the database does not answer, a receipt that is processed is
    still answered with [success] and its data; no expense is created and
    the answer says so. *)
Theorem upload_without_database db w file current_user ct :
  content_type file = Some ct -> starts_with (utf8 "image/") ct = true ->
  processor w = Ok tt -> makedirs w = Ok tt -> reachable db = false ->
  get (process_receipt (contents file) (psm_loop (tesseract w) psm_modes [] 0%Q) (today w))
      "success" = Some (VBool true) ->
  exists body,
    upload_receipt db w file current_user = (Return body, db)
    /\ field_of body "success" = Some (FVal (VBool true))
    /\ field_of body "expense_created" = Some (FVal (VBool false))
    /\ field_of body "expense_id" = None.
Proof.
  intros Hct Himg Hproc Hdirs Hr Hs.
  destruct (upload_on_success db w file current_user ct Hct Himg Hproc Hdirs Hs)
    as (a & _ & _ & E).
  cbv zeta in E; rewrite Hr in E.
  eexists; split; [exact E|]; repeat split.
Qed.


(** X28 on the same upload. *)
Lemma upload_extracted_data_example :
  exists body db1 data,
    upload_receipt (MkDatabase [] true)
      (MkWorld (Ok tt)
                (MkEngine (fun _ => Ok [Conf 90; Conf 80])
                          (fun _ => Ok (utf8 "Cafe Mocha
Total 120.00")))
                (utf8 "2026-11-03")
                (fun n => match n with O => utf8 "f1" | _ => utf8 "e2" end)
                (Ok tt) (utf8 "65a1"))
      (MkUpload (Some (utf8 "image/png")) (utf8 "bill.png")
                 (MkImage 2000 (Ok (Some (utf8 "PNG"))) (Some (1200, 1600)%Z)))
      (utf8 "alice")
    = (Return body, db1)
    /\ field_of body "extracted_data" = Some (FDict data)
    /\ get data "success" = None
    /\ get data "receipt_url" = Some (VStr (utf8 "/uploads/f1_bill.png")).
Proof.
  destruct (upload_extracted_data (MkDatabase [] true)
      (MkWorld (Ok tt)
                (MkEngine (fun _ => Ok [Conf 90; Conf 80])
                          (fun _ => Ok (utf8 "Cafe Mocha
Total 120.00")))
                (utf8 "2026-11-03")
                (fun n => match n with O => utf8 "f1" | _ => utf8 "e2" end)
                (Ok tt) (utf8 "65a1"))
      (MkUpload (Some (utf8 "image/png")) (utf8 "bill.png")
                 (MkImage 2000 (Ok (Some (utf8 "PNG"))) (Some (1200, 1600)%Z)))
      (utf8 "alice") (utf8 "image/png"))
    as (body & db1 & data & E & Hd & Hk);
    try (vm_compute; reflexivity).
  exists body, db1, data; split; [exact E|]; split; [exact Hd|].
  split; [exact (Hk "success"%string) | exact (Hk "receipt_url"%string)].
Defined.

(** X29 on the same upload with the database down. *)
Lemma upload_without_database_example :
  exists body,
    upload_receipt (MkDatabase [] false)
      (MkWorld (Ok tt)
                (MkEngine (fun _ => Ok [Conf 90; Conf 80])
                          (fun _ => Ok (utf8 "Cafe Mocha
Total 120.00")))
                (utf8 "2026-11-03")
                (fun n => match n with O => utf8 "f1" | _ => utf8 "e2" end)
                (Ok tt) (utf8 "65a1"))
      (MkUpload (Some (utf8 "image/png")) (utf8 "bill.png")
                 (MkImage 2000 (Ok (Some (utf8 "PNG"))) (Some (1200, 1600)%Z)))
      (utf8 "alice")
    = (Return body, MkDatabase [] false)
    /\ field_of body "success" = Some (FVal (VBool true))
    /\ field_of body "expense_created" = Some (FVal (VBool false))
    /\ field_of body "expense_id" = None.
Proof.
  apply (upload_without_database (MkDatabase [] false)
      (MkWorld (Ok tt)
                (MkEngine (fun _ => Ok [Conf 90; Conf 80])
                          (fun _ => Ok (utf8 "Cafe Mocha
Total 120.00")))
                (utf8 "2026-11-03")
                (fun n => match n with O => utf8 "f1" | _ => utf8 "e2" end)
                (Ok tt) (utf8 "65a1"))
      (MkUpload (Some (utf8 "image/png")) (utf8 "bill.png")
                 (MkImage 2000 (Ok (Some (utf8 "PNG"))) (Some (1200, 1600)%Z)))
      (utf8 "alice") (utf8 "image/png"));
    vm_compute; reflexivity.
Defined.
End Upload.
